(** * PDV Backup Analyzer: a shallow embedding of [app.py]

    The analysis engine of [PDVBackupAnalyzer] (signature check, byte
    distribution, null-region mapping, block segmentation, invoice
    extraction and the density map) is embedded as Rocq functions over
    byte lists, and the properties stated for it are settled against this
    embedding.

    Conventions.
    - [bytes] is [list byte]; [valor b] is the integer a Python [bytes]
      object yields when indexed or iterated.
    - Python integers are [Z].
    - A Python [str] is the list of its code points ([str := list Z]).
    - Python floats are modelled by exact rationals ([Q]): a percentage
      is the exact quotient of the integer counts, a parsed amount is the
      exact decimal value of its literal.
    - [while] loops take fuel and raise [Esgotado] when it runs out;
      every loop of the analysis is shown to finish within its fuel.
    - [datetime.now()] reads an explicit clock [agora : nat -> Z], the
      n-th reading of a run being [agora n].
    - The analyzer object is a record passed from method to method; it
      also carries what a run does to its surroundings: the number of
      clock readings and the messages handed to [st.error].
    - Exceptions are the values [Raise e] of [resultado]; the bare
      [except:] of the invoice scan catches them all. *)

From Stdlib Require Import ZArith List Bool Lia QArith.
From Stdlib Require Import Strings.Byte Strings.String Strings.Ascii.
Import ListNotations.

Local Open Scope Z_scope.

(** ** Bytes and strings *)

Definition bytes := list byte.

Definition valor (b : byte) : Z := Z.of_N (Byte.to_N b).

Definition len {A} (l : list A) : Z := Z.of_nat (List.length l).

(** [dados[a:b]] for non-negative [a] and [b]. *)
Definition slice {A} (dados : list A) (a b : Z) : list A :=
  firstn (Z.to_nat (b - a)) (skipn (Z.to_nat a) dados).

Definition str := list Z.

Definition lit (s : string) : str :=
  map (fun a => Z.of_N (N_of_ascii a)) (list_ascii_of_string s).

Definition b_lit (s : string) : bytes := list_byte_of_string s.

(** [str.isspace] of one character. *)
Definition isspace (c : Z) : bool :=
  ((9 <=? c) && (c <=? 13)) || ((28 <=? c) && (c <=? 32))
  || (c =? 133) || (c =? 160) || (c =? 5760)
  || ((8192 <=? c) && (c <=? 8202)) || (c =? 8232) || (c =? 8233)
  || (c =? 8239) || (c =? 8287) || (c =? 12288).

Fixpoint lstrip (s : str) : str :=
  match s with
  | c :: s' => if isspace c then lstrip s' else s
  | [] => []
  end.

(** [s.strip()] *)
Definition strip (s : str) : str := rev (lstrip (rev (lstrip s))).

(** [str.isdigit] of one character below 256 (every string tested by the
    analysis is built with [chr] from single bytes). *)
Definition isdigit_char (c : Z) : bool :=
  ((48 <=? c) && (c <=? 57)) || (c =? 178) || (c =? 179) || (c =? 185).

(** [s.isdigit()]: non-empty and all digits. *)
Definition isdigit (s : str) : bool :=
  match s with
  | [] => false
  | _ => forallb isdigit_char s
  end.

(** [s.replace('.', '', 1)] *)
Fixpoint replace_dot_once (s : str) : str :=
  match s with
  | [] => []
  | c :: s' => if c =? 46 then s' else c :: replace_dot_once s'
  end.

(** *** [bytes.decode('utf-8', errors='ignore')]

    Well-formed sequences yield their code point; an ill-formed sequence
    is dropped up to (not including) the first byte that cannot continue
    it, and decoding resumes at that byte. *)

Definition entre (lo hi : Z) (b : byte) : bool :=
  (lo <=? valor b) && (valor b <=? hi).

Definition cont (b : byte) : bool := entre 128 191 b.

Definition cbits (b : byte) : Z := valor b - 128.

Fixpoint decode_ignore (l : bytes) : str :=
  match l with
  | [] => []
  | b0 :: r0 =>
    let v := valor b0 in
    if v <? 128 then v :: decode_ignore r0
    else if (194 <=? v) && (v <=? 223) then
      match r0 with
      | [] => []
      | b1 :: r1 =>
        if cont b1 then ((v - 192) * 64 + cbits b1) :: decode_ignore r1
        else decode_ignore r0
      end
    else if (224 <=? v) && (v <=? 239) then
      let lo := if v =? 224 then 160 else 128 in
      let hi := if v =? 237 then 159 else 191 in
      match r0 with
      | [] => []
      | b1 :: r1 =>
        if entre lo hi b1 then
          match r1 with
          | [] => []
          | b2 :: r2 =>
            if cont b2
            then ((v - 224) * 4096 + cbits b1 * 64 + cbits b2) :: decode_ignore r2
            else decode_ignore r1
          end
        else decode_ignore r0
      end
    else if (240 <=? v) && (v <=? 244) then
      let lo := if v =? 240 then 144 else 128 in
      let hi := if v =? 244 then 143 else 191 in
      match r0 with
      | [] => []
      | b1 :: r1 =>
        if entre lo hi b1 then
          match r1 with
          | [] => []
          | b2 :: r2 =>
            if cont b2 then
              match r2 with
              | [] => []
              | b3 :: r3 =>
                if cont b3
                then ((v - 240) * 262144 + cbits b1 * 4096 + cbits b2 * 64 + cbits b3)
                       :: decode_ignore r3
                else decode_ignore r2
              end
            else decode_ignore r1
          end
        else decode_ignore r0
      end
    else decode_ignore r0
  end.

(** ** Exceptions and loops *)

Inductive excecao :=
| IndexError
| AttributeError
| ZeroDivisionError
| ValueError
| Esgotado.   (* a loop of the model ran out of fuel; no Python counterpart *)

Inductive resultado (A : Type) :=
| Ret (a : A)
| Raise (e : excecao).
Arguments Ret {A} a.
Arguments Raise {A} e.

Definition bind {A B} (m : resultado A) (k : A -> resultado B) : resultado B :=
  match m with
  | Ret a => k a
  | Raise e => Raise e
  end.

Notation "x <- m ;; k" := (bind m (fun x => k))
  (at level 61, m at next level, right associativity).
Notation "' p <- m ;; k" := (bind m (fun x => let p := x in k))
  (at level 61, p pattern, m at next level, right associativity).

Section While.
Context {St : Type}.
Variable cond : St -> resultado bool.
Variable body : St -> resultado St.

(** [while cond: body], bounded by [fuel] iterations. *)
Fixpoint while (fuel : nat) (s : St) : resultado St :=
  c <- cond s ;;
  if c then
    match fuel with
    | O => Raise Esgotado
    | S f => s' <- body s ;; while f s'
    end
  else Ret s.
End While.

(** [dados[i]]: negative indices count from the end, and an index
    outside [-len, len) raises. *)
Definition getitem (dados : bytes) (i : Z) : resultado Z :=
  let j := if i <? 0 then len dados + i else i in
  if (0 <=? j) && (j <? len dados)
  then match nth_error dados (Z.to_nat j) with
       | Some b => Ret (valor b)
       | None => Raise IndexError
       end
  else Raise IndexError.

(** [range(n)] *)
Definition range (n : Z) : list Z := map Z.of_nat (seq 0 (Z.to_nat n)).

(** [all(f(j) for j in js)], stopping at the first [False]. *)
Fixpoint all_m (f : Z -> resultado bool) (js : list Z) : resultado bool :=
  match js with
  | [] => Ret true
  | j :: js' => b <- f j ;; if b then all_m f js' else Ret false
  end.

(** [[f(j) for j in js]] *)
Fixpoint map_m {A} (f : Z -> resultado A) (js : list Z) : resultado (list A) :=
  match js with
  | [] => Ret []
  | j :: js' => x <- f j ;; xs <- map_m f js' ;; Ret (x :: xs)
  end.

(** [sum(1 for b in dados if p(b))] *)
Fixpoint conta (p : Z -> bool) (dados : bytes) : Z :=
  match dados with
  | [] => 0
  | b :: r => (if p (valor b) then 1 else 0) + conta p r
  end.

(** [a / b] on integers. *)
Definition truediv (a b : Z) : resultado Q :=
  if b =? 0 then Raise ZeroDivisionError
  else Ret (inject_Z a / inject_Z b)%Q.

(** [a // b] on integers. *)
Definition floordiv (a b : Z) : resultado Z :=
  if b =? 0 then Raise ZeroDivisionError else Ret (a / b).

Definition str_eqb (s t : str) : bool :=
  if list_eq_dec Z.eq_dec s t then true else false.

(** ** Data model *)

Record ArquivoBackup := {
  nome_arquivo : str;
  tamanho_bytes : Z;
  assinatura : str;
  data_criacao : Z;
  versao_formato : str;
  percentual_bytes_nulos : Q;
  percentual_controle : Q;
  percentual_ascii : Q;
  percentual_unicode : Q;
  numero_blocos : Z;
  numero_regioes_nulas : Z;
  capacidade_estimada : Z
}.

Inductive tipo_bloco := CABECALHO | DEFINICAO | DADOS.

Record BlocoEstrutura := {
  posicao_inicio : Z;
  posicao_fim : Z;
  tamanho : Z;
  tipo : tipo_bloco;
  contem_texto : bool;
  contem_binario : bool;
  assinatura_hex : str
}.

Record NotaFiscal := {
  bloco_id : Z;
  posicao_registro : Z;
  numero : str;
  serie : str;
  data_emissao : Z;
  valor_total : Q;
  desconto : Q;
  acrescimo : Q;
  valor_final : Q
}.

(** An entry of [regioes_nulas]: the dict with keys ['inicio'], ['fim']
    and ['tamanho']. *)
Record regiao := {
  r_inicio : Z;
  r_fim : Z;
  r_tamanho : Z
}.

Record PDVBackupAnalyzer := {
  arquivo : option ArquivoBackup;
  blocos : list BlocoEstrutura;
  regioes_nulas : list regiao;
  notas_fiscais : list NotaFiscal;
  (* what the run has done to its surroundings *)
  lidas : nat;              (* readings of the clock so far *)
  st_erros : list str       (* messages passed to [st.error] *)
}.

(** [PDVBackupAnalyzer()] *)
Definition analisador_novo : PDVBackupAnalyzer :=
  {| arquivo := None; blocos := []; regioes_nulas := [];
     notas_fiscais := []; lidas := 0%nat; st_erros := [] |}.

(** ** The analysis *)

Section Analise.
(** The clock: [agora n] is what the n-th call of [datetime.now()]
    returns. *)
Variable agora : nat -> Z.

(** [ArquivoBackup(nome_arquivo, tamanho_bytes)] at clock reading [n]. *)
Definition ArquivoBackup_init (nome : str) (tam : Z) (n : nat) : ArquivoBackup :=
  {| nome_arquivo := nome; tamanho_bytes := tam; assinatura := [];
     data_criacao := agora n; versao_formato := [];
     percentual_bytes_nulos := 0; percentual_controle := 0;
     percentual_ascii := 0; percentual_unicode := 0;
     numero_blocos := 0; numero_regioes_nulas := 0;
     capacidade_estimada := 0 |}.

(** [NotaFiscal()] at clock reading [n]. *)
Definition NotaFiscal_init (n : nat) : NotaFiscal :=
  {| bloco_id := 0; posicao_registro := 0; numero := []; serie := [];
     data_emissao := agora n; valor_total := 0; desconto := 0;
     acrescimo := 0; valor_final := 0 |}.

(** *** [mapear_regioes_nulas] *)

Definition tamanho_min : Z := 20.

(** [while i < total_bytes and p(dados[i]): i += 1] *)
Definition avanca (p : Z -> bool) (dados : bytes) (fuel : nat) (i : Z)
  : resultado Z :=
  while (fun i => if i <? len dados
                  then v <- getitem dados i ;; Ret (p v)
                  else Ret false)
        (fun i => Ret (i + 1)) fuel i.

Definition nao_nulo (v : Z) : bool := negb (v =? 0).
Definition nulo (v : Z) : bool := v =? 0.

Definition mapear_passo (dados : bytes) (fuel : nat) (s : Z * list regiao)
  : resultado (Z * list regiao) :=
  let '(i, regs) := s in
  inicio <- avanca nao_nulo dados fuel i ;;
  i2 <- avanca nulo dados fuel inicio ;;
  let fim := i2 - 1 in
  Ret (i2,
       if fim - inicio + 1 >=? tamanho_min
       then regs ++ [ {| r_inicio := inicio; r_fim := fim;
                         r_tamanho := fim - inicio + 1 |} ]
       else regs).

Definition mapear_laco (dados : bytes) (fuel : nat) (regs : list regiao)
  : resultado (Z * list regiao) :=
  while (fun s => Ret (fst s <? len dados)) (mapear_passo dados fuel)
        fuel (0, regs).

Definition set_numero_regioes_nulas (a : ArquivoBackup) (n : Z) : ArquivoBackup :=
  {| nome_arquivo := nome_arquivo a; tamanho_bytes := tamanho_bytes a;
     assinatura := assinatura a; data_criacao := data_criacao a;
     versao_formato := versao_formato a;
     percentual_bytes_nulos := percentual_bytes_nulos a;
     percentual_controle := percentual_controle a;
     percentual_ascii := percentual_ascii a;
     percentual_unicode := percentual_unicode a;
     numero_blocos := numero_blocos a; numero_regioes_nulas := n;
     capacidade_estimada := capacidade_estimada a |}.

Definition set_numero_blocos (a : ArquivoBackup) (n : Z) : ArquivoBackup :=
  {| nome_arquivo := nome_arquivo a; tamanho_bytes := tamanho_bytes a;
     assinatura := assinatura a; data_criacao := data_criacao a;
     versao_formato := versao_formato a;
     percentual_bytes_nulos := percentual_bytes_nulos a;
     percentual_controle := percentual_controle a;
     percentual_ascii := percentual_ascii a;
     percentual_unicode := percentual_unicode a;
     numero_blocos := n; numero_regioes_nulas := numero_regioes_nulas a;
     capacidade_estimada := capacidade_estimada a |}.

(** [self.arquivo.campo = ...]; raises when [self.arquivo] is [None]. *)
Definition com_arquivo (self : PDVBackupAnalyzer)
           (f : ArquivoBackup -> ArquivoBackup) : resultado PDVBackupAnalyzer :=
  match arquivo self with
  | None => Raise AttributeError
  | Some a =>
    Ret {| arquivo := Some (f a); blocos := blocos self;
           regioes_nulas := regioes_nulas self;
           notas_fiscais := notas_fiscais self;
           lidas := lidas self; st_erros := st_erros self |}
  end.

Definition mapear_regioes_nulas (self : PDVBackupAnalyzer) (dados : bytes)
  : resultado PDVBackupAnalyzer :=
  s <- mapear_laco dados (List.length dados) (regioes_nulas self) ;;
  let self1 :=
    {| arquivo := arquivo self; blocos := blocos self;
       regioes_nulas := snd s; notas_fiscais := notas_fiscais self;
       lidas := lidas self; st_erros := st_erros self |} in
  com_arquivo self1 (fun a => set_numero_regioes_nulas a (len (snd s))).

(** *** [identificar_blocos] *)

(** [sorted(regioes, key=lambda r: r['inicio'])]: a stable sort, so
    entries with the same key keep their order. *)
Fixpoint insere (r : regiao) (l : list regiao) : list regiao :=
  match l with
  | [] => [r]
  | x :: l' =>
    if r_inicio r <=? r_inicio x then r :: l else x :: insere r l'
  end.

Definition sorted_inicio (l : list regiao) : list regiao :=
  fold_right insere [] l.

Definition hexdig (d : Z) : Z := if d <? 10 then 48 + d else 87 + d.

(** [f'{b:02x}'] *)
Definition hex2 (v : Z) : str := [hexdig (v / 16); hexdig (v mod 16)].

Definition e_ascii (v : Z) : bool := (32 <=? v) && (v <=? 127).

(** The block appended inside the loop over the regions. *)
Definition bloco_antes (dados : bytes) (posicao_atual : Z) (r : regiao)
  : BlocoEstrutura :=
  let ini := posicao_atual in
  let fim := r_inicio r - 1 in
  let tam := fim - ini + 1 in
  if posicao_atual =? 0 then
    {| posicao_inicio := ini; posicao_fim := fim; tamanho := tam;
       tipo := CABECALHO; contem_texto := false; contem_binario := false;
       assinatura_hex := [] |}
  else
    let dados_bloco := slice dados ini (fim + 1) in
    let texto_ascii := conta e_ascii dados_bloco in
    {| posicao_inicio := ini; posicao_fim := fim; tamanho := tam;
       tipo := if posicao_atual <? 1024 then DEFINICAO else DADOS;
       (* [texto_ascii > len(dados_bloco) * 0.5] *)
       contem_texto := 2 * texto_ascii >? len dados_bloco;
       contem_binario := existsb (fun b => valor b >? 127) dados_bloco;
       assinatura_hex :=
         List.concat (map (fun b => hex2 (valor b)) (slice dados_bloco 0 16)) |}.

Definition blocos_passo (dados : bytes) (s : Z * list BlocoEstrutura)
           (r : regiao) : Z * list BlocoEstrutura :=
  let '(posicao_atual, bl) := s in
  (r_fim r + 1,
   if r_inicio r >? posicao_atual
   then bl ++ [bloco_antes dados posicao_atual r]
   else bl).

(** The block appended after the loop. *)
Definition bloco_final (dados : bytes) (posicao_atual : Z) : BlocoEstrutura :=
  {| posicao_inicio := posicao_atual; posicao_fim := len dados - 1;
     tamanho := (len dados - 1) - posicao_atual + 1;
     tipo := DADOS; contem_texto := false; contem_binario := false;
     assinatura_hex := [] |}.

Definition blocos_de (dados : bytes) (regs : list regiao)
           (bl : list BlocoEstrutura) : list BlocoEstrutura :=
  let '(posicao_atual, bl1) :=
    fold_left (blocos_passo dados) (sorted_inicio regs) (0, bl) in
  if posicao_atual <? len dados
  then bl1 ++ [bloco_final dados posicao_atual]
  else bl1.

Definition identificar_blocos (self : PDVBackupAnalyzer) (dados : bytes)
  : resultado PDVBackupAnalyzer :=
  let bl := blocos_de dados (regioes_nulas self) (blocos self) in
  let self1 :=
    {| arquivo := arquivo self; blocos := bl;
       regioes_nulas := regioes_nulas self;
       notas_fiscais := notas_fiscais self;
       lidas := lidas self; st_erros := st_erros self |} in
  com_arquivo self1 (fun a => set_numero_blocos a (len bl)).

(** *** [extrair_notas_fiscais] *)

Fixpoint digitos_val (s : str) (acc : Z) : Z :=
  match s with
  | [] => acc
  | c :: s' => digitos_val s' (if c =? 46 then acc else 10 * acc + (c - 48))
  end.

Fixpoint casas (s : str) : Z :=
  match s with
  | [] => 0
  | c :: s' => if c =? 46 then len s' else casas s'
  end.

(** [float(s)] on the literals that reach it: ASCII digits with at most
    one decimal point and at least one digit.  Any other argument is
    answered with [ValueError]; the caller only passes strings that
    satisfy [s.replace('.', '', 1).isdigit()]. *)
Definition float_decimal (s : str) : resultado Q :=
  if isdigit (replace_dot_once s)
     && forallb (fun c => (c =? 46) || ((48 <=? c) && (c <=? 57))) s
  then Ret (inject_Z (digitos_val s 0) / inject_Z (10 ^ casas s))%Q
  else Raise ValueError.

Definition Qpos (q : Q) : bool := 0 <? Qnum q.

(** The [try] block of one candidate: the record to append, if any. *)
Definition tentar_valor (dados_bloco : bytes) (i : Z) (nota : NotaFiscal)
  : resultado (option NotaFiscal) :=
  let valor_bytes := slice dados_bloco (i + 10) (i + 18) in
  let valor_str := filter e_ascii (map valor valor_bytes) in
  nota1 <-
    (if isdigit (replace_dot_once valor_str)
     then v <- float_decimal valor_str ;;
          Ret {| bloco_id := bloco_id nota;
                 posicao_registro := posicao_registro nota;
                 numero := numero nota; serie := serie nota;
                 data_emissao := data_emissao nota;
                 valor_total := v; desconto := desconto nota;
                 acrescimo := acrescimo nota; valor_final := v |}
     else Ret nota) ;;
  Ret (if Qpos (valor_total nota1) then Some nota1 else None).

(** State of the scan of one block: the offset [i], the records stored
    so far and the number of clock readings. *)
Definition varredura := (Z * list NotaFiscal * nat)%type.

Definition e_digito (v : Z) : bool := (48 <=? v) && (v <=? 57).

Definition notas_passo (dados_bloco : bytes) (k : Z) (ini : Z) (s : varredura)
  : resultado varredura :=
  let '(i, notas, n) := s in
  d <- all_m (fun j => v <- getitem dados_bloco (i + j) ;; Ret (e_digito v))
             (range 6) ;;
  if d then
    let nota0 := NotaFiscal_init n in
    num <- map_m (fun j => getitem dados_bloco (i + j)) (range 6) ;;
    ser <- map_m (fun j => getitem dados_bloco (i + 6 + j)) (range 3) ;;
    let nota :=
      {| bloco_id := k; posicao_registro := ini + i;
         numero := strip num; serie := strip ser;
         data_emissao := data_emissao nota0;
         valor_total := valor_total nota0; desconto := desconto nota0;
         acrescimo := acrescimo nota0; valor_final := valor_final nota0 |} in
    if isdigit (numero nota) && (len (numero nota) >? 0) then
      match tentar_valor dados_bloco i nota with
      | Ret (Some nota1) => Ret (i + 1, notas ++ [nota1], S n)
      | Ret None => Ret (i + 1, notas, S n)
      | Raise _ => Ret (i + 1, notas, S n)     (* [except: pass] *)
      end
    else Ret (i + 1, notas, S n)
  else Ret (i + 1, notas, n).

(** The [while] loop over one block; [k] is the position of the block
    in [blocos_dados] (what [blocos_dados.index(bloco)] finds, blocks
    being compared by identity). *)
Definition notas_do_bloco (dados : bytes) (k : Z) (bloco : BlocoEstrutura)
           (notas : list NotaFiscal) (n : nat)
  : resultado (list NotaFiscal * nat) :=
  let dados_bloco :=
    slice dados (posicao_inicio bloco) (posicao_fim bloco + 1) in
  s <- while (fun s : varredura =>
                Ret (fst (fst s) <? len dados_bloco - 20))
             (notas_passo dados_bloco k (posicao_inicio bloco))
             (List.length dados_bloco) (0, notas, n) ;;
  Ret (snd (fst s), snd s).

Definition e_dados (b : BlocoEstrutura) : bool :=
  match tipo b with DADOS => true | _ => false end.

Fixpoint notas_dos_blocos (dados : bytes) (k : Z) (bs : list BlocoEstrutura)
         (notas : list NotaFiscal) (n : nat)
  : resultado (list NotaFiscal * nat) :=
  match bs with
  | [] => Ret (notas, n)
  | b :: bs' =>
    s <- notas_do_bloco dados k b notas n ;;
    notas_dos_blocos dados (k + 1) bs' (fst s) (snd s)
  end.

Definition extrair_notas_fiscais (self : PDVBackupAnalyzer) (dados : bytes)
  : resultado PDVBackupAnalyzer :=
  let blocos_dados := filter e_dados (blocos self) in
  s <- notas_dos_blocos dados 0 blocos_dados (notas_fiscais self) (lidas self) ;;
  Ret {| arquivo := arquivo self; blocos := blocos self;
         regioes_nulas := regioes_nulas self;
         notas_fiscais := fst s;
         lidas := snd s; st_erros := st_erros self |}.

(** *** [carregar_arquivo] *)

Definition msg_sem_assinatura : str :=
  lit "Arquivo n" ++ [227] ++ lit "o possui a assinatura HE3!".

(** The four counts of the byte distribution, as the method computes
    them. *)
Definition bytes_nulos (dados : bytes) : Z := conta nulo dados.
Definition bytes_controle (dados : bytes) : Z :=
  conta (fun v => v <? 32) dados.
Definition bytes_ascii (dados : bytes) : Z := conta e_ascii dados.
Definition bytes_unicode (dados : bytes) : Z :=
  len dados - bytes_nulos dados - bytes_controle dados - bytes_ascii dados.

(** [(n / total_bytes) * 100] *)
Definition percentual (n total : Z) : resultado Q :=
  q <- truediv n total ;; Ret (q * 100)%Q.

Definition assinatura_ok (dados : bytes) : bool :=
  (len dados >=? 3) && str_eqb (decode_ignore (slice dados 0 3)) (lit "HE3").

Definition carregar_arquivo (self : PDVBackupAnalyzer) (dados : bytes)
           (nome : str) : resultado (PDVBackupAnalyzer * option ArquivoBackup) :=
  let a0 := ArquivoBackup_init nome (len dados) (lidas self) in
  let n1 := S (lidas self) in
  if assinatura_ok dados then
    let versao := strip (decode_ignore (slice dados 3 7)) in
    let total_bytes := len dados in
    p_nulos <- percentual (bytes_nulos dados) total_bytes ;;
    p_controle <- percentual (bytes_controle dados) total_bytes ;;
    p_ascii <- percentual (bytes_ascii dados) total_bytes ;;
    p_unicode <- percentual (bytes_unicode dados) total_bytes ;;
    let a1 :=
      {| nome_arquivo := nome_arquivo a0; tamanho_bytes := tamanho_bytes a0;
         assinatura := lit "HE3"; data_criacao := data_criacao a0;
         versao_formato := versao;
         percentual_bytes_nulos := p_nulos;
         percentual_controle := p_controle;
         percentual_ascii := p_ascii;
         percentual_unicode := p_unicode;
         numero_blocos := numero_blocos a0;
         numero_regioes_nulas := numero_regioes_nulas a0;
         capacidade_estimada := capacidade_estimada a0 |} in
    let self1 :=
      {| arquivo := Some a1; blocos := blocos self;
         regioes_nulas := regioes_nulas self;
         notas_fiscais := notas_fiscais self;
         lidas := n1; st_erros := st_erros self |} in
    self2 <- mapear_regioes_nulas self1 dados ;;
    self3 <- identificar_blocos self2 dados ;;
    self4 <- extrair_notas_fiscais self3 dados ;;
    Ret (self4, arquivo self4)
  else
    Ret ({| arquivo := Some a0; blocos := blocos self;
            regioes_nulas := regioes_nulas self;
            notas_fiscais := notas_fiscais self;
            lidas := n1;
            st_erros := st_erros self ++ [msg_sem_assinatura] |},
         None).

(** A run of the analysis on a fresh analyzer. *)
Definition analisar (dados : bytes) (nome : str)
  : resultado (PDVBackupAnalyzer * option ArquivoBackup) :=
  carregar_arquivo analisador_novo dados nome.

End Analise.

(** ** [gerar_mapa_densidade] *)

(** A row of the density map. *)
Record janela := {
  j_inicio : Z;
  j_fim : Z;
  densidade_nulos : Q;
  densidade_controle : Q;
  densidade_ascii : Q;
  densidade_unicode : Q
}.

(** The four counts of one window, as the method computes them. *)
Record contagem := {
  c_nulos : Z;
  c_controle : Z;
  c_ascii : Z;
  c_unicode : Z
}.

Definition contar_janela (bloco_dados : bytes) : contagem :=
  let nulos := conta nulo bloco_dados in
  let controle := conta (fun v => (v <? 32) && negb (v =? 0)) bloco_dados in
  let asc := conta e_ascii bloco_dados in
  {| c_nulos := nulos; c_controle := controle; c_ascii := asc;
     c_unicode := len bloco_dados - nulos - controle - asc |}.

Definition janela_de (dados : bytes) (tamanho_bloco i : Z) : resultado janela :=
  let inicio := i * tamanho_bloco in
  let fim := Z.min ((i + 1) * tamanho_bloco - 1) (len dados - 1) in
  let bloco_dados := slice dados inicio (fim + 1) in
  let c := contar_janela bloco_dados in
  dn <- truediv (c_nulos c) (len bloco_dados) ;;
  dc <- truediv (c_controle c) (len bloco_dados) ;;
  da <- truediv (c_ascii c) (len bloco_dados) ;;
  du <- truediv (c_unicode c) (len bloco_dados) ;;
  Ret {| j_inicio := inicio; j_fim := fim; densidade_nulos := dn;
         densidade_controle := dc; densidade_ascii := da;
         densidade_unicode := du |}.

Definition gerar_mapa_densidade (dados : bytes) (tamanho_bloco : Z)
  : resultado (list janela) :=
  total_blocos <- floordiv (len dados + tamanho_bloco - 1) tamanho_bloco ;;
  map_m (janela_de dados tamanho_bloco) (range total_blocos).

(** ** Sample buffers *)

Definition zeros (n : nat) : bytes := repeat x00 n.

(** [b"HE3" + b"1.0\0" + b"A"*100 + b"\0"*30 + b"123456ABC" + b"  12.50 "
    + b"\0"*25] *)
Definition buffer_cenario : bytes :=
  b_lit "HE3" ++ b_lit "1.0" ++ [x00] ++ repeat x41 100 ++ zeros 30
  ++ b_lit "123456ABC" ++ b_lit "  12.50 " ++ zeros 25.

(** [b"HE3\x00"] *)
Definition buffer_HE3_nulo : bytes := b_lit "HE3" ++ [x00].

(** [b"HE3"] *)
Definition buffer_HE3 : bytes := b_lit "HE3".

(** [b"HE3" + b"\0"*20 + b"A"*1100 + b"\0"*20] *)
Definition buffer_longo : bytes :=
  b_lit "HE3" ++ zeros 20 ++ repeat x41 1100 ++ zeros 20.

(** [b"HE3123456ABCX00012.50" + b"A"*10]: no null region, one final data
    block, one accepted candidate at offset 3. *)
Definition buffer_nota : bytes :=
  b_lit "HE3123456ABCX00012.50" ++ repeat x41 10.

(** Two clocks: the readings of a first run and those of a later one. *)
Definition relogio0 : nat -> Z := fun n => Z.of_nat n.

Definition relogio1 : nat -> Z := fun n => 1000 + Z.of_nat n.

(** ** What the properties speak of *)

(** [null% + (control% - null%) + ascii% + other%] *)
Definition soma_percentuais (a : ArquivoBackup) : Q :=
  (percentual_bytes_nulos a
   + (percentual_controle a - percentual_bytes_nulos a)
   + percentual_ascii a + percentual_unicode a)%Q.

(** The failure a run reports.  [carregar_arquivo] has a single failure
    exit, the [else] branch of the signature test: it passes
    [msg_sem_assinatura] to [st.error] and returns [None].  That is
    [InvalidSignature]; no exit of the source reports [EmptyInput]. *)
Inductive AnalysisError := InvalidSignature | EmptyInput.

Definition erro_relatado
           (r : resultado (PDVBackupAnalyzer * option ArquivoBackup))
  : option AnalysisError :=
  match r with
  | Ret (s, None) =>
    if existsb (str_eqb msg_sem_assinatura) (st_erros s)
    then Some InvalidSignature else None
  | _ => None
  end.

(** What the scenario is said to produce: signature and version, one
    header block, a null region of 30 bytes, a data block with exactly
    one accepted record (123456 / ABC / about 12.50) and a trailing null
    region of 25 bytes. *)
Definition cenario_descrito (s : PDVBackupAnalyzer) (a : ArquivoBackup) : Prop :=
  assinatura a = lit "HE3"
  /\ versao_formato a = lit "1.0"
  /\ List.length (filter (fun b => match tipo b with CABECALHO => true | _ => false end)
                         (blocos s)) = 1%nat
  /\ (exists r, In r (regioes_nulas s) /\ r_tamanho r = 30)
  /\ (exists b n, In b (blocos s) /\ tipo b = DADOS
                  /\ notas_fiscais s = [n]
                  /\ numero n = lit "123456" /\ serie n = lit "ABC"
                  /\ (12.49 <= valor_total n)%Q /\ (valor_total n <= 12.51)%Q)
  /\ (exists r, last (regioes_nulas s) r = r /\ In r (regioes_nulas s)
                /\ r_tamanho r = 25).

(** ** Placement of regions and blocks *)

(** The regions of [rs] follow one another from offset [c] on and end
    before [c']: each starts at or after the end of the previous one
    plus one, is non-empty and records its own length. *)
Fixpoint encadeadas (c c' : Z) (rs : list regiao) : Prop :=
  match rs with
  | [] => c <= c'
  | r :: rs' =>
    c <= r_inicio r /\ r_inicio r <= r_fim r
    /\ r_tamanho r = r_fim r - r_inicio r + 1
    /\ encadeadas (r_fim r + 1) c' rs'
  end.

Definition cobre_bloco (x : Z) (b : BlocoEstrutura) : bool :=
  (posicao_inicio b <=? x) && (x <=? posicao_fim b).

Definition cobre_regiao (x : Z) (r : regiao) : bool :=
  (r_inicio r <=? x) && (x <=? r_fim r).

(** How many blocks and null regions the offset [x] belongs to. *)
Definition cobertura (bl : list BlocoEstrutura) (rs : list regiao) (x : Z) : nat :=
  (List.length (filter (cobre_bloco x) bl)
   + List.length (filter (cobre_regiao x) rs))%nat.

(** What holds of the region list once the buffer is scanned up to
    offset [i]: the regions are placed one after the other before [i],
    each is long enough and starts on a null byte. *)
Definition regioes_ate (dados : bytes) (i : Z) (rs : list regiao) : Prop :=
  0 <= i <= len dados
  /\ encadeadas 0 i rs
  /\ Forall (fun r => tamanho_min <= r_tamanho r
                      /\ getitem dados (r_inicio r) = Ret 0) rs.

(** The kind the loop over the regions gives a block that starts at
    offset [p]. *)
Definition tipo_por_inicio (p : Z) : tipo_bloco :=
  if p =? 0 then CABECALHO else if p <? 1024 then DEFINICAO else DADOS.

(** A block emitted before a region of [rs], while the cursor moves
    from [p] to [p']. *)
Definition bloco_entre (p p' : Z) (rs : list regiao) (b : BlocoEstrutura) : Prop :=
  p <= posicao_inicio b /\ posicao_inicio b <= posicao_fim b
  /\ posicao_fim b < p'
  /\ tamanho b = posicao_fim b - posicao_inicio b + 1
  /\ (exists r, In r rs /\ r_inicio r = posicao_fim b + 1)
  /\ tipo b = tipo_por_inicio (posicao_inicio b).

(** What holds of every block of a segmentation of [dados] along the
    regions [rs]: it lies inside the buffer, is not empty, records its
    own length, and is either the final block (it ends with the buffer
    and is of kind data) or a block that ends right before a region and
    has the kind its start offset gives it. *)
Definition bloco_valido (dados : bytes) (rs : list regiao) (b : BlocoEstrutura) : Prop :=
  0 <= posicao_inicio b /\ posicao_inicio b <= posicao_fim b
  /\ posicao_fim b < len dados
  /\ tamanho b = posicao_fim b - posicao_inicio b + 1
  /\ ((posicao_fim b = len dados - 1 /\ tipo b = DADOS)
      \/ (posicao_fim b < len dados - 1
          /\ (exists r, In r rs /\ r_inicio r = posicao_fim b + 1)
          /\ tipo b = tipo_por_inicio (posicao_inicio b))).

(** The kind a block would have if kinds went by the rule "offset 0 is
    the header, a later block wholly before offset 1024 is a definition,
    anything else is data". *)
Definition tipo_descrito (b : BlocoEstrutura) : tipo_bloco :=
  if posicao_inicio b =? 0 then CABECALHO
  else if posicao_fim b <? 1024 then DEFINICAO else DADOS.

(** ** Candidates of the invoice scan *)

(** The value window of the candidate at offset [i]: the 8 bytes from
    [i + 10] on, filtered to printable ASCII. *)
Definition janela_valor (dados : bytes) (i : Z) : str :=
  filter e_ascii (map valor (slice dados (i + 10) (i + 18))).

(** The 6 bytes from offset [i] on are ASCII digits. *)
Definition seis_digitos (dados : bytes) (i : Z) : Prop :=
  forall j, 0 <= j < 6 ->
            exists v, getitem dados (i + j) = Ret v /\ 48 <= v <= 57.

(** A literal with at most one decimal point and otherwise digits, and
    at least one digit. *)
Definition literal_decimal (s : str) : bool :=
  Nat.leb (count_occ Z.eq_dec s 46) 1
  && forallb (fun c => (c =? 46) || e_digito c) s
  && existsb e_digito s.

(** The candidate at offset [i] is one the scan stores. *)
Definition candidato_aceito (dados : bytes) (i : Z) : Prop :=
  seis_digitos dados i
  /\ literal_decimal (janela_valor dados i) = true
  /\ exists v, float_decimal (janela_valor dados i) = Ret v /\ (0 < v)%Q.

(** [nota] is the record of the candidate at offset [i] of the block
    [dados_bloco], the [k]-th data block, which starts at [ini]. *)
Definition registro_de (agora : nat -> Z) (dados_bloco : bytes) (k ini i : Z)
           (nota : NotaFiscal) : Prop :=
  bloco_id nota = k
  /\ posicao_registro nota = ini + i
  /\ numero nota = map valor (slice dados_bloco i (i + 6))
  /\ serie nota = strip (map valor (slice dados_bloco (i + 6) (i + 9)))
  /\ float_decimal (janela_valor dados_bloco i) = Ret (valor_total nota)
  /\ valor_final nota = valor_total nota
  /\ desconto nota = 0%Q /\ acrescimo nota = 0%Q
  /\ exists m, data_emissao nota = agora m.

(** [dados[bloco.posicao_inicio:bloco.posicao_fim+1]] *)
Definition dados_do_bloco (dados : bytes) (b : BlocoEstrutura) : bytes :=
  slice dados (posicao_inicio b) (posicao_fim b + 1).

(** The records [novas] are those of the accepted candidates of the
    block [b], the [k]-th data block: each record belongs to an accepted
    candidate at a scanned offset, and each accepted candidate at a
    scanned offset has its record. *)
Definition notas_do_bloco_sao (agora : nat -> Z) (dados : bytes) (k : Z)
           (b : BlocoEstrutura) (ate : Z) (novas : list NotaFiscal) : Prop :=
  (forall nota, In nota novas ->
     exists i, 0 <= i < len (dados_do_bloco dados b) - 20
               /\ candidato_aceito (dados_do_bloco dados b) i
               /\ registro_de agora (dados_do_bloco dados b) k
                              (posicao_inicio b) i nota)
  /\ (forall i, 0 <= i < ate -> i < len (dados_do_bloco dados b) - 20 ->
        candidato_aceito (dados_do_bloco dados b) i ->
        exists nota, In nota novas
                     /\ registro_de agora (dados_do_bloco dados b) k
                                    (posicao_inicio b) i nota).

(** ** Two runs *)

(** The outputs with the times read from the clock left out. *)
Definition sem_data_arquivo (a : ArquivoBackup) : ArquivoBackup :=
  {| nome_arquivo := nome_arquivo a; tamanho_bytes := tamanho_bytes a;
     assinatura := assinatura a; data_criacao := 0;
     versao_formato := versao_formato a;
     percentual_bytes_nulos := percentual_bytes_nulos a;
     percentual_controle := percentual_controle a;
     percentual_ascii := percentual_ascii a;
     percentual_unicode := percentual_unicode a;
     numero_blocos := numero_blocos a;
     numero_regioes_nulas := numero_regioes_nulas a;
     capacidade_estimada := capacidade_estimada a |}.

Definition sem_data_nota (n : NotaFiscal) : NotaFiscal :=
  {| bloco_id := bloco_id n; posicao_registro := posicao_registro n;
     numero := numero n; serie := serie n; data_emissao := 0;
     valor_total := valor_total n; desconto := desconto n;
     acrescimo := acrescimo n; valor_final := valor_final n |}.

Definition sem_datas (s : PDVBackupAnalyzer) : PDVBackupAnalyzer :=
  {| arquivo := option_map sem_data_arquivo (arquivo s);
     blocos := blocos s; regioes_nulas := regioes_nulas s;
     notas_fiscais := map sem_data_nota (notas_fiscais s);
     lidas := lidas s; st_erros := st_erros s |}.

Definition sem_datas_resultado
           (r : resultado (PDVBackupAnalyzer * option ArquivoBackup))
  : resultado (PDVBackupAnalyzer * option ArquivoBackup) :=
  match r with
  | Ret (s, a) => Ret (sem_datas s, option_map sem_data_arquivo a)
  | Raise e => Raise e
  end.

(** Two results that are the same exception or two related values. *)
Definition rel_resultado {A B} (R : A -> B -> Prop)
           (r1 : resultado A) (r2 : resultado B) : Prop :=
  match r1, r2 with
  | Ret a, Ret b => R a b
  | Raise e1, Raise e2 => e1 = e2
  | _, _ => False
  end.

(** Two states of the scan that differ at most in the times of their
    records. *)
Definition mesma_varredura (s1 s2 : varredura) : Prop :=
  fst (fst s1) = fst (fst s2)
  /\ map sem_data_nota (snd (fst s1)) = map sem_data_nota (snd (fst s2))
  /\ snd s1 = snd s2.

(** ** The density map, as described *)

(** The four classes of a byte: null, control (below 32 and not null),
    printable ASCII (32 to 127) and other. *)
Inductive classe_byte := Nulo | Controle | Ascii | Outro.

Definition classe (v : Z) : classe_byte :=
  if v =? 0 then Nulo
  else if v <? 32 then Controle
  else if v <=? 127 then Ascii
  else Outro.

Definition classe_eqb (c d : classe_byte) : bool :=
  match c, d with
  | Nulo, Nulo | Controle, Controle | Ascii, Ascii | Outro, Outro => true
  | _, _ => false
  end.

(** How many bytes of [w] are of class [c]. *)
Fixpoint conta_classe (c : classe_byte) (w : bytes) : Z :=
  match w with
  | [] => 0
  | b :: r => (if classe_eqb (classe (valor b)) c then 1 else 0)
              + conta_classe c r
  end.

(** The row of the window [w] that starts at offset [off]: its bounds
    and, for each class, the share of its bytes in that class. *)
Definition linha_spec (off : Z) (w : bytes) : janela :=
  {| j_inicio := off; j_fim := off + len w - 1;
     densidade_nulos := (inject_Z (conta_classe Nulo w) / inject_Z (len w))%Q;
     densidade_controle :=
       (inject_Z (conta_classe Controle w) / inject_Z (len w))%Q;
     densidade_ascii := (inject_Z (conta_classe Ascii w) / inject_Z (len w))%Q;
     densidade_unicode :=
       (inject_Z (conta_classe Outro w) / inject_Z (len w))%Q |}.

(** The buffer cut into consecutive windows of [n] bytes, the last one
    holding what remains, one row per window in offset order. *)
Fixpoint janelas_spec (fuel n : nat) (off : Z) (dados : bytes) : list janela :=
  match fuel with
  | O => []
  | S f =>
    match dados with
    | [] => []
    | _ => linha_spec off (firstn n dados)
           :: janelas_spec f n (off + Z.of_nat n) (skipn n dados)
    end
  end.

Definition mapa_densidade_spec (dados : bytes) (tamanho_bloco : Z) : list janela :=
  janelas_spec (List.length dados) (Z.to_nat tamanho_bloco) 0 dados.

(** The four counts of the byte distribution of [carregar_arquivo],
    taken on a window. *)
Definition contagem_perfil (w : bytes) : contagem :=
  {| c_nulos := bytes_nulos w; c_controle := bytes_controle w;
     c_ascii := bytes_ascii w; c_unicode := bytes_unicode w |}.

(** ** Further properties: what they speak of *)

(** The bytes of [r] are null, the region is long enough and cannot be
    extended: the bytes next to it, where there are any, are not null. *)
Definition regiao_maximal (dados : bytes) (r : regiao) : Prop :=
  0 <= r_inicio r /\ r_fim r < len dados
  /\ tamanho_min <= r_tamanho r
  /\ r_tamanho r = r_fim r - r_inicio r + 1
  /\ (forall x, r_inicio r <= x <= r_fim r -> getitem dados x = Ret 0)
  /\ (0 < r_inicio r ->
      exists v, getitem dados (r_inicio r - 1) = Ret v /\ v <> 0)
  /\ (r_fim r + 1 < len dados ->
      exists v, getitem dados (r_fim r + 1) = Ret v /\ v <> 0).

(** Every run of at least [tamanho_min] null bytes that ends before
    offset [i] lies inside a region of [rs]. *)
Definition regioes_completas (dados : bytes) (i : Z) (rs : list regiao) : Prop :=
  forall a b,
    0 <= a -> a + tamanho_min - 1 <= b -> b < i ->
    (forall x, a <= x <= b -> getitem dados x = Ret 0) ->
    exists r, In r rs /\ r_inicio r <= a /\ b <= r_fim r.

(** What the scan keeps true of the region list, beyond the placement
    of the regions, when it has reached offset [i]. *)
Definition regioes_fortes (dados : bytes) (i : Z) (rs : list regiao) : Prop :=
  Forall (regiao_maximal dados) rs
  /\ regioes_completas dados i rs
  /\ (i = 0 \/ len dados <= i
      \/ exists v, getitem dados i = Ret v /\ v <> 0).

(** The bytes of the version tag, [dados[3:7]]. *)
Definition bytes_versao (dados : bytes) : bytes := slice dados 3 7.

(** The loop of [identificar_blocos] as a recursion over the regions:
    the blocks it appends, and where it leaves the cursor. *)
Fixpoint blocos_entre_regioes (dados : bytes) (p : Z) (rs : list regiao)
  : list BlocoEstrutura :=
  match rs with
  | [] => []
  | r :: rs' =>
    (if r_inicio r >? p then [bloco_antes dados p r] else [])
    ++ blocos_entre_regioes dados (r_fim r + 1) rs'
  end.

Fixpoint cursor_final (p : Z) (rs : list regiao) : Z :=
  match rs with
  | [] => p
  | r :: rs' => cursor_final (r_fim r + 1) rs'
  end.

(** Blocks that follow one another from offset [c] on, each non-empty,
    with at least [tamanho_min] bytes between one and the next. *)
Fixpoint blocos_separados (c : Z) (bl : list BlocoEstrutura) : Prop :=
  match bl with
  | [] => True
  | b :: bl' =>
    c <= posicao_inicio b /\ posicao_inicio b <= posicao_fim b
    /\ blocos_separados (posicao_fim b + 1 + tamanho_min) bl'
  end.

(** A hexadecimal digit back to its value, and a string of such digits
    back to the bytes it spells, two digits a byte. *)
Definition de_hexdig (c : Z) : Z := if c <? 58 then c - 48 else c - 87.

Fixpoint de_hex (s : str) : list Z :=
  match s with
  | c1 :: c2 :: s' => (16 * de_hexdig c1 + de_hexdig c2) :: de_hex s'
  | _ => []
  end.

Definition e_hexdig (c : Z) : bool :=
  ((48 <=? c) && (c <=? 57)) || ((97 <=? c) && (c <=? 102)).

(** Records whose positions rise strictly, from [lo] on and below [hi]. *)
Fixpoint notas_crescentes (lo hi : Z) (ns : list NotaFiscal) : Prop :=
  match ns with
  | [] => True
  | n :: ns' =>
    lo <= posicao_registro n < hi
    /\ notas_crescentes (posicao_registro n + 1) hi ns'
  end.

(** [b"HE31234567ABC123456789" + b"A"*20]: two overlapping candidates,
    at offsets 3 and 4, are both accepted. *)
Definition buffer_duas_notas : bytes :=
  b_lit "HE31234567ABC123456789" ++ repeat x41 20.

(** Rows whose windows follow one another from offset [off] up to
    [total]: each starts where the previous one ended, holds at least
    one and at most [w] bytes, and only the last may hold fewer. *)
Fixpoint janelas_contiguas (w off total : Z) (rows : list janela) : Prop :=
  match rows with
  | [] => off = total
  | j :: rest =>
    j_inicio j = off /\ off <= j_fim j /\ j_fim j < total
    /\ j_fim j - off + 1 <= w
    /\ (j_fim j + 1 < total -> j_fim j - off + 1 = w)
    /\ janelas_contiguas w (j_fim j + 1) total rest
  end.

(** ** [exportar_para_csv] *)

(** The rows of the four tables; a table is the list of its rows. *)
Record linha_arquivo := {
  la_nome_arquivo : str;
  la_tamanho_bytes : Z;
  la_assinatura : str;
  la_versao : str;
  la_percentual_bytes_nulos : Q;
  la_percentual_controle : Q;
  la_percentual_ascii : Q;
  la_percentual_unicode : Q;
  la_numero_blocos : Z;
  la_numero_regioes_nulas : Z
}.

Record linha_bloco := {
  lb_id : Z;
  lb_posicao_inicio : Z;
  lb_posicao_fim : Z;
  lb_tamanho : Z;
  lb_tipo : tipo_bloco;
  lb_contem_texto : bool;
  lb_contem_binario : bool;
  lb_assinatura_hex : str
}.

Record linha_nota := {
  ln_id : Z;
  ln_bloco_id : Z;
  ln_posicao : Z;
  ln_numero : str;
  ln_serie : str;
  ln_valor_total : Q;
  ln_valor_final : Q
}.

Record exportacao := {
  df_arquivo : list linha_arquivo;
  df_blocos : list linha_bloco;
  df_regioes : list regiao;
  df_notas : list linha_nota
}.

(** [enumerate(l)], counting from [k]. *)
Fixpoint enumerate {A} (k : Z) (l : list A) : list (Z * A) :=
  match l with
  | [] => []
  | x :: r => (k, x) :: enumerate (k + 1) r
  end.

Definition linha_do_bloco (ib : Z * BlocoEstrutura) : linha_bloco :=
  let '(i, b) := ib in
  {| lb_id := i; lb_posicao_inicio := posicao_inicio b;
     lb_posicao_fim := posicao_fim b; lb_tamanho := tamanho b;
     lb_tipo := tipo b; lb_contem_texto := contem_texto b;
     lb_contem_binario := contem_binario b;
     lb_assinatura_hex := assinatura_hex b |}.

Definition linha_da_nota (inn : Z * NotaFiscal) : linha_nota :=
  let '(i, n) := inn in
  {| ln_id := i; ln_bloco_id := bloco_id n;
     ln_posicao := posicao_registro n; ln_numero := numero n;
     ln_serie := serie n; ln_valor_total := valor_total n;
     ln_valor_final := valor_final n |}.

Definition exportar_para_csv (self : PDVBackupAnalyzer) : resultado exportacao :=
  match arquivo self with
  | None => Raise AttributeError        (* [self.arquivo.nome_arquivo] *)
  | Some a =>
    Ret {| df_arquivo :=
             [ {| la_nome_arquivo := nome_arquivo a;
                  la_tamanho_bytes := tamanho_bytes a;
                  la_assinatura := assinatura a;
                  la_versao := versao_formato a;
                  la_percentual_bytes_nulos := percentual_bytes_nulos a;
                  la_percentual_controle := percentual_controle a;
                  la_percentual_ascii := percentual_ascii a;
                  la_percentual_unicode := percentual_unicode a;
                  la_numero_blocos := numero_blocos a;
                  la_numero_regioes_nulas := numero_regioes_nulas a |} ];
           df_blocos := map linha_do_bloco (enumerate 0 (blocos self));
           df_regioes := regioes_nulas self;
           df_notas := map linha_da_nota (enumerate 0 (notas_fiscais self)) |}
  end.

(** ** The byte distribution chart of [main] *)






Definition nao_dados (b : BlocoEstrutura) : bool := negb (e_dados b).

(** [b"HE3" + b"A"*10 + b"\0"*20 + b"123456ABCX00012.50" + b"A"*10]: a
    header block, a null region and a final data block with one accepted
    candidate. *)
Definition buffer_cabecalho_nota : bytes :=
  b_lit "HE3" ++ repeat x41 10 ++ zeros 20
  ++ b_lit "123456ABCX00012.50" ++ repeat x41 10.


(** [row['tipo'] == "DADOS"] on a row of the block table. *)
Definition linha_de_dados (r : linha_bloco) : bool :=
  match lb_tipo r with DADOS => true | _ => false end.

(** * Properties *)

(** ** Reasoning about [while] *)

Section WhileRule.
Context {St : Type}.
Variable cond : St -> resultado bool.
Variable body : St -> resultado St.
Variable Inv : St -> Prop.
Variable medida : St -> nat.

Hypothesis cond_total : forall s, Inv s -> exists c, cond s = Ret c.
Hypothesis body_ok :
  forall s, Inv s -> cond s = Ret true ->
            exists s', body s = Ret s' /\ Inv s' /\ (medida s' < medida s)%nat.

(** A loop whose body keeps [Inv] and decreases [medida] finishes
    within [medida] iterations, in a state where [Inv] holds and the
    condition is false. *)
Lemma while_regra :
  forall fuel s, Inv s -> (medida s <= fuel)%nat ->
    exists s', while cond body fuel s = Ret s' /\ Inv s'
               /\ cond s' = Ret false.
Proof.
  induction fuel as [|f IH]; intros s Hs Hm.
  - destruct (cond_total s Hs) as [c Hc]. simpl. rewrite Hc. simpl.
    destruct c.
    + destruct (body_ok s Hs Hc) as (s' & _ & _ & Hlt). lia.
    + exists s. auto.
  - destruct (cond_total s Hs) as [c Hc]. simpl. rewrite Hc. simpl.
    destruct c.
    + destruct (body_ok s Hs Hc) as (s' & Hb & Hi & Hlt).
      rewrite Hb. simpl. apply IH; [assumption | lia].
    + exists s. auto.
Qed.
End WhileRule.

(** ** Byte distribution *)

(** C1, on the buffer [b"HE3\x00"]: the analysis accepts it and reports
    25% null, 25% control, 75% ASCII and -25% other, so that
    [null% + (control% - null%) + ascii% + other%] is 75 and not 100.
    The count of other bytes subtracts the null bytes twice, once on
    their own and once inside the control count. *)
Theorem C1_soma_percentuais_com_byte_nulo :
  forall agora nome,
  exists s a,
    analisar agora buffer_HE3_nulo nome = Ret (s, Some a)
    /\ (percentual_bytes_nulos a == 25)%Q
    /\ (percentual_controle a == 25)%Q
    /\ (percentual_ascii a == 75)%Q
    /\ (percentual_unicode a == -25)%Q
    /\ (soma_percentuais a == 75)%Q
    /\ ~ (soma_percentuais a == 100)%Q.
Proof.
  intros agora nome. eexists. eexists.
  split; [vm_compute; reflexivity|].
  repeat split; try (vm_compute; reflexivity).
  vm_compute. discriminate.
Qed.

(** ** The empty buffer *)

(** C7 as stated fails: the run on the empty buffer reports the
    signature failure, not [EmptyInput]. *)
Lemma C7_vazio_nao_relata_EmptyInput :
  ~ (erro_relatado (analisar relogio0 [] []) = Some EmptyInput).
Proof. vm_compute. discriminate. Qed.

(** C7, amended: on the zero-length buffer the run ends at the signature
    test: it returns [None], reports the missing-signature message (the
    same failure as for any buffer that does not start with the marker),
    stores no region, block or record, leaves the file record as its
    constructor made it and raises nothing: no percentage is computed
    and no division by zero takes place. *)
Theorem C7_vazio_falha_na_assinatura :
  forall agora nome,
  exists s,
    analisar agora [] nome = Ret (s, None)
    /\ erro_relatado (analisar agora [] nome) = Some InvalidSignature
    /\ st_erros s = [msg_sem_assinatura]
    /\ erro_relatado (analisar agora (b_lit "XYZ") nome)
       = erro_relatado (analisar agora [] nome)
    /\ blocos s = [] /\ regioes_nulas s = [] /\ notas_fiscais s = []
    /\ arquivo s = Some (ArquivoBackup_init agora nome 0 0).
Proof.
  intros agora nome. eexists.
  split; [vm_compute; reflexivity|].
  repeat split; vm_compute; reflexivity.
Qed.

(** ** The scenario buffer *)

(** C2 as stated fails: on the scenario buffer the analysis stores no
    invoice record (and classifies no block as data). *)
Lemma C2_cenario_sem_nota :
  ~ (exists s a, analisar relogio0 buffer_cenario [] = Ret (s, Some a)
                 /\ cenario_descrito s a).
Proof.
  intros (s & a & Hrun & _ & _ & _ & _ & (b & n & _ & _ & Hn & _) & _).
  vm_compute in Hrun. inversion Hrun; subst s. discriminate Hn.
Qed.

(** C2, amended: on the scenario buffer the analysis yields signature
    "HE3"; version "1.0" followed by the NUL byte (which [strip] keeps);
    a header block [0, 106] of length 107; a null region [107, 136] of
    length 30; a block [137, 153] of length 17 classified as definition
    (it starts before offset 1024); a trailing null region [154, 178] of
    length 25; and no invoice record. *)
Theorem C2_cenario :
  forall agora nome,
  exists s a,
    analisar agora buffer_cenario nome = Ret (s, Some a)
    /\ assinatura a = lit "HE3"
    /\ versao_formato a = lit "1.0" ++ [0]
    /\ map (fun b => (posicao_inicio b, posicao_fim b, tamanho b, tipo b))
           (blocos s)
       = [(0, 106, 107, CABECALHO); (137, 153, 17, DEFINICAO)]
    /\ regioes_nulas s
       = [ {| r_inicio := 107; r_fim := 136; r_tamanho := 30 |};
           {| r_inicio := 154; r_fim := 178; r_tamanho := 25 |} ]
    /\ notas_fiscais s = []
    /\ numero_blocos a = 2 /\ numero_regioes_nulas a = 2.
Proof.
  intros agora nome. eexists. eexists.
  split; [vm_compute; reflexivity|].
  repeat split; vm_compute; reflexivity.
Qed.

(** ** Indexing and slicing *)

Lemma len_nonneg {A} (l : list A) : 0 <= len l.
Proof. unfold len. lia. Qed.

Lemma len_app {A} (l l' : list A) : len (l ++ l') = len l + len l'.
Proof. unfold len. rewrite length_app. lia. Qed.

Lemma len_cons {A} (x : A) (l : list A) : len (x :: l) = 1 + len l.
Proof. unfold len. simpl List.length. lia. Qed.

Lemma getitem_dentro (dados : bytes) (i : Z) :
  0 <= i < len dados ->
  exists b, nth_error dados (Z.to_nat i) = Some b
            /\ getitem dados i = Ret (valor b).
Proof.
  intros Hi. unfold getitem.
  destruct (Z.ltb_spec i 0) as [|_]; [lia|].
  destruct (Z.leb_spec 0 i) as [_|]; [|lia].
  destruct (Z.ltb_spec i (len dados)) as [_|]; [|lia]. simpl.
  destruct (nth_error dados (Z.to_nat i)) as [b|] eqn:E.
  - exists b. auto.
  - apply nth_error_None in E. unfold len in Hi. lia.
Qed.

Lemma len_slice {A} (l : list A) (a b : Z) :
  0 <= a -> a <= b -> b <= len l -> len (slice l a b) = b - a.
Proof.
  intros Ha Hab Hb. unfold slice, len in *.
  rewrite length_firstn, length_skipn. lia.
Qed.

Lemma nth_error_slice {A} (l : list A) (a b : Z) (j : nat) :
  0 <= a -> (Z.of_nat j < b - a) ->
  nth_error (slice l a b) j = nth_error l (Z.to_nat a + j).
Proof.
  intros Ha Hj. unfold slice.
  rewrite nth_error_firstn.
  destruct (Nat.ltb_spec j (Z.to_nat (b - a))) as [_|]; [|lia].
  apply nth_error_skipn.
Qed.

(** ** Null regions *)

Section Regioes.
Variable dados : bytes.

(** The inner loops: starting inside the buffer, [avanca] stops at the
    first offset whose byte fails [p], or at the end. *)
Lemma avanca_ok (p : Z -> bool) (fuel : nat) (i : Z) :
  0 <= i <= len dados -> (List.length dados <= fuel)%nat ->
  exists i',
    avanca p dados fuel i = Ret i'
    /\ i <= i' <= len dados
    /\ (forall j, i <= j < i' ->
                  exists v, getitem dados j = Ret v /\ p v = true)
    /\ (i' < len dados ->
        exists v, getitem dados i' = Ret v /\ p v = false).
Proof.
  intros Hi Hf. unfold avanca.
  destruct (while_regra
    (fun i => if i <? len dados
              then v <- getitem dados i ;; Ret (p v) else Ret false)
    (fun i => Ret (i + 1))
    (fun i' => i <= i' <= len dados
               /\ forall j, i <= j < i' ->
                            exists v, getitem dados j = Ret v /\ p v = true)
    (fun i' => Z.to_nat (len dados - i'))) with (fuel := fuel) (s := i)
    as (i' & Hw & (Hr & Hall) & Hc).
  - intros s [Hs _]. destruct (Z.ltb_spec s (len dados)).
    + destruct (getitem_dentro dados s) as (b & _ & Hg); [lia|].
      rewrite Hg. simpl. eauto.
    + eauto.
  - intros s [Hs Hall] Hc. exists (s + 1). split; [reflexivity|].
    destruct (Z.ltb_spec s (len dados)); [|discriminate].
    destruct (getitem_dentro dados s) as (b & _ & Hg); [lia|].
    rewrite Hg in Hc. simpl in Hc. injection Hc as Hp.
    split; [split; [lia|]|lia].
    intros j Hj. destruct (Z.eq_dec j s) as [->|].
    + eauto.
    + apply Hall. lia.
  - split; [lia|]. intros j Hj. lia.
  - unfold len in *. lia.
  - exists i'. repeat split; try assumption; try lia.
    intros Hlt. destruct (Z.ltb_spec i' (len dados)); [|lia].
    destruct (getitem_dentro dados i') as (b & _ & Hg); [lia|].
    rewrite Hg in Hc. simpl in Hc. injection Hc as Hp. eauto.
Qed.
End Regioes.

Lemma encadeadas_fim (c c' c'' : Z) (rs : list regiao) :
  encadeadas c c' rs -> c' <= c'' -> encadeadas c c'' rs.
Proof.
  revert c. induction rs as [|r rs IH]; simpl; intros c H Hle; [lia|].
  destruct H as (H1 & H2 & H3 & H4). repeat split; auto.
Qed.

Lemma encadeadas_le (c c' : Z) (rs : list regiao) :
  encadeadas c c' rs -> c <= c'.
Proof.
  revert c. induction rs as [|r rs IH]; simpl; intros c H; [lia|].
  destruct H as (H1 & H2 & H3 & H4). apply IH in H4. lia.
Qed.

Lemma encadeadas_snoc (c c' : Z) (rs : list regiao) (r : regiao) :
  encadeadas c c' rs -> c' <= r_inicio r -> r_inicio r <= r_fim r ->
  r_tamanho r = r_fim r - r_inicio r + 1 ->
  encadeadas c (r_fim r + 1) (rs ++ [r]).
Proof.
  revert c. induction rs as [|x rs IH]; simpl; intros c H H1 H2 H3.
  - repeat split; try lia.
  - destruct H as (Ha & Hb & Hc & Hd). repeat split; auto.
Qed.

Lemma encadeadas_inicio (c c' : Z) (rs : list regiao) (r : regiao) :
  encadeadas c c' rs -> In r rs ->
  c <= r_inicio r /\ r_inicio r <= r_fim r /\ r_fim r < c'
  /\ r_tamanho r = r_fim r - r_inicio r + 1.
Proof.
  revert c. induction rs as [|x rs IH]; simpl; intros c H Hin; [tauto|].
  destruct H as (Ha & Hb & Hc & Hd). destruct Hin as [->|Hin].
  - apply encadeadas_le in Hd. lia.
  - destruct (IH _ Hd Hin) as (? & ? & ? & ?). lia.
Qed.

Section Mapear.
Variable dados : bytes.

Lemma mapear_passo_ok (fuel : nat) (i : Z) (rs : list regiao) :
  (List.length dados <= fuel)%nat -> i < len dados ->
  regioes_ate dados i rs ->
  exists i2 rs',
    mapear_passo dados fuel (i, rs) = Ret (i2, rs')
    /\ i < i2 /\ regioes_ate dados i2 rs'.
Proof.
  intros Hf Hlt (Hi & Hch & Hall). unfold mapear_passo.
  destruct (avanca_ok dados nao_nulo fuel i) as (i1 & E1 & R1 & A1 & S1);
    [lia|assumption|].
  rewrite E1. simpl.
  destruct (avanca_ok dados nulo fuel i1) as (i2 & E2 & R2 & A2 & S2);
    [lia|assumption|].
  rewrite E2. simpl.
  assert (Hprog : i < i2).
  { destruct (Z.eq_dec i2 i) as [->|]; [|lia]. exfalso.
    assert (i1 = i) by lia. subst i1.
    destruct (S1 Hlt) as (v & Hv & Hp).
    destruct (S2 Hlt) as (v' & Hv' & Hp').
    rewrite Hv in Hv'. injection Hv' as <-.
    unfold nao_nulo, nulo in *. destruct (v =? 0); discriminate. }
  eexists. eexists. split; [reflexivity|]. split; [assumption|].
  unfold regioes_ate.
  destruct (Z.geb_spec (i2 - 1 - i1 + 1) tamanho_min) as [Hge|Hsmall].
  - split; [lia|]. split.
    + pose proof (encadeadas_snoc 0 i rs
                    {| r_inicio := i1; r_fim := i2 - 1;
                       r_tamanho := i2 - 1 - i1 + 1 |} Hch) as Hs.
      simpl in Hs. replace (i2 - 1 + 1) with i2 in Hs by lia.
      unfold tamanho_min in Hge. apply Hs; lia.
    + apply Forall_app. split; [assumption|].
      constructor; [|constructor]. simpl. split; [lia|].
      destruct (A2 i1) as (v & Hv & Hp).
      { unfold tamanho_min in Hge. lia. }
      unfold nulo in Hp. apply Z.eqb_eq in Hp. subst v. exact Hv.
  - split; [lia|]. split; [|assumption].
    apply encadeadas_fim with (c' := i); [assumption|lia].
Qed.

(** The scan finishes within [len dados] iterations. *)
Lemma mapear_laco_ok (rs : list regiao) :
  regioes_ate dados 0 rs ->
  exists i rs',
    mapear_laco dados (List.length dados) rs = Ret (i, rs')
    /\ regioes_ate dados (len dados) rs'.
Proof.
  intros H0. unfold mapear_laco.
  destruct (while_regra
    (fun s : Z * list regiao => Ret (fst s <? len dados))
    (mapear_passo dados (List.length dados))
    (fun s => regioes_ate dados (fst s) (snd s))
    (fun s => Z.to_nat (len dados - fst s)))
    with (fuel := List.length dados) (s := (0, rs))
    as ([i rs'] & Hw & Hinv & Hc).
  - intros s _. eauto.
  - intros [i r] Hinv Hc. simpl in *. injection Hc as Hc.
    apply Z.ltb_lt in Hc.
    destruct (mapear_passo_ok (List.length dados) i r)
      as (i2 & rs' & E & Hp & Hinv'); auto.
    exists (i2, rs'). simpl. split; [assumption|]. split; [assumption|].
    destruct Hinv' as (? & _). lia.
  - exact H0.
  - simpl. unfold len. lia.
  - exists i, rs'. split; [assumption|]. simpl in *.
    injection Hc as Hc. apply Z.ltb_ge in Hc.
    destruct Hinv as (Hi & Hch & Hall). assert (i = len dados) by lia.
    subst i. repeat split; auto; lia.
Qed.
End Mapear.

(** ** Blocks *)

Lemma sorted_inicio_encadeadas (c c' : Z) (rs : list regiao) :
  encadeadas c c' rs -> sorted_inicio rs = rs.
Proof.
  revert c. induction rs as [|r rs IH]; intros c H; [reflexivity|].
  simpl in H. destruct H as (Ha & Hb & Hc & Hd).
  unfold sorted_inicio in *. simpl. rewrite (IH _ Hd).
  destruct rs as [|x rs]; [reflexivity|]. simpl.
  simpl in Hd. destruct Hd as (Hx & _).
  destruct (Z.leb_spec (r_inicio r) (r_inicio x)); [reflexivity|lia].
Qed.

Lemma cobertura_cons_bloco b bl rs x :
  cobertura (b :: bl) rs x
  = ((if cobre_bloco x b then 1 else 0) + cobertura bl rs x)%nat.
Proof. unfold cobertura. simpl. destruct (cobre_bloco x b); simpl; lia. Qed.

Lemma cobertura_cons_regiao r bl rs x :
  cobertura bl (r :: rs) x
  = ((if cobre_regiao x r then 1 else 0) + cobertura bl rs x)%nat.
Proof. unfold cobertura. simpl. destruct (cobre_regiao x r); simpl; lia. Qed.

Lemma cobertura_app_bloco bl bl' rs x :
  cobertura (bl ++ bl') rs x
  = (List.length (filter (cobre_bloco x) bl) + cobertura bl' rs x)%nat.
Proof. unfold cobertura. rewrite filter_app, length_app. lia. Qed.

Lemma bloco_entre_mais (p p0 p' : Z) (r : regiao) (rs : list regiao) b :
  bloco_entre p p' rs b -> p0 <= p -> bloco_entre p0 p' (r :: rs) b.
Proof.
  intros (H1 & H2 & H3 & H4 & (r' & Hin & Hr) & H6) Hle.
  repeat split; auto; try lia. exists r'. split; [right|]; auto.
Qed.

Section Blocos.
Variable dados : bytes.

Lemma bloco_antes_entre (p : Z) (r : regiao) (rs : list regiao) :
  p < r_inicio r -> r_inicio r <= r_fim r ->
  bloco_entre p (r_fim r + 1) (r :: rs) (bloco_antes dados p r)
  /\ posicao_inicio (bloco_antes dados p r) = p
  /\ posicao_fim (bloco_antes dados p r) = r_inicio r - 1.
Proof.
  intros H1 H2. unfold bloco_entre, bloco_antes, tipo_por_inicio.
  destruct (p =? 0) eqn:E; simpl; rewrite ?E; repeat split; try lia;
    exists r; (split; [left; reflexivity|lia]).
Qed.

(** The loop over the regions: the blocks it adds and the regions it
    walks cover every offset between the first and the last position
    of the cursor exactly once, and nothing else. *)
Lemma blocos_laco (c' : Z) (rs : list regiao) :
  forall p bl,
    encadeadas p c' rs ->
    exists novos p',
      fold_left (blocos_passo dados) rs (p, bl) = (p', bl ++ novos)
      /\ p <= p' <= c'
      /\ (forall x, cobertura novos rs x
                    = if (p <=? x) && (x <? p') then 1%nat else 0%nat)
      /\ Forall (bloco_entre p p' rs) novos
      /\ match rs with
         | [] => novos = [] /\ p' = p
         | r :: _ =>
           p < r_inicio r ->
           exists resto, novos = bloco_antes dados p r :: resto
         end.
Proof.
  induction rs as [|r rs IH]; intros p bl H.
  - simpl in H. exists [], p. simpl. rewrite app_nil_r.
    repeat split; auto; try lia.
    intros x. unfold cobertura. simpl.
    destruct (Z.leb_spec p x), (Z.ltb_spec x p); simpl; auto; lia.
  - simpl in H. destruct H as (Ha & Hb & Hc & Hd).
    assert (Est : blocos_passo dados (p, bl) r
                  = (r_fim r + 1,
                     if r_inicio r >? p
                     then bl ++ [bloco_antes dados p r] else bl))
      by reflexivity.
    cbn [fold_left]. rewrite Est. clear Est.
    destruct (Z.gtb_spec (r_inicio r) p) as [Hgt|Hle].
    + destruct (IH (r_fim r + 1) (bl ++ [bloco_antes dados p r]) Hd)
        as (novos & p' & E & Hp & Hcob & Hall & Hhd).
      destruct (bloco_antes_entre p r rs) as (Hbe & Hbi & Hbf); [lia..|].
      exists (bloco_antes dados p r :: novos), p'.
      split; [rewrite E, <- app_assoc; reflexivity|].
      split; [lia|]. split; [|split].
      * intros x. rewrite cobertura_cons_bloco, cobertura_cons_regiao, Hcob.
        unfold cobre_bloco, cobre_regiao. rewrite Hbi, Hbf.
        destruct (Z.leb_spec p x), (Z.leb_spec x (r_inicio r - 1)),
          (Z.leb_spec (r_inicio r) x), (Z.leb_spec x (r_fim r)),
          (Z.leb_spec (r_fim r + 1) x), (Z.ltb_spec x p'); simpl; lia.
      * constructor.
        -- destruct Hbe as (B1 & B2 & B3 & B4 & B5 & B6).
           repeat split; auto; lia.
        -- eapply Forall_impl; [|exact Hall].
           intros b Hb'. eapply bloco_entre_mais; [exact Hb'|lia].
      * intros _. eauto.
    + destruct (IH (r_fim r + 1) bl Hd)
        as (novos & p' & E & Hp & Hcob & Hall & Hhd).
      exists novos, p'. split; [exact E|]. split; [lia|]. split; [|split].
      * intros x. rewrite cobertura_cons_regiao, Hcob.
        unfold cobre_regiao.
        destruct (Z.leb_spec p x), (Z.leb_spec (r_inicio r) x),
          (Z.leb_spec x (r_fim r)),
          (Z.leb_spec (r_fim r + 1) x), (Z.ltb_spec x p'); simpl; lia.
      * eapply Forall_impl; [|exact Hall].
        intros b Hb'. eapply bloco_entre_mais; [exact Hb'|lia].
      * intros Hlt. lia.
Qed.
End Blocos.

Section BlocosDe.
Variable dados : bytes.

Lemma blocos_de_ok (rs : list regiao) :
  encadeadas 0 (len dados) rs ->
  (forall x, cobertura (blocos_de dados rs []) rs x
             = if (0 <=? x) && (x <? len dados) then 1%nat else 0%nat)
  /\ Forall (bloco_valido dados rs) (blocos_de dados rs [])
  /\ match rs with
     | [] => blocos_de dados rs []
             = if 0 <? len dados then [bloco_final dados 0] else []
     | r :: _ =>
       0 < r_inicio r ->
       exists resto, blocos_de dados rs [] = bloco_antes dados 0 r :: resto
     end.
Proof.
  intros H. unfold blocos_de.
  rewrite (sorted_inicio_encadeadas _ _ _ H).
  destruct (blocos_laco dados (len dados) rs 0 [] H)
    as (novos & p' & E & Hp & Hcob & Hall & Hhd).
  rewrite E. simpl app.
  assert (Hval : Forall (bloco_valido dados rs) novos).
  { eapply Forall_impl; [|exact Hall].
    intros b (B1 & B2 & B3 & B4 & (r & Hin & Hr) & B6).
    destruct (encadeadas_inicio _ _ _ _ H Hin) as (R1 & R2 & R3 & R4).
    unfold bloco_valido. repeat split; try lia.
    right. repeat split; try lia; eauto. }
  destruct (Z.ltb_spec p' (len dados)) as [Hlt|Hge].
  - split; [|split].
    + intros x. rewrite cobertura_app_bloco.
      rewrite cobertura_cons_bloco.
      assert (Hn : cobertura novos rs x
                   = (List.length (filter (cobre_bloco x) novos)
                      + cobertura [] rs x)%nat) by reflexivity.
      rewrite Hcob in Hn.
      set (k := List.length (filter (cobre_bloco x) novos)) in *.
      set (m := cobertura [] rs x) in *.
      unfold cobre_bloco, bloco_final. simpl.
      destruct (Z.leb_spec 0 x), (Z.ltb_spec x p'), (Z.leb_spec p' x),
        (Z.leb_spec x (len dados - 1)), (Z.ltb_spec x (len dados));
        simpl in *; lia.
    + apply Forall_app. split; [assumption|].
      constructor; [|constructor].
      unfold bloco_valido, bloco_final. simpl.
      repeat split; try lia. left. split; [lia|reflexivity].
    + destruct rs as [|r rs'].
      * destruct Hhd as [-> ->]. simpl.
        destruct (Z.ltb_spec 0 (len dados)); [reflexivity|lia].
      * intros Hr. destruct (Hhd Hr) as (resto & ->).
        eexists. simpl. reflexivity.
  - assert (p' = len dados) by lia. subst p'.
    split; [|split].
    + intros x. rewrite Hcob. reflexivity.
    + assumption.
    + destruct rs as [|r rs'].
      * destruct Hhd as [-> Hp0]. simpl.
        destruct (Z.ltb_spec 0 (len dados)); [lia|reflexivity].
      * exact Hhd.
Qed.
End BlocosDe.

(** ** The run as a whole *)

Lemma percentual_ret (n total : Z) :
  total <> 0 -> percentual n total = Ret (inject_Z n / inject_Z total * 100)%Q.
Proof.
  intros H. unfold percentual, truediv.
  destruct (Z.eqb_spec total 0); [contradiction|reflexivity].
Qed.

Lemma assinatura_ok_len (dados : bytes) :
  assinatura_ok dados = true -> 3 <= len dados.
Proof.
  unfold assinatura_ok. intros H. apply andb_true_iff in H.
  destruct H as [H _]. apply Z.geb_le in H. exact H.
Qed.

(** The parts of a successful run: the regions found by the scan, the
    blocks cut along them, and the records extracted from the data
    blocks. *)
Lemma analisar_partes (agora : nat -> Z) (dados : bytes) (nome : str) s a :
  analisar agora dados nome = Ret (s, Some a) ->
  assinatura_ok dados = true
  /\ arquivo s = Some a
  /\ regioes_ate dados (len dados) (regioes_nulas s)
  /\ blocos s = blocos_de dados (regioes_nulas s) []
  /\ notas_dos_blocos agora dados 0 (filter e_dados (blocos s)) [] 1
     = Ret (notas_fiscais s, lidas s)
  /\ numero_blocos a = len (blocos s)
  /\ numero_regioes_nulas a = len (regioes_nulas s)
  /\ tamanho_bytes a = len dados
  /\ percentual_bytes_nulos a
     = (inject_Z (bytes_nulos dados) / inject_Z (len dados) * 100)%Q
  /\ percentual_controle a
     = (inject_Z (bytes_controle dados) / inject_Z (len dados) * 100)%Q
  /\ percentual_ascii a
     = (inject_Z (bytes_ascii dados) / inject_Z (len dados) * 100)%Q
  /\ percentual_unicode a
     = (inject_Z (bytes_unicode dados) / inject_Z (len dados) * 100)%Q.
Proof.
  unfold analisar, carregar_arquivo. intros H.
  destruct (assinatura_ok dados) eqn:Hsig; [|discriminate].
  pose proof (assinatura_ok_len dados Hsig) as Hlen.
  rewrite !percentual_ret in H by lia. simpl bind in H.
  unfold mapear_regioes_nulas in H. simpl regioes_nulas in H.
  destruct (mapear_laco_ok dados []) as (i & rs & E & Hrs).
  { unfold regioes_ate. simpl. split; [|split]; [|lia|constructor].
    pose proof (len_nonneg dados). lia. }
  rewrite E in H. simpl in H.
  unfold extrair_notas_fiscais in H. simpl in H.
  destruct (notas_dos_blocos agora dados 0
              (filter e_dados (blocos_de dados rs [])) [] 1)
    as [[notas n]|e] eqn:En; simpl in H; [|discriminate].
  injection H as <- <-. simpl.
  split; [reflexivity|]. split; [reflexivity|]. split; [exact Hrs|].
  repeat split; auto.
Qed.

(** For every accepted buffer the four percentages add up to 100 minus
    the percentage of null bytes: the sum is 100 only when the buffer
    has no null byte. *)
Lemma soma_percentuais_geral (agora : nat -> Z) (dados : bytes)
      (nome : str) s a :
  analisar agora dados nome = Ret (s, Some a) ->
  (soma_percentuais a == 100 - percentual_bytes_nulos a)%Q.
Proof.
  intros H. destruct (analisar_partes _ _ _ _ _ H)
    as (Hsig & _ & _ & _ & _ & _ & _ & _ & P1 & P2 & P3 & P4).
  pose proof (assinatura_ok_len dados Hsig) as Hlen.
  unfold soma_percentuais. rewrite P1, P2, P3, P4. unfold bytes_unicode.
  unfold Z.sub. rewrite !inject_Z_plus, !inject_Z_opp.
  assert (Hnz : ~ (inject_Z (len dados) == 0)%Q).
  { unfold Qeq. simpl. lia. }
  field. exact Hnz.
Qed.

(** *** Tiling *)

(** C5: after a successful run, every offset of the buffer belongs to
    exactly one block or null region (and no offset outside the buffer
    belongs to any), and every block is non-empty and records its own
    length. *)
Theorem C5_blocos_e_regioes_cobrem (agora : nat -> Z) (dados : bytes)
        (nome : str) s a :
  analisar agora dados nome = Ret (s, Some a) ->
  (forall x, 0 <= x < len dados ->
             cobertura (blocos s) (regioes_nulas s) x = 1%nat)
  /\ (forall x, x < 0 \/ len dados <= x ->
                cobertura (blocos s) (regioes_nulas s) x = 0%nat)
  /\ (forall b, In b (blocos s) ->
                1 <= tamanho b
                /\ tamanho b = posicao_fim b - posicao_inicio b + 1
                /\ 0 <= posicao_inicio b /\ posicao_fim b < len dados)
  /\ 0 < len dados.
Proof.
  intros H. destruct (analisar_partes _ _ _ _ _ H)
    as (Hsig & _ & (_ & Hch & _) & Hbl & _).
  destruct (blocos_de_ok dados _ Hch) as (Hcob & Hval & _).
  rewrite <- Hbl in Hcob, Hval.
  split; [|split; [|split]].
  - intros x Hx. rewrite Hcob.
    destruct (Z.leb_spec 0 x), (Z.ltb_spec x (len dados)); simpl; auto; lia.
  - intros x Hx. rewrite Hcob.
    destruct (Z.leb_spec 0 x), (Z.ltb_spec x (len dados)); simpl; auto; lia.
  - intros b Hb. rewrite Forall_forall in Hval.
    destruct (Hval b Hb) as (B1 & B2 & B3 & B4 & _). lia.
  - apply assinatura_ok_len in Hsig. lia.
Qed.

Lemma C5_blocos_e_regioes_cobrem_witness :
  exists s a,
    analisar relogio0 buffer_cenario [] = Ret (s, Some a)
    /\ (forall x, 0 <= x < len buffer_cenario ->
                  cobertura (blocos s) (regioes_nulas s) x = 1%nat).
Proof.
  eexists. eexists. split; [vm_compute; reflexivity|].
  eapply (C5_blocos_e_regioes_cobrem relogio0 buffer_cenario []).
  vm_compute. reflexivity.
Defined.

(** *** Kinds *)

(** C4 as stated fails: on [buffer_longo] the block [23, 1122] starts
    after offset 0 and does not lie wholly before offset 1024, yet it is
    a definition block. *)
Lemma C4_bloco_longo_e_definicao :
  exists s a b,
    analisar relogio0 buffer_longo [] = Ret (s, Some a)
    /\ In b (blocos s)
    /\ posicao_inicio b = 23 /\ posicao_fim b = 1122
    /\ tipo b = DEFINICAO /\ tipo_descrito b = DADOS.
Proof.
  eexists. eexists. eexists. split; [vm_compute; reflexivity|].
  split; [right; left; reflexivity|]. vm_compute. auto.
Qed.

(** C4, amended: the kind goes by where the block starts.  A block that
    is followed by a null region (every block but the final one) ends
    right before a recorded region and is the header if it starts at
    offset 0, a definition if it starts at an offset in (0, 1024),
    whatever its end, and data if it starts at offset 1024 or later.
    The final block (the one that ends with the buffer), when it starts
    after offset 0, is data. *)
Theorem C4_tipo_por_posicao (agora : nat -> Z) (dados : bytes)
        (nome : str) s a :
  analisar agora dados nome = Ret (s, Some a) ->
  forall b, In b (blocos s) ->
    posicao_fim b <= len dados - 1
    /\ (posicao_fim b < len dados - 1 ->
        (exists r, In r (regioes_nulas s)
                   /\ r_inicio r = posicao_fim b + 1)
        /\ tipo b = (if posicao_inicio b =? 0 then CABECALHO
                     else if posicao_inicio b <? 1024 then DEFINICAO
                          else DADOS))
    /\ (posicao_fim b = len dados - 1 -> 0 < posicao_inicio b ->
        tipo b = DADOS).
Proof.
  intros H b Hb. destruct (analisar_partes _ _ _ _ _ H)
    as (_ & _ & (_ & Hch & _) & Hbl & _).
  destruct (blocos_de_ok dados _ Hch) as (_ & Hval & _).
  rewrite <- Hbl in Hval. rewrite Forall_forall in Hval.
  destruct (Hval b Hb) as (_ & _ & Hf & _ & [[Hk Ht]|(Hk & Hr & Ht)]).
  - split; [lia|]. split; [lia|]. auto.
  - split; [lia|]. split; [auto|lia].
Qed.

Lemma C4_tipo_por_posicao_witness :
  exists s a b,
    analisar relogio0 buffer_longo [] = Ret (s, Some a)
    /\ nth_error (blocos s) 1 = Some b
    /\ posicao_fim b <= len buffer_longo - 1
    /\ (posicao_fim b < len buffer_longo - 1 ->
        (exists r, In r (regioes_nulas s)
                   /\ r_inicio r = posicao_fim b + 1)
        /\ tipo b = (if posicao_inicio b =? 0 then CABECALHO
                     else if posicao_inicio b <? 1024 then DEFINICAO
                          else DADOS))
    /\ (posicao_fim b = len buffer_longo - 1 -> 0 < posicao_inicio b ->
        tipo b = DADOS).
Proof.
  eexists. eexists. eexists. split; [vm_compute; reflexivity|].
  split; [reflexivity|].
  eapply (C4_tipo_por_posicao relogio0 buffer_longo []).
  - vm_compute. reflexivity.
  - right. left. reflexivity.
Defined.

(** ** The signature *)

Ltac abre_decode :=
  repeat match goal with
         | |- context [if ?c then _ else _] => destruct c
         | |- context [match ?l with [] => _ | _ :: _ => _ end] =>
           is_var l; destruct l
         end.

(** Decoding never yields more characters than there are bytes. *)
Lemma decode_ignore_len (n : nat) :
  forall l, (List.length l <= n)%nat ->
            (List.length (decode_ignore l) <= List.length l)%nat.
Proof.
  induction n as [|n IH]; intros l Hl.
  - destruct l; [simpl; lia|simpl in Hl; lia].
  - destruct l as [|b0 r0]; [simpl; lia|].
    simpl in Hl. cbn [decode_ignore]. cbv zeta.
    abre_decode; cbn [List.length] in *;
      repeat match goal with
             | |- context [decode_ignore ?x] =>
               lazymatch goal with
               | _ : (List.length (decode_ignore x) <= _)%nat |- _ => fail
               | _ => let H := fresh in
                      assert (H : (List.length (decode_ignore x)
                                   <= List.length x)%nat)
                        by (apply IH; cbn [List.length]; lia);
                      cbn [List.length] in H
               end
             end; lia.
Qed.

(** A first byte outside ASCII yields, with what follows it, fewer
    characters than there are bytes. *)
Lemma decode_ignore_nao_ascii (b0 : byte) (r0 : bytes) :
  128 <= valor b0 ->
  (List.length (decode_ignore (b0 :: r0)) <= List.length r0)%nat.
Proof.
  intros Hv. cbn [decode_ignore]. cbv zeta.
  destruct (Z.ltb_spec (valor b0) 128); [lia|].
  abre_decode; cbn [List.length] in *;
    repeat match goal with
           | |- context [decode_ignore ?x] =>
             lazymatch goal with
             | _ : (List.length (decode_ignore x) <= _)%nat |- _ => fail
             | _ => let H := fresh in
                    pose proof (decode_ignore_len (List.length x) x
                                                  (Nat.le_refl _)) as H;
                    cbn [List.length] in H
             end
           end; lia.
Qed.

(** A buffer that passes the signature test starts with the byte "H". *)
Lemma assinatura_ok_primeiro (dados : bytes) :
  assinatura_ok dados = true -> getitem dados 0 = Ret 72.
Proof.
  intros H. pose proof (assinatura_ok_len dados H) as Hlen.
  unfold assinatura_ok in H. apply andb_true_iff in H. destruct H as [_ H].
  unfold str_eqb in H.
  destruct (list_eq_dec Z.eq_dec (decode_ignore (slice dados 0 3)) (lit "HE3"))
    as [E|]; [|discriminate].
  destruct dados as [|b0 [|b1 [|b2 r]]];
    try (unfold len in Hlen; simpl in Hlen; lia).
  change (slice (b0 :: b1 :: b2 :: r) 0 3) with [b0; b1; b2] in E.
  destruct (Z.ltb_spec (valor b0) 128) as [Hlt|Hge].
  - cbn [decode_ignore] in E. cbv zeta in E.
    destruct (Z.ltb_spec (valor b0) 128); [|lia].
    injection E as E _. unfold getitem. simpl. rewrite E. reflexivity.
  - pose proof (decode_ignore_nao_ascii b0 [b1; b2] Hge) as Hn.
    rewrite E in Hn. simpl in Hn. lia.
Qed.

(** C3, on the buffer [b"HE3"]: the analysis accepts it, records no
    null region and emits a single block, [0, 2]; this first block is a
    data block and not the header.  The loop over the regions gives the
    block that starts at offset 0 the header kind; the final block after
    the loop is given the data kind without that test. *)
Theorem C3_primeiro_bloco_dados :
  forall agora nome,
  exists s a b,
    analisar agora buffer_HE3 nome = Ret (s, Some a)
    /\ regioes_nulas s = []
    /\ blocos s = [b]
    /\ posicao_inicio b = 0 /\ posicao_fim b = 2
    /\ tipo b = DADOS /\ tipo b <> CABECALHO.
Proof.
  intros agora nome. eexists. eexists. eexists.
  split; [vm_compute; reflexivity|].
  repeat split; try reflexivity. vm_compute. discriminate.
Qed.

(** Where the first block is the header and where it is not: after a
    successful run that records at least one null region, the first
    block starts at offset 0 and is the header; after a successful run
    that records none, the only block is the final block, which covers
    the whole buffer and is a data block. *)
Lemma primeiro_bloco (agora : nat -> Z) (dados : bytes) (nome : str) s a :
  analisar agora dados nome = Ret (s, Some a) ->
  (regioes_nulas s <> [] ->
   exists b resto, blocos s = b :: resto
                   /\ posicao_inicio b = 0 /\ tipo b = CABECALHO)
  /\ (regioes_nulas s = [] ->
      exists b, blocos s = [b]
                /\ posicao_inicio b = 0 /\ posicao_fim b = len dados - 1
                /\ tipo b = DADOS).
Proof.
  intros H. destruct (analisar_partes _ _ _ _ _ H)
    as (Hsig & _ & (_ & Hch & Hall) & Hbl & _).
  destruct (blocos_de_ok dados _ Hch) as (_ & _ & Hhd).
  rewrite <- Hbl in Hhd.
  destruct (regioes_nulas s) as [|r rs] eqn:Ers.
  - split; [intros Hne; contradiction|]. intros _.
    pose proof (assinatura_ok_len dados Hsig) as Hlen.
    destruct (Z.ltb_spec 0 (len dados)); [|lia].
    exists (bloco_final dados 0). rewrite Hhd. simpl. auto.
  - split; [|discriminate]. intros _.
    assert (Hr : 0 < r_inicio r).
    { inversion Hall as [|? ? [_ Hz] _]; subst.
      simpl in Hch. destruct Hch as (Hge & _).
      destruct (Z.eq_dec (r_inicio r) 0) as [E0|]; [|lia].
      rewrite E0, (assinatura_ok_primeiro dados Hsig) in Hz. discriminate. }
    destruct (Hhd Hr) as (resto & E).
    exists (bloco_antes dados 0 r), resto. rewrite E. auto.
Qed.

(** ** Strings of the invoice scan *)

Lemma e_digito_nao_espaco (c : Z) : e_digito c = true -> isspace c = false.
Proof.
  unfold e_digito, isspace. intros H. apply andb_true_iff in H.
  destruct H as [H1 H2]. apply Z.leb_le in H1. apply Z.leb_le in H2.
  repeat match goal with
         | |- context [?a <=? ?b] => destruct (Z.leb_spec a b); try lia
         | |- context [?a =? ?b] => destruct (Z.eqb_spec a b); try lia
         end; reflexivity.
Qed.

Lemma lstrip_digitos (s : str) :
  forallb e_digito s = true -> lstrip s = s.
Proof.
  destruct s as [|c s]; [reflexivity|]. simpl. intros H.
  apply andb_true_iff in H. destruct H as [H _].
  rewrite (e_digito_nao_espaco c H). reflexivity.
Qed.

Lemma forallb_rev {A} (f : A -> bool) (l : list A) :
  forallb f l = true -> forallb f (rev l) = true.
Proof.
  rewrite !forallb_forall. intros H x Hx. apply H. apply in_rev. exact Hx.
Qed.

(** [strip] leaves a string of digits as it is. *)
Lemma strip_digitos (s : str) : forallb e_digito s = true -> strip s = s.
Proof.
  intros H. unfold strip. rewrite (lstrip_digitos s H).
  rewrite (lstrip_digitos (rev s) (forallb_rev _ _ H)). apply rev_involutive.
Qed.

Lemma isdigit_digitos (s : str) :
  s <> [] -> forallb e_digito s = true -> isdigit s = true.
Proof.
  intros Hne H. destruct s as [|c s]; [contradiction|].
  unfold isdigit. rewrite forallb_forall in *. intros x Hx.
  specialize (H x Hx). unfold isdigit_char, e_digito in *. rewrite H.
  reflexivity.
Qed.

Lemma Qpos_iff (q : Q) : Qpos q = true <-> (0 < q)%Q.
Proof.
  unfold Qpos, Qlt. simpl. rewrite Z.ltb_lt. lia.
Qed.

(** When [float] answers, its argument has at most one decimal point,
    otherwise digits, and at least one digit. *)
Lemma replace_dot_once_literal (s : str) :
  forallb (fun c => (c =? 46) || e_digito c) s = true ->
  isdigit (replace_dot_once s) = true ->
  literal_decimal s = true.
Proof.
  intros Hall Hdig. unfold literal_decimal. rewrite Hall.
  assert (Hcnt : forall t,
             forallb isdigit_char (replace_dot_once t) = true ->
             (count_occ Z.eq_dec t 46%Z <= 1)%nat).
  { induction t as [|c t IH]; simpl; intros H; [lia|].
    destruct (Z.eqb_spec c 46) as [->|Hc].
    - destruct (Z.eq_dec 46 46); [|contradiction].
      assert (count_occ Z.eq_dec t 46 = 0%nat); [|lia].
      apply count_occ_not_In. intros Hin.
      rewrite forallb_forall in H. specialize (H 46 Hin). discriminate.
    - destruct (Z.eq_dec c 46); [contradiction|].
      simpl in H. apply andb_true_iff in H. apply IH, H. }
  assert (Hex : forall t,
             forallb (fun c => (c =? 46) || e_digito c) t = true ->
             replace_dot_once t <> [] ->
             forallb isdigit_char (replace_dot_once t) = true ->
             existsb e_digito t = true).
  { induction t as [|c t IH]; simpl; intros Ha Hne Hd; [contradiction|].
    apply andb_true_iff in Ha. destruct Ha as [Hc Ht].
    destruct (Z.eqb_spec c 46) as [->|Hn].
    - simpl. destruct t as [|d t]; [contradiction|].
      simpl in Hd, Ht. apply andb_true_iff in Hd, Ht.
      destruct Hd as [Hd _], Ht as [Ht _].
      destruct (Z.eqb_spec d 46) as [->|]; [discriminate|].
      simpl in Ht. simpl. rewrite Ht. reflexivity.
    - simpl in Hc. rewrite Hc. reflexivity. }
  assert (Hd' : replace_dot_once s <> []
                /\ forallb isdigit_char (replace_dot_once s) = true).
  { unfold isdigit in Hdig. destruct (replace_dot_once s);
      [discriminate|]. split; [discriminate|assumption]. }
  destruct Hd' as [Hne Hd'].
  rewrite (Hex s Hall Hne Hd').
  destruct (Nat.leb_spec (count_occ Z.eq_dec s 46) 1%nat); [reflexivity|].
  specialize (Hcnt s Hd'). lia.
Qed.

Lemma float_decimal_literal (s : str) (v : Q) :
  float_decimal s = Ret v -> literal_decimal s = true.
Proof.
  unfold float_decimal. intros H.
  destruct (isdigit (replace_dot_once s)) eqn:E1; [|discriminate].
  simpl in H.
  destruct (forallb (fun c => (c =? 46) || ((48 <=? c) && (c <=? 57))) s)
    eqn:E2; [|discriminate].
  apply replace_dot_once_literal; assumption.
Qed.

Lemma digito_ascii (c : Z) :
  e_ascii c = true -> isdigit_char c = true ->
  (48 <=? c) && (c <=? 57) = true.
Proof.
  unfold e_ascii, isdigit_char. intros Ha Hd.
  apply andb_true_iff in Ha. destruct Ha as [_ Ha]. apply Z.leb_le in Ha.
  destruct (Z.eqb_spec c 178), (Z.eqb_spec c 179), (Z.eqb_spec c 185); lia.
Qed.

Lemma digitos_ascii (s : str) :
  forallb e_ascii s = true -> forallb isdigit_char s = true ->
  forallb (fun c => (c =? 46) || ((48 <=? c) && (c <=? 57))) s = true.
Proof.
  induction s as [|c s IH]; [reflexivity|]. simpl. intros Ha Hd.
  apply andb_true_iff in Ha, Hd. destruct Ha as [Ha1 Ha2], Hd as [Hd1 Hd2].
  rewrite (digito_ascii c Ha1 Hd1), (IH Ha2 Hd2), orb_true_r. reflexivity.
Qed.

Lemma digitos_ponto_ascii (s : str) :
  forallb e_ascii s = true ->
  forallb isdigit_char (replace_dot_once s) = true ->
  forallb (fun c => (c =? 46) || ((48 <=? c) && (c <=? 57))) s = true.
Proof.
  induction s as [|c s IH]; [reflexivity|]. simpl. intros Ha Hd.
  apply andb_true_iff in Ha. destruct Ha as [Ha1 Ha2].
  destruct (Z.eqb_spec c 46) as [->|Hn]; simpl.
  - apply digitos_ascii; assumption.
  - simpl in Hd. apply andb_true_iff in Hd. destruct Hd as [Hd1 Hd2].
    rewrite (digito_ascii c Ha1 Hd1), (IH Ha2 Hd2). auto.
Qed.

(** On printable ASCII, the test [s.replace('.', '', 1).isdigit()] lets
    through only what [float] answers. *)
Lemma float_decimal_ascii (s : str) :
  forallb e_ascii s = true ->
  isdigit (replace_dot_once s) = true ->
  exists v, float_decimal s = Ret v.
Proof.
  intros Ha Hd. unfold float_decimal. rewrite Hd. simpl.
  rewrite digitos_ponto_ascii; [eauto|assumption|].
  unfold isdigit in Hd. destruct (replace_dot_once s); [discriminate|].
  exact Hd.
Qed.

(** ** Reading several bytes *)

Lemma skipn_nth {A} (l : list A) (n : nat) (b : A) :
  nth_error l n = Some b -> skipn n l = b :: skipn (S n) l.
Proof.
  revert l. induction n as [|n IH]; intros [|x l] H; try discriminate.
  - simpl in H. injection H as ->. reflexivity.
  - simpl in H. rewrite skipn_cons. rewrite (IH l H). reflexivity.
Qed.

Lemma getitem_nat (dados : bytes) (n : nat) (b : byte) :
  nth_error dados n = Some b -> getitem dados (Z.of_nat n) = Ret (valor b).
Proof.
  intros H. assert (Hn : (n < List.length dados)%nat).
  { apply nth_error_Some. rewrite H. discriminate. }
  destruct (getitem_dentro dados (Z.of_nat n)) as (b' & Hb & Hg).
  { unfold len. lia. }
  rewrite Nat2Z.id, H in Hb. injection Hb as <-. exact Hg.
Qed.

Section Leituras.
Variable dados : bytes.

Lemma map_m_getitem_seq (i' : nat) :
  forall n s, (i' + s + n <= List.length dados)%nat ->
    map_m (fun j => getitem dados (Z.of_nat i' + j)) (map Z.of_nat (seq s n))
    = Ret (map valor (firstn n (skipn (i' + s) dados))).
Proof.
  induction n as [|n IH]; intros s H; [reflexivity|].
  destruct (nth_error dados (i' + s)) as [b|] eqn:E;
    [|apply nth_error_None in E; lia].
  cbn [seq map map_m]. rewrite <- Nat2Z.inj_add, (getitem_nat _ _ _ E).
  rewrite (skipn_nth _ _ _ E), firstn_cons. cbn [bind map].
  replace (S (i' + s)) with (i' + S s)%nat by lia.
  rewrite IH by lia. reflexivity.
Qed.

Lemma all_m_getitem_seq (p : Z -> bool) (i' : nat) :
  forall n s, (i' + s + n <= List.length dados)%nat ->
    all_m (fun j => v <- getitem dados (Z.of_nat i' + j) ;; Ret (p v))
          (map Z.of_nat (seq s n))
    = Ret (forallb p (map valor (firstn n (skipn (i' + s) dados)))).
Proof.
  induction n as [|n IH]; intros s H; [reflexivity|].
  destruct (nth_error dados (i' + s)) as [b|] eqn:E;
    [|apply nth_error_None in E; lia].
  cbn [seq map all_m]. rewrite <- Nat2Z.inj_add, (getitem_nat _ _ _ E).
  rewrite (skipn_nth _ _ _ E), firstn_cons. cbn [bind map forallb].
  replace (S (i' + s)) with (i' + S s)%nat by lia.
  destruct (p (valor b)); [|reflexivity].
  rewrite IH by lia. reflexivity.
Qed.

Lemma slice_mais (i n : Z) :
  0 <= i -> 0 <= n ->
  slice dados i (i + n) = firstn (Z.to_nat n) (skipn (Z.to_nat i + 0) dados).
Proof.
  intros Hi Hn. unfold slice. rewrite Nat.add_0_r.
  replace (i + n - i) with n by lia. reflexivity.
Qed.

(** [[dados[i+j] for j in range(n)]] inside the buffer. *)
Lemma map_m_getitem (i n : Z) :
  0 <= i -> 0 <= n -> i + n <= len dados ->
  map_m (fun j => getitem dados (i + j)) (range n)
  = Ret (map valor (slice dados i (i + n))).
Proof.
  intros Hi Hn Hle. rewrite slice_mais by assumption. unfold range.
  rewrite <- map_m_getitem_seq by (unfold len in Hle; lia).
  rewrite Z2Nat.id by assumption. reflexivity.
Qed.

(** [all(p(dados[i+j]) for j in range(n))] inside the buffer. *)
Lemma all_m_getitem (p : Z -> bool) (i n : Z) :
  0 <= i -> 0 <= n -> i + n <= len dados ->
  all_m (fun j => v <- getitem dados (i + j) ;; Ret (p v)) (range n)
  = Ret (forallb p (map valor (slice dados i (i + n)))).
Proof.
  intros Hi Hn Hle. rewrite slice_mais by assumption. unfold range.
  rewrite <- all_m_getitem_seq by (unfold len in Hle; lia).
  rewrite Z2Nat.id by assumption. reflexivity.
Qed.

(** The digit test of the scan, read off the bytes themselves. *)
Lemma seis_digitos_iff (i : Z) :
  0 <= i -> i + 6 <= len dados ->
  (forallb e_digito (map valor (slice dados i (i + 6))) = true
   <-> seis_digitos dados i).
Proof.
  intros Hi Hle. unfold seis_digitos.
  pose proof (all_m_getitem e_digito i 6 Hi ltac:(lia) Hle) as Hall.
  change (range 6) with [0; 1; 2; 3; 4; 5] in Hall.
  assert (Hg : forall j, 0 <= j < 6 -> exists v, getitem dados (i + j) = Ret v).
  { intros j Hj. destruct (getitem_dentro dados (i + j)) as (b & _ & Hb);
      [lia|eauto]. }
  destruct (Hg 0 ltac:(lia)) as (v0 & E0).
  destruct (Hg 1 ltac:(lia)) as (v1 & E1).
  destruct (Hg 2 ltac:(lia)) as (v2 & E2).
  destruct (Hg 3 ltac:(lia)) as (v3 & E3).
  destruct (Hg 4 ltac:(lia)) as (v4 & E4).
  destruct (Hg 5 ltac:(lia)) as (v5 & E5).
  split.
  - intros Hf. rewrite Hf in Hall. cbn [all_m] in Hall.
    rewrite E0, E1, E2, E3, E4, E5 in Hall. cbn [bind] in Hall.
    intros j Hj.
    assert (Hd : e_digito v0 = true /\ e_digito v1 = true
                 /\ e_digito v2 = true /\ e_digito v3 = true
                 /\ e_digito v4 = true /\ e_digito v5 = true).
    { destruct (e_digito v0); [|discriminate].
      destruct (e_digito v1); [|discriminate].
      destruct (e_digito v2); [|discriminate].
      destruct (e_digito v3); [|discriminate].
      destruct (e_digito v4); [|discriminate].
      destruct (e_digito v5); [|discriminate]. auto 10. }
    unfold e_digito in Hd.
    assert (Hj' : j = 0 \/ j = 1 \/ j = 2 \/ j = 3 \/ j = 4 \/ j = 5) by lia.
    destruct Hj' as [->|[->|[->|[->|[->| ->]]]]]; eexists;
      (split; [eassumption|lia]).
  - intros Hs. cbn [all_m] in Hall.
    rewrite E0, E1, E2, E3, E4, E5 in Hall. cbn [bind] in Hall.
    assert (Hd : forall j v, 0 <= j < 6 -> getitem dados (i + j) = Ret v ->
                             e_digito v = true).
    { intros j v Hj Hv. destruct (Hs j Hj) as (v' & Hv' & Hr).
      rewrite Hv in Hv'. injection Hv' as <-. unfold e_digito. lia. }
    rewrite (Hd 0 v0), (Hd 1 v1), (Hd 2 v2), (Hd 3 v3), (Hd 4 v4),
      (Hd 5 v5) in Hall by (assumption || lia).
    injection Hall as Hall. symmetry. exact Hall.
Qed.
End Leituras.

(** ** One candidate *)

Lemma forallb_filter_mesmo {A} (f : A -> bool) (l : list A) :
  forallb f (filter f l) = true.
Proof.
  apply forallb_forall. intros x Hx. apply filter_In in Hx. tauto.
Qed.

Section Candidato.
Variable agora : nat -> Z.
Variable dados_bloco : bytes.
Variables k ini : Z.

(** One turn of the scan, at an offset with more than 20 bytes ahead:
    it moves on by one byte and stores the record of the candidate when
    the candidate is accepted, and nothing otherwise.  It raises
    nothing. *)
Lemma notas_passo_ok (i : Z) (notas : list NotaFiscal) (n : nat) :
  0 <= i -> i < len dados_bloco - 20 ->
  exists novas n',
    notas_passo agora dados_bloco k ini (i, notas, n)
    = Ret (i + 1, notas ++ novas, n')
    /\ (n <= n')%nat
    /\ ((candidato_aceito dados_bloco i
         /\ exists nota, novas = [nota]
                         /\ registro_de agora dados_bloco k ini i nota)
        \/ (~ candidato_aceito dados_bloco i /\ novas = [])).
Proof.
  intros Hi Hlt. unfold notas_passo.
  rewrite (all_m_getitem dados_bloco e_digito i 6) by lia.
  pose proof (seis_digitos_iff dados_bloco i Hi ltac:(lia)) as Hseis.
  cbn [bind].
  destruct (forallb e_digito (map valor (slice dados_bloco i (i + 6))))
    eqn:Hd.
  - rewrite (map_m_getitem dados_bloco i 6) by lia.
    rewrite (map_m_getitem dados_bloco (i + 6) 3) by lia.
    cbn [bind numero serie bloco_id posicao_registro data_emissao
         valor_total desconto acrescimo valor_final NotaFiscal_init].
    rewrite (strip_digitos _ Hd).
    assert (Hne : map valor (slice dados_bloco i (i + 6)) <> []).
    { intros E. apply (f_equal (@List.length Z)) in E.
      rewrite length_map in E.
      pose proof (len_slice dados_bloco i (i + 6)) as L. unfold len in *.
      simpl in E. lia. }
    rewrite (isdigit_digitos _ Hne Hd).
    assert (Hpos : (len (map valor (slice dados_bloco i (i + 6))) >? 0) = true).
    { unfold len. rewrite length_map.
      pose proof (len_slice dados_bloco i (i + 6)) as L. unfold len in *.
      lia. }
    rewrite Hpos. cbn [andb].
    unfold tentar_valor.
    change (filter e_ascii (map valor (slice dados_bloco (i + 10) (i + 18))))
      with (janela_valor dados_bloco i).
    destruct (isdigit (replace_dot_once (janela_valor dados_bloco i)))
      eqn:Hdig.
    + destruct (float_decimal_ascii (janela_valor dados_bloco i)) as (v & Hv).
      { apply forallb_filter_mesmo. }
      { exact Hdig. }
      rewrite Hv.
      cbn [bind numero serie bloco_id posicao_registro data_emissao
           valor_total desconto acrescimo valor_final].
      destruct (Qpos v) eqn:Hq.
      * eexists. exists (S n). split; [reflexivity|]. split; [lia|].
        left. split.
        -- split; [apply Hseis; reflexivity|].
           split; [exact (float_decimal_literal _ _ Hv)|].
           exists v. split; [exact Hv|]. apply Qpos_iff. exact Hq.
        -- eexists. split; [reflexivity|].
           unfold registro_de. cbn. repeat split; auto.
           ++ replace (i + 6 + 3) with (i + 9) by lia. reflexivity.
           ++ eauto.
      * exists [], (S n). rewrite app_nil_r.
        split; [reflexivity|]. split; [lia|]. right. split; [|reflexivity].
        intros (_ & _ & v' & Hv' & Hp). rewrite Hv in Hv'.
        injection Hv' as <-. apply Qpos_iff in Hp. congruence.
    + cbn [bind numero serie bloco_id posicao_registro data_emissao
           valor_total desconto acrescimo valor_final].
      change (Qpos 0) with false. cbn iota.
      exists [], (S n). rewrite app_nil_r.
      split; [reflexivity|]. split; [lia|]. right. split; [|reflexivity].
      intros (_ & _ & v' & Hv' & _). unfold float_decimal in Hv'.
      rewrite Hdig in Hv'. discriminate.
  - exists [], n. rewrite app_nil_r.
    split; [reflexivity|]. split; [lia|]. right. split; [|reflexivity].
    intros (Hs & _). apply Hseis in Hs. discriminate.
Qed.
End Candidato.

(** ** The scan of the data blocks *)

Section Varredura.
Variable agora : nat -> Z.
Variable dados : bytes.

(** The scan of one block finishes within its fuel, raises nothing,
    keeps the records it was given and adds exactly the records of the
    accepted candidates of the block. *)
Lemma notas_do_bloco_ok (k : Z) (b : BlocoEstrutura)
      (notas : list NotaFiscal) (n : nat) :
  exists novas n',
    notas_do_bloco agora dados k b notas n = Ret (notas ++ novas, n')
    /\ (n <= n')%nat
    /\ notas_do_bloco_sao agora dados k b
                          (len (dados_do_bloco dados b) - 20) novas.
Proof.
  unfold notas_do_bloco. fold (dados_do_bloco dados b).
  set (db := dados_do_bloco dados b).
  destruct (while_regra
    (fun s : varredura => Ret (fst (fst s) <? len db - 20))
    (notas_passo agora db k (posicao_inicio b))
    (fun s : varredura =>
       0 <= fst (fst s) /\ (n <= snd s)%nat
       /\ exists novas, snd (fst s) = notas ++ novas
                        /\ notas_do_bloco_sao agora dados k b
                                              (fst (fst s)) novas)
    (fun s : varredura => Z.to_nat (len db - 20 - fst (fst s))))
    with (fuel := List.length db) (s := (0, notas, n))
    as ([[i ns] n'] & Hw & (Hi & Hn & novas & Hns & Hsao) & Hc).
  - intros s _. eauto.
  - intros [[i ns] m] (Hi & Hm & novas & Hns & HA & HB) Hc.
    cbn [fst snd] in *. injection Hc as Hc. apply Z.ltb_lt in Hc.
    destruct (notas_passo_ok agora db k (posicao_inicio b) i ns m Hi Hc)
      as (mais & m' & E & Hm' & Hcase).
    exists (i + 1, ns ++ mais, m'). cbn [fst snd].
    split; [exact E|]. split; [|lia].
    split; [lia|]. split; [lia|].
    exists (novas ++ mais). split; [rewrite Hns, app_assoc; reflexivity|].
    split.
    + intros nota Hin. apply in_app_or in Hin. destruct Hin as [Hin|Hin].
      * apply HA. exact Hin.
      * destruct Hcase as [(Hac & x & -> & Hreg)|(_ & ->)];
          [|destruct Hin].
        destruct Hin as [<-|[]]. exists i. fold db. auto with zarith.
    + intros j Hj Hj' Hac. fold db in Hac.
      destruct (Z.eq_dec j i) as [->|Hne].
      * destruct Hcase as [(_ & x & -> & Hreg)|(Hnac & _)];
          [|contradiction].
        exists x. split; [apply in_or_app; right; left; reflexivity|].
        exact Hreg.
      * destruct (HB j) as (nota & Hin & Hreg); auto; try lia.
        exists nota. split; [apply in_or_app; left|]; assumption.
  - cbn [fst snd]. split; [lia|]. split; [lia|].
    exists []. split; [rewrite app_nil_r; reflexivity|].
    split; [intros nota []|]. intros j Hj. lia.
  - cbn [fst snd]. unfold len. lia.
  - rewrite Hw. cbn [bind fst snd] in *. subst ns.
    exists novas, n'. split; [reflexivity|]. split; [assumption|].
    injection Hc as Hc. apply Z.ltb_ge in Hc.
    destruct Hsao as [HA HB]. split; [exact HA|].
    intros j Hj Hj' Hac. apply HB; auto. lia.
Qed.

(** The scan of all the data blocks, in order. *)
Lemma notas_dos_blocos_ok (bs : list BlocoEstrutura) :
  forall k notas n,
  exists novas n',
    notas_dos_blocos agora dados k bs notas n = Ret (notas ++ novas, n')
    /\ (n <= n')%nat
    /\ (forall nota, In nota novas ->
          exists j b, nth_error bs j = Some b
                      /\ exists mais,
                           In nota mais
                           /\ notas_do_bloco_sao agora dados (k + Z.of_nat j) b
                                (len (dados_do_bloco dados b) - 20) mais)
    /\ (forall j b, nth_error bs j = Some b ->
          exists mais,
            incl mais novas
            /\ notas_do_bloco_sao agora dados (k + Z.of_nat j) b
                 (len (dados_do_bloco dados b) - 20) mais).
Proof.
  induction bs as [|b bs IH]; intros k notas n.
  - exists [], n. rewrite app_nil_r. cbn.
    split; [reflexivity|]. split; [lia|].
    split; [intros nota []|]. intros [|j] b' H; discriminate.
  - cbn [notas_dos_blocos].
    destruct (notas_do_bloco_ok k b notas n) as (m1 & n1 & E1 & Hn1 & S1).
    rewrite E1. cbn [bind fst snd].
    destruct (IH (k + 1) (notas ++ m1) n1) as (m2 & n2 & E2 & Hn2 & A2 & B2).
    rewrite E2. exists (m1 ++ m2), n2.
    split; [rewrite app_assoc; reflexivity|]. split; [lia|]. split.
    + intros nota Hin. apply in_app_or in Hin. destruct Hin as [Hin|Hin].
      * exists 0%nat, b. split; [reflexivity|].
        exists m1. split; [exact Hin|].
        replace (k + Z.of_nat 0) with k by lia. exact S1.
      * destruct (A2 nota Hin) as (j & b' & Hj & mais & Hm & Hs).
        exists (S j), b'. split; [exact Hj|].
        exists mais. split; [exact Hm|].
        replace (k + Z.of_nat (S j)) with (k + 1 + Z.of_nat j) by lia.
        exact Hs.
    + intros [|j] b' Hj.
      * injection Hj as <-. exists m1.
        split; [apply incl_appl, incl_refl|].
        replace (k + Z.of_nat 0) with k by lia. exact S1.
      * destruct (B2 j b' Hj) as (mais & Hinc & Hs).
        exists mais. split; [apply incl_appr; exact Hinc|].
        replace (k + Z.of_nat (S j)) with (k + 1 + Z.of_nat j) by lia.
        exact Hs.
Qed.
End Varredura.

(** ** A block and the buffer *)

Lemma slice_slice {A} (l : list A) (a b c d : Z) :
  0 <= a -> 0 <= c -> c <= d -> a + d <= b ->
  slice (slice l a b) c d = slice l (a + c) (a + d).
Proof.
  intros Ha Hc Hcd Hdb. unfold slice.
  rewrite skipn_firstn_comm, skipn_skipn, firstn_firstn.
  replace (Z.to_nat c + Z.to_nat a)%nat with (Z.to_nat (a + c)) by lia.
  f_equal. lia.
Qed.

Lemma getitem_slice (l : bytes) (a b i : Z) :
  0 <= a -> b <= len l -> 0 <= i -> a + i < b ->
  getitem (slice l a b) i = getitem l (a + i).
Proof.
  intros Ha Hb Hi Hlt.
  destruct (getitem_dentro (slice l a b) i) as (x & Hx & ->).
  { rewrite len_slice; lia. }
  destruct (getitem_dentro l (a + i)) as (y & Hy & ->); [lia|].
  rewrite nth_error_slice in Hx by lia.
  replace (Z.to_nat a + Z.to_nat i)%nat with (Z.to_nat (a + i)) in Hx by lia.
  congruence.
Qed.

Section BlocoNoBuffer.
Variable dados : bytes.
Variable b : BlocoEstrutura.
Hypothesis ini_ok : 0 <= posicao_inicio b.
Hypothesis fim_ok : posicao_fim b < len dados.

Lemma len_dados_do_bloco :
  posicao_inicio b <= posicao_fim b ->
  len (dados_do_bloco dados b) = posicao_fim b - posicao_inicio b + 1.
Proof.
  intros H. unfold dados_do_bloco. rewrite len_slice; lia.
Qed.

(** A candidate of the block is accepted exactly when the bytes of the
    buffer at its position make an accepted candidate. *)
Lemma candidato_aceito_no_buffer (i : Z) :
  0 <= i -> i < len (dados_do_bloco dados b) - 20 ->
  posicao_inicio b <= posicao_fim b ->
  (candidato_aceito (dados_do_bloco dados b) i
   <-> candidato_aceito dados (posicao_inicio b + i)).
Proof.
  intros Hi Hlt Hle. rewrite len_dados_do_bloco in Hlt by assumption.
  assert (Hj : janela_valor (dados_do_bloco dados b) i
               = janela_valor dados (posicao_inicio b + i)).
  { unfold janela_valor, dados_do_bloco. rewrite slice_slice by lia.
    replace (posicao_inicio b + (i + 10)) with (posicao_inicio b + i + 10)
      by lia.
    replace (posicao_inicio b + (i + 18)) with (posicao_inicio b + i + 18)
      by lia.
    reflexivity. }
  assert (Hs : seis_digitos (dados_do_bloco dados b) i
               <-> seis_digitos dados (posicao_inicio b + i)).
  { unfold seis_digitos, dados_do_bloco.
    split; intros H j Hjr; destruct (H j Hjr) as (v & Hv & Hr);
      exists v; (split; [|exact Hr]).
    - rewrite getitem_slice in Hv by lia.
      rewrite <- Hv. f_equal. lia.
    - rewrite getitem_slice by lia.
      rewrite <- Hv. f_equal. lia. }
  unfold candidato_aceito. rewrite Hj, Hs. reflexivity.
Qed.
End BlocoNoBuffer.

(** ** Totality *)

(** A run never raises and never runs out of fuel: it returns the
    analyzer and the file record when the signature is there, and the
    analyzer and [None] when it is not. *)
Lemma analisar_total (agora : nat -> Z) (dados : bytes) (nome : str) :
  exists s r,
    analisar agora dados nome = Ret (s, r)
    /\ (assinatura_ok dados = true -> exists a, r = Some a)
    /\ (assinatura_ok dados = false -> r = None).
Proof.
  unfold analisar, carregar_arquivo.
  destruct (assinatura_ok dados) eqn:Hsig.
  - pose proof (assinatura_ok_len dados Hsig) as Hlen.
    rewrite !percentual_ret by lia. simpl bind.
    unfold mapear_regioes_nulas. simpl regioes_nulas.
    destruct (mapear_laco_ok dados []) as (i & rs & E & Hrs).
    { unfold regioes_ate. simpl. split; [|split]; [|lia|constructor].
      pose proof (len_nonneg dados). lia. }
    rewrite E. simpl. unfold extrair_notas_fiscais. simpl.
    destruct (notas_dos_blocos_ok agora dados
                (filter e_dados (blocos_de dados rs [])) 0 [] 1)
      as (novas & n' & En & _).
    rewrite En. simpl. eexists. eexists. split; [reflexivity|].
    split; [eauto|discriminate].
  - eexists. eexists. split; [reflexivity|]. split; [discriminate|auto].
Qed.

(** ** Invoice records *)

(** The records of a successful run are those the scan of the data
    blocks adds to the empty list. *)
Lemma notas_da_analise (agora : nat -> Z) (dados : bytes) (nome : str) s a :
  analisar agora dados nome = Ret (s, Some a) ->
  (forall nota, In nota (notas_fiscais s) ->
     exists j b mais,
       nth_error (filter e_dados (blocos s)) j = Some b
       /\ In nota mais
       /\ notas_do_bloco_sao agora dados (Z.of_nat j) b
            (len (dados_do_bloco dados b) - 20) mais)
  /\ (forall j b, nth_error (filter e_dados (blocos s)) j = Some b ->
        exists mais,
          incl mais (notas_fiscais s)
          /\ notas_do_bloco_sao agora dados (Z.of_nat j) b
               (len (dados_do_bloco dados b) - 20) mais).
Proof.
  intros H. destruct (analisar_partes _ _ _ _ _ H)
    as (_ & _ & _ & _ & Hn & _).
  destruct (notas_dos_blocos_ok agora dados
              (filter e_dados (blocos s)) 0 [] 1)
    as (novas & n' & En & _ & HA & HB).
  rewrite En in Hn. injection Hn as Hn _. simpl in Hn. rewrite <- Hn.
  split.
  - intros nota Hin.
    destruct (HA nota Hin) as (j & b & Hj & mais & Hm & Hs).
    exists j, b, mais. auto.
  - intros j b Hj. destruct (HB j b Hj) as (mais & Hinc & Hs).
    exists mais. auto.
Qed.

(** C10: every record stored by a successful run has its final value
    equal to its total value, a zero discount and a zero surcharge (and
    a positive total). *)
Theorem C10_valor_final_igual_ao_total (agora : nat -> Z) (dados : bytes)
        (nome : str) s a :
  analisar agora dados nome = Ret (s, Some a) ->
  forall nota, In nota (notas_fiscais s) ->
    valor_final nota = valor_total nota
    /\ desconto nota = 0%Q /\ acrescimo nota = 0%Q
    /\ (0 < valor_total nota)%Q.
Proof.
  intros H nota Hin.
  destruct (notas_da_analise _ _ _ _ _ H) as (HA & _).
  destruct (HA nota Hin) as (j & b & mais & _ & Hm & (Hsao & _)).
  destruct (Hsao nota Hm) as (i & _ & (_ & _ & v & Hv & Hpos) & Hreg).
  destruct Hreg as (_ & _ & _ & _ & Hf & Hfin & Hd & Hac & _).
  rewrite Hv in Hf. injection Hf as Hf. subst v. auto.
Qed.

Lemma C10_valor_final_igual_ao_total_witness :
  exists s a nota,
    analisar relogio0 buffer_nota [] = Ret (s, Some a)
    /\ In nota (notas_fiscais s)
    /\ valor_final nota = valor_total nota
    /\ desconto nota = 0%Q /\ acrescimo nota = 0%Q
    /\ (0 < valor_total nota)%Q.
Proof.
  eexists. eexists. eexists. split; [vm_compute; reflexivity|].
  split; [left; reflexivity|].
  eapply (C10_valor_final_igual_ao_total relogio0 buffer_nota []).
  - vm_compute. reflexivity.
  - left. reflexivity.
Defined.

(** C6: a run on a buffer with the signature raises nothing, and for
    every data block and every offset scanned in it (those with more
    than 20 bytes of the block ahead), a record of that block at that
    offset is stored if and only if the 6 bytes at the offset are ASCII
    digits, the 8-byte window 10 bytes further on, filtered to printable
    ASCII, has at most one decimal point and otherwise digits, and
    [float] answers with a strictly positive value.  Every stored record
    is the record of such a candidate. *)
Theorem C6_nota_sse_candidato_aceito (agora : nat -> Z) (dados : bytes)
        (nome : str) :
  assinatura_ok dados = true ->
  exists s a,
    analisar agora dados nome = Ret (s, Some a)
    /\ (forall k b i,
          nth_error (filter e_dados (blocos s)) k = Some b ->
          0 <= i < tamanho b - 20 ->
          ((exists nota, In nota (notas_fiscais s)
                         /\ bloco_id nota = Z.of_nat k
                         /\ posicao_registro nota = posicao_inicio b + i)
           <-> candidato_aceito dados (posicao_inicio b + i)))
    /\ (forall nota, In nota (notas_fiscais s) ->
          exists k b i,
            nth_error (filter e_dados (blocos s)) k = Some b
            /\ 0 <= i < tamanho b - 20
            /\ bloco_id nota = Z.of_nat k
            /\ posicao_registro nota = posicao_inicio b + i
            /\ candidato_aceito dados (posicao_inicio b + i)).
Proof.
  intros Hsig.
  destruct (analisar_total agora dados nome) as (s & r & Hrun & Hsome & _).
  destruct (Hsome Hsig) as (a & ->). exists s, a. split; [exact Hrun|].
  destruct (notas_da_analise _ _ _ _ _ Hrun) as (HA & HB).
  destruct (analisar_partes _ _ _ _ _ Hrun)
    as (_ & _ & (_ & Hch & _) & Hbl & _).
  destruct (blocos_de_ok dados _ Hch) as (_ & Hval & _).
  rewrite <- Hbl in Hval. rewrite Forall_forall in Hval.
  assert (Hb : forall k b, nth_error (filter e_dados (blocos s)) k = Some b ->
                 0 <= posicao_inicio b /\ posicao_fim b < len dados
                 /\ posicao_inicio b <= posicao_fim b
                 /\ len (dados_do_bloco dados b) = tamanho b).
  { intros k b Hk. apply nth_error_In, filter_In in Hk.
    destruct Hk as [Hk _]. destruct (Hval b Hk) as (V1 & V2 & V3 & V4 & _).
    rewrite len_dados_do_bloco by lia. lia. }
  split.
  - intros k b i Hk Hi. destruct (Hb k b Hk) as (B1 & B2 & B3 & B4).
    rewrite <- (candidato_aceito_no_buffer dados b B1 B2 i) by lia.
    split.
    + intros (nota & Hin & Hid & Hpos).
      destruct (HA nota Hin) as (j & b' & mais & Hj & Hm & (Hsao & _)).
      destruct (Hsao nota Hm) as (i' & Hi' & Hac & Hreg).
      destruct Hreg as (Rid & Rpos & _).
      assert (j = k) by lia. subst j.
      rewrite Hk in Hj. injection Hj as <-.
      assert (i' = i) by lia. subst i'. exact Hac.
    + intros Hac. destruct (HB k b Hk) as (mais & Hinc & (_ & Hsao)).
      destruct (Hsao i) as (nota & Hm & Hreg); auto; try lia.
      destruct Hreg as (Rid & Rpos & _).
      exists nota. split; [apply Hinc; exact Hm|]. auto.
  - intros nota Hin.
    destruct (HA nota Hin) as (j & b & mais & Hj & Hm & (Hsao & _)).
    destruct (Hsao nota Hm) as (i & Hi & Hac & Hreg).
    destruct Hreg as (Rid & Rpos & _).
    destruct (Hb j b Hj) as (B1 & B2 & B3 & B4).
    exists j, b, i. split; [exact Hj|]. split; [lia|].
    split; [exact Rid|]. split; [exact Rpos|].
    apply (candidato_aceito_no_buffer dados b B1 B2 i); auto; lia.
Qed.

Lemma C6_nota_sse_candidato_aceito_witness :
  assinatura_ok buffer_nota = true
  /\ exists s a,
       analisar relogio0 buffer_nota [] = Ret (s, Some a)
       /\ (forall k b i,
             nth_error (filter e_dados (blocos s)) k = Some b ->
             0 <= i < tamanho b - 20 ->
             ((exists nota, In nota (notas_fiscais s)
                            /\ bloco_id nota = Z.of_nat k
                            /\ posicao_registro nota = posicao_inicio b + i)
              <-> candidato_aceito buffer_nota (posicao_inicio b + i)))
       /\ (forall nota, In nota (notas_fiscais s) ->
             exists k b i,
               nth_error (filter e_dados (blocos s)) k = Some b
               /\ 0 <= i < tamanho b - 20
               /\ bloco_id nota = Z.of_nat k
               /\ posicao_registro nota = posicao_inicio b + i
               /\ candidato_aceito buffer_nota (posicao_inicio b + i)).
Proof.
  split; [vm_compute; reflexivity|].
  apply (C6_nota_sse_candidato_aceito relogio0 buffer_nota []).
  vm_compute. reflexivity.
Defined.

(** ** Two runs on the same buffer *)

Section WhileRel.
Context {S1 S2 : Type}.
Variable R : S1 -> S2 -> Prop.
Variable cond1 : S1 -> resultado bool.
Variable cond2 : S2 -> resultado bool.
Variable body1 : S1 -> resultado S1.
Variable body2 : S2 -> resultado S2.

Hypothesis cond_rel : forall s1 s2, R s1 s2 -> cond1 s1 = cond2 s2.
Hypothesis body_rel :
  forall s1 s2, R s1 s2 -> rel_resultado R (body1 s1) (body2 s2).

(** Two loops whose conditions agree and whose bodies keep the states
    related end in related states. *)
Lemma while_rel :
  forall fuel s1 s2, R s1 s2 ->
    rel_resultado R (while cond1 body1 fuel s1) (while cond2 body2 fuel s2).
Proof.
  induction fuel as [|f IH]; intros s1 s2 H; simpl;
    rewrite <- (cond_rel s1 s2 H); destruct (cond1 s1) as [[|]|e]; simpl;
      auto.
  pose proof (body_rel s1 s2 H) as Hb.
  destruct (body1 s1) as [s1'|e1], (body2 s2) as [s2'|e2]; simpl in *;
    auto; contradiction.
Qed.
End WhileRel.

Section DoisRelogios.
Variables agora1 agora2 : nat -> Z.

Lemma notas_passo_rel (db : bytes) (k ini : Z) (s1 s2 : varredura) :
  mesma_varredura s1 s2 ->
  rel_resultado mesma_varredura
                (notas_passo agora1 db k ini s1)
                (notas_passo agora2 db k ini s2).
Proof.
  destruct s1 as [[i ns1] n], s2 as [[i2 ns2] n2].
  intros (Hi & Hns & Hn). cbn [fst snd] in *. subst i2 n2.
  unfold notas_passo.
  destruct (all_m _ (range 6)) as [[|]|e]; cbn [bind rel_resultado];
    [|repeat split; auto|reflexivity].
  destruct (map_m _ (range 6)) as [num|e]; cbn [bind rel_resultado];
    [|reflexivity].
  destruct (map_m _ (range 3)) as [ser|e]; cbn [bind rel_resultado];
    [|reflexivity].
  cbn [numero serie bloco_id posicao_registro data_emissao
       valor_total desconto acrescimo valor_final NotaFiscal_init].
  destruct (isdigit (strip num) && (len (strip num) >? 0));
    [|repeat split; auto].
  unfold tentar_valor.
  destruct (isdigit _).
  - destruct (float_decimal _) as [v|e];
      cbn [bind numero serie bloco_id posicao_registro data_emissao
           valor_total desconto acrescimo valor_final rel_resultado];
      [|repeat split; auto].
    destruct (Qpos v); repeat split; cbn [fst snd]; auto.
    rewrite !map_app, Hns. reflexivity.
  - cbn [bind numero serie bloco_id posicao_registro data_emissao
         valor_total desconto acrescimo valor_final rel_resultado].
    destruct (Qpos 0); repeat split; cbn [fst snd]; auto.
    rewrite !map_app, Hns. reflexivity.
Qed.

Lemma notas_do_bloco_rel (dados : bytes) (k : Z) (b : BlocoEstrutura)
      (ns1 ns2 : list NotaFiscal) (n : nat) :
  map sem_data_nota ns1 = map sem_data_nota ns2 ->
  rel_resultado
    (fun r1 r2 => map sem_data_nota (fst r1) = map sem_data_nota (fst r2)
                  /\ snd r1 = snd r2)
    (notas_do_bloco agora1 dados k b ns1 n)
    (notas_do_bloco agora2 dados k b ns2 n).
Proof.
  intros Hns. unfold notas_do_bloco.
  set (db := slice dados (posicao_inicio b) (posicao_fim b + 1)).
  pose proof (while_rel mesma_varredura
    (fun s : varredura => Ret (fst (fst s) <? len db - 20))
    (fun s : varredura => Ret (fst (fst s) <? len db - 20))
    (notas_passo agora1 db k (posicao_inicio b))
    (notas_passo agora2 db k (posicao_inicio b))) as Hw.
  specialize (Hw ltac:(intros s1 s2 (E & _); rewrite E; reflexivity)
                 (notas_passo_rel db k (posicao_inicio b))
                 (List.length db) (0, ns1, n) (0, ns2, n)
                 ltac:(repeat split; auto)).
  destruct (while _ (notas_passo agora1 _ _ _) _ _) as [s1|e1],
           (while _ (notas_passo agora2 _ _ _) _ _) as [s2|e2];
    cbn [bind rel_resultado] in *; auto.
  destruct Hw as (_ & H2 & H3). auto.
Qed.

Lemma notas_dos_blocos_rel (dados : bytes) (bs : list BlocoEstrutura) :
  forall k ns1 ns2 n,
  map sem_data_nota ns1 = map sem_data_nota ns2 ->
  rel_resultado
    (fun r1 r2 => map sem_data_nota (fst r1) = map sem_data_nota (fst r2)
                  /\ snd r1 = snd r2)
    (notas_dos_blocos agora1 dados k bs ns1 n)
    (notas_dos_blocos agora2 dados k bs ns2 n).
Proof.
  induction bs as [|b bs IH]; intros k ns1 ns2 n Hns.
  - simpl. auto.
  - cbn [notas_dos_blocos].
    pose proof (notas_do_bloco_rel dados k b ns1 ns2 n Hns) as Hb.
    destruct (notas_do_bloco agora1 dados k b ns1 n) as [[m1 n1]|e1],
             (notas_do_bloco agora2 dados k b ns2 n) as [[m2 n2]|e2];
      cbn [bind rel_resultado fst snd] in *; try contradiction; auto.
    destruct Hb as [Hm ->]. apply IH. exact Hm.
Qed.
End DoisRelogios.

(** C9 as stated fails: two runs on the same buffer read the clock at
    different times, and the file records (and the invoice records) they
    yield differ in their time stamps. *)
Lemma C9_duas_execucoes_diferem :
  analisar relogio0 buffer_nota [] <> analisar relogio1 buffer_nota [].
Proof. vm_compute. discriminate. Qed.

(** C9, amended: two runs on the same buffer, each on a fresh analyzer,
    whatever the clock shows during each, yield the same result up to
    the time stamps read from the clock ([data_criacao] of the file
    record and [data_emissao] of the invoice records): the same remaining
    fields of the file record, the same block list, the same null-region
    list and the same invoice records in the same order. *)
Theorem C9_execucoes_iguais_salvo_datas (agora1 agora2 : nat -> Z)
        (dados : bytes) (nome : str) :
  sem_datas_resultado (analisar agora1 dados nome)
  = sem_datas_resultado (analisar agora2 dados nome).
Proof.
  unfold analisar, carregar_arquivo.
  destruct (assinatura_ok dados); [|reflexivity].
  destruct (percentual (bytes_nulos dados) (len dados)) as [p1|e];
    cbn [bind]; [|reflexivity].
  destruct (percentual (bytes_controle dados) (len dados)) as [p2|e];
    cbn [bind]; [|reflexivity].
  destruct (percentual (bytes_ascii dados) (len dados)) as [p3|e];
    cbn [bind]; [|reflexivity].
  destruct (percentual (bytes_unicode dados) (len dados)) as [p4|e];
    cbn [bind]; [|reflexivity].
  unfold mapear_regioes_nulas. cbn [regioes_nulas analisador_novo].
  destruct (mapear_laco dados (List.length dados) []) as [[i rs]|e];
    cbn [bind]; [|reflexivity].
  unfold com_arquivo, identificar_blocos, extrair_notas_fiscais.
  cbn [bind arquivo blocos regioes_nulas notas_fiscais lidas st_erros
       fst snd analisador_novo com_arquivo].
  pose proof (notas_dos_blocos_rel agora1 agora2 dados
                (filter e_dados (blocos_de dados rs [])) 0 [] [] 1 eq_refl)
    as Hrel.
  destruct (notas_dos_blocos agora1 dados 0 _ [] 1) as [[m1 n1]|e1],
           (notas_dos_blocos agora2 dados 0 _ [] 1) as [[m2 n2]|e2];
    cbn [bind rel_resultado fst snd] in *; try contradiction.
  - destruct Hrel as [Hm ->].
    unfold sem_datas_resultado, sem_datas. cbn. rewrite Hm. reflexivity.
  - subst e2. reflexivity.
Qed.

(** ** The density map *)

(** C8 as stated fails: on a window holding a null byte the density map
    does not count it as a control byte, where the byte distribution of
    [carregar_arquivo] does; the two sets of counts differ. *)
Lemma C8_contagens_diferem :
  contar_janela buffer_HE3_nulo <> contagem_perfil buffer_HE3_nulo
  /\ c_controle (contar_janela buffer_HE3_nulo) = 0
  /\ c_controle (contagem_perfil buffer_HE3_nulo) = 1
  /\ exists j, gerar_mapa_densidade buffer_HE3_nulo 1024 = Ret [j]
               /\ (densidade_controle j == 0)%Q.
Proof.
  split; [vm_compute; discriminate|].
  split; [reflexivity|]. split; [reflexivity|].
  eexists. split; [vm_compute; reflexivity|]. reflexivity.
Qed.

Lemma contar_janela_classes (w : bytes) :
  c_nulos (contar_janela w) = conta_classe Nulo w
  /\ c_controle (contar_janela w) = conta_classe Controle w
  /\ c_ascii (contar_janela w) = conta_classe Ascii w
  /\ c_unicode (contar_janela w) = conta_classe Outro w.
Proof.
  unfold contar_janela. cbn [c_nulos c_controle c_ascii c_unicode].
  induction w as [|b w (H1 & H2 & H3 & H4)]; [repeat split; reflexivity|].
  rewrite len_cons. cbn [conta conta_classe].
  unfold classe, nulo, e_ascii in *.
  destruct (Z.eqb_spec (valor b) 0), (Z.ltb_spec (valor b) 32),
    (Z.leb_spec 32 (valor b)), (Z.leb_spec (valor b) 127);
    cbn [classe_eqb andb negb]; repeat split; lia.
Qed.

Section Janelas.
Variable dados : bytes.
Variable tamanho_bloco : Z.
Hypothesis tamanho_pos : 0 < tamanho_bloco.

Lemma janela_de_ret (k : nat) :
  (k * Z.to_nat tamanho_bloco < List.length dados)%nat ->
  janela_de dados tamanho_bloco (Z.of_nat k)
  = Ret (linha_spec (Z.of_nat k * tamanho_bloco)
                    (firstn (Z.to_nat tamanho_bloco)
                            (skipn (k * Z.to_nat tamanho_bloco) dados))).
Proof.
  intros Hk. unfold janela_de.
  set (i := Z.of_nat k).
  set (fim := Z.min ((i + 1) * tamanho_bloco - 1) (len dados - 1)).
  assert (Hi : Z.to_nat (i * tamanho_bloco)
               = (k * Z.to_nat tamanho_bloco)%nat) by (unfold i; nia).
  assert (Hik : i * tamanho_bloco < len dados).
  { unfold len, i. nia. }
  assert (Hw : slice dados (i * tamanho_bloco) (fim + 1)
               = firstn (Z.to_nat tamanho_bloco)
                        (skipn (k * Z.to_nat tamanho_bloco) dados)).
  { unfold slice. rewrite Hi.
    destruct (Z.le_gt_cases ((i + 1) * tamanho_bloco) (len dados)) as [Hle|Hgt].
    - f_equal. unfold fim. lia.
    - pose proof (length_skipn (k * Z.to_nat tamanho_bloco) dados) as Hs.
      rewrite !firstn_all2; [reflexivity| |]; rewrite Hs; unfold fim, len in *;
        lia. }
  rewrite Hw.
  set (w := firstn (Z.to_nat tamanho_bloco)
                   (skipn (k * Z.to_nat tamanho_bloco) dados)) in *.
  assert (Hlen : len w = fim + 1 - i * tamanho_bloco).
  { rewrite <- Hw. apply len_slice; unfold fim; try lia; nia. }
  assert (Hnz : len w <> 0) by (unfold fim in Hlen; lia).
  destruct (contar_janela_classes w) as (C1 & C2 & C3 & C4).
  unfold truediv. destruct (Z.eqb_spec (len w) 0); [contradiction|].
  cbn [bind]. rewrite C1, C2, C3, C4. unfold linha_spec.
  replace (i * tamanho_bloco + len w - 1) with fim by lia. reflexivity.
Qed.

(** The rows the method builds for the windows [k, k + m) are the rows
    of the buffer cut from offset [k * tamanho_bloco] on, when these
    [m] windows are exactly what remains. *)
Lemma janelas_de_seq (m : nat) :
  forall k fuel,
    (List.length dados <= k * Z.to_nat tamanho_bloco
                          + m * Z.to_nat tamanho_bloco)%nat ->
    (0 < m -> k * Z.to_nat tamanho_bloco + (m - 1) * Z.to_nat tamanho_bloco
              < List.length dados)%nat ->
    (List.length dados - k * Z.to_nat tamanho_bloco <= fuel)%nat ->
    map_m (janela_de dados tamanho_bloco) (map Z.of_nat (seq k m))
    = Ret (janelas_spec fuel (Z.to_nat tamanho_bloco)
                        (Z.of_nat k * tamanho_bloco)
                        (skipn (k * Z.to_nat tamanho_bloco) dados)).
Proof.
  assert (Hn : (1 <= Z.to_nat tamanho_bloco)%nat) by lia.
  induction m as [|m IH]; intros k fuel Hcob Hult Hfuel.
  - cbn [seq map map_m].
    rewrite skipn_all2 by lia. destruct fuel; reflexivity.
  - assert (Hk : (k * Z.to_nat tamanho_bloco < List.length dados)%nat).
    { specialize (Hult ltac:(lia)). nia. }
    cbn [seq map map_m]. rewrite (janela_de_ret k Hk). cbn [bind].
    destruct fuel as [|f]; [lia|].
    rewrite (IH (S k) f); [|nia| |nia].
    2:{ intros Hm. specialize (Hult ltac:(lia)).
        replace (S m - 1)%nat with (S (m - 1)) in Hult by lia. nia. }
    cbn [bind janelas_spec].
    destruct (skipn (k * Z.to_nat tamanho_bloco) dados) as [|x r] eqn:E.
    { apply (f_equal (@List.length byte)) in E. rewrite length_skipn in E.
      simpl in E. lia. }
    rewrite <- E, skipn_skipn.
    replace (Z.to_nat tamanho_bloco + k * Z.to_nat tamanho_bloco)%nat
      with (S k * Z.to_nat tamanho_bloco)%nat by lia.
    replace (Z.of_nat k * tamanho_bloco + Z.of_nat (Z.to_nat tamanho_bloco))
      with (Z.of_nat (S k) * tamanho_bloco) by lia.
    reflexivity.
Qed.
End Janelas.

(** C8, amended: for every buffer and every positive window size the
    density map is the buffer cut into consecutive windows of that size,
    the last one truncated, in offset order; each row gives the bounds of
    its window and, over the length of the window, the counts of its
    bytes in four mutually exclusive classes: null (byte == 0), control
    (0 < byte < 32, null excluded), printable ASCII (32 <= byte <= 127)
    and other (the remainder). *)
Theorem C8_mapa_densidade (dados : bytes) (tamanho_bloco : Z) :
  0 < tamanho_bloco ->
  gerar_mapa_densidade dados tamanho_bloco
  = Ret (mapa_densidade_spec dados tamanho_bloco).
Proof.
  intros Hpos. unfold gerar_mapa_densidade, floordiv, mapa_densidade_spec.
  destruct (Z.eqb_spec tamanho_bloco 0); [lia|]. cbn [bind]. unfold range.
  pose proof (Z.div_mod (len dados + tamanho_bloco - 1) tamanho_bloco
                        ltac:(lia)) as Hdm.
  pose proof (Z.mod_pos_bound (len dados + tamanho_bloco - 1) tamanho_bloco
                              Hpos) as Hmod.
  pose proof (len_nonneg dados) as Hlen.
  set (t := (len dados + tamanho_bloco - 1) / tamanho_bloco) in *.
  assert (Ht : 0 <= t) by nia.
  rewrite (janelas_de_seq dados tamanho_bloco Hpos (Z.to_nat t) 0
                          (List.length dados)).
  - reflexivity.
  - unfold len in *. nia.
  - intros Hm. unfold len in *. nia.
  - lia.
Qed.

(** A window size of 0 makes the method raise, at the division that
    counts the windows. *)
Lemma mapa_densidade_janela_zero (dados : bytes) :
  gerar_mapa_densidade dados 0 = Raise ZeroDivisionError.
Proof. reflexivity. Qed.

Lemma C8_mapa_densidade_witness :
  0 < 3
  /\ gerar_mapa_densidade buffer_cenario 3
     = Ret (mapa_densidade_spec buffer_cenario 3).
Proof.
  split; [lia|]. apply (C8_mapa_densidade buffer_cenario 3). lia.
Defined.

(** * Further properties of the analysis *)

(** ** The signature test *)

Lemma valor_inj (b c : byte) : valor b = valor c -> b = c.
Proof.
  unfold valor. intros H. apply N2Z.inj in H.
  pose proof (Byte.of_to_N b) as Hb. rewrite H, Byte.of_to_N in Hb.
  congruence.
Qed.

Lemma decode_ignore_um (b : byte) (r : bytes) (c : Z) (t : str) :
  decode_ignore (b :: r) = c :: t ->
  List.length t = List.length r ->
  valor b = c /\ decode_ignore r = t.
Proof.
  intros E Hl. destruct (Z.ltb_spec (valor b) 128) as [Hlt|Hge].
  - cbn [decode_ignore] in E. cbv zeta in E.
    destruct (Z.ltb_spec (valor b) 128); [|lia]. injection E as E1 E2. auto.
  - pose proof (decode_ignore_nao_ascii b r Hge) as Hn.
    rewrite E in Hn. simpl in Hn. lia.
Qed.

(** The signature test, which decodes the first three bytes leniently,
    lets through exactly the buffers that start with the bytes "HE3". *)
Lemma assinatura_ok_iff (dados : bytes) :
  assinatura_ok dados = true <-> exists r, dados = b_lit "HE3" ++ r.
Proof.
  split.
  - intros H. pose proof (assinatura_ok_len dados H) as Hlen.
    unfold assinatura_ok in H. apply andb_true_iff in H. destruct H as [_ H].
    unfold str_eqb in H.
    destruct (list_eq_dec Z.eq_dec (decode_ignore (slice dados 0 3))
                          (lit "HE3")) as [E|]; [|discriminate].
    destruct dados as [|b0 [|b1 [|b2 r]]];
      try (unfold len in Hlen; simpl in Hlen; lia).
    change (slice (b0 :: b1 :: b2 :: r) 0 3) with [b0; b1; b2] in E.
    change (lit "HE3") with [72; 69; 51] in E.
    apply decode_ignore_um in E; [|reflexivity]. destruct E as [E0 E].
    apply decode_ignore_um in E; [|reflexivity]. destruct E as [E1 E].
    apply decode_ignore_um in E; [|reflexivity]. destruct E as [E2 _].
    exists r.
    rewrite (valor_inj b0 x48 E0), (valor_inj b1 x45 E1),
      (valor_inj b2 x33 E2). reflexivity.
  - intros (r & ->). unfold assinatura_ok.
    change (b_lit "HE3" ++ r) with (x48 :: x45 :: x33 :: r).
    change (slice (x48 :: x45 :: x33 :: r) 0 3) with [x48; x45; x33].
    rewrite !len_cons. pose proof (len_nonneg r).
    destruct (Z.geb_spec (1 + (1 + (1 + len r))) 3); [|lia]. reflexivity.
Qed.

(** ** Null regions: what is recorded and what is not *)

Section MapearForte.
Variable dados : bytes.

Lemma mapear_passo_forte (fuel : nat) (i : Z) (rs : list regiao) :
  (List.length dados <= fuel)%nat -> 0 <= i < len dados ->
  regioes_fortes dados i rs ->
  exists i2 rs',
    mapear_passo dados fuel (i, rs) = Ret (i2, rs')
    /\ regioes_fortes dados i2 rs'.
Proof.
  intros Hf Hi (Hmax & Hcomp & Hcur). unfold mapear_passo.
  destruct (avanca_ok dados nao_nulo fuel i) as (i1 & E1 & R1 & A1 & S1);
    [lia|assumption|].
  rewrite E1. simpl.
  destruct (avanca_ok dados nulo fuel i1) as (i2 & E2 & R2 & A2 & S2);
    [lia|assumption|].
  rewrite E2. simpl.
  assert (N1 : forall j, i <= j < i1 ->
                 exists v, getitem dados j = Ret v /\ v <> 0).
  { intros j Hj. destruct (A1 j Hj) as (v & Hv & Hp). exists v.
    split; [exact Hv|]. unfold nao_nulo in Hp. lia. }
  assert (Z2 : forall j, i1 <= j < i2 -> getitem dados j = Ret 0).
  { intros j Hj. destruct (A2 j Hj) as (v & Hv & Hp).
    unfold nulo in Hp. apply Z.eqb_eq in Hp. subst v. exact Hv. }
  assert (N2 : i2 < len dados ->
               exists v, getitem dados i2 = Ret v /\ v <> 0).
  { intros Hlt. destruct (S2 Hlt) as (v & Hv & Hp). exists v.
    split; [exact Hv|]. unfold nulo in Hp. lia. }
  assert (Z1 : i1 < len dados -> getitem dados i1 = Ret 0).
  { intros Hlt. destruct (S1 Hlt) as (v & Hv & Hp).
    unfold nao_nulo in Hp. assert (v = 0) by lia. subst v. exact Hv. }
  assert (Hantes : forall a b,
             0 <= a <= b -> i <= b -> b < i2 ->
             (forall x, a <= x <= b -> getitem dados x = Ret 0) ->
             i1 <= a).
  { intros a b Ha Hb Hb2 Hrun.
    destruct (Z_lt_le_dec a i1) as [Hlt|]; [exfalso|assumption].
    destruct (Z_lt_le_dec a i) as [Hai|Hai].
    - specialize (Hrun i ltac:(lia)).
      destruct Hcur as [->|[Hge|(v & Hv & Hnz)]]; [lia|lia|].
      rewrite Hrun in Hv. injection Hv as <-. contradiction.
    - destruct (N1 a ltac:(lia)) as (v & Hv & Hnz).
      rewrite (Hrun a ltac:(lia)) in Hv. injection Hv as <-. contradiction. }
  eexists. eexists. split; [reflexivity|].
  assert (Hcur' : i2 = 0 \/ len dados <= i2
                  \/ exists v, getitem dados i2 = Ret v /\ v <> 0).
  { destruct (Z_lt_le_dec i2 (len dados)); auto. }
  unfold regioes_fortes.
  destruct (Z.geb_spec (i2 - 1 - i1 + 1) tamanho_min) as [Hge|Hsmall].
  - split; [|split; [|exact Hcur']].
    + apply Forall_app. split; [assumption|]. constructor; [|constructor].
      unfold regiao_maximal, tamanho_min in *. simpl.
      repeat split; try lia.
      * intros x Hx. apply Z2. lia.
      * intros Hpos. destruct (Z.eq_dec i1 i) as [->|Hne].
        -- destruct Hcur as [->|[Hge'|(v & Hv & Hnz)]]; [lia|lia|].
           rewrite (Z1 ltac:(lia)) in Hv. injection Hv as <-. contradiction.
        -- apply N1. lia.
      * intros Hlt. replace (i2 - 1 + 1) with i2 by lia. apply N2. lia.
    + intros a b Ha Hab Hb Hrun.
      destruct (Z_lt_le_dec b i) as [Hbi|Hbi].
      * destruct (Hcomp a b Ha Hab Hbi Hrun) as (r & Hin & Hr).
        exists r. split; [apply in_or_app; left; exact Hin|exact Hr].
      * unfold tamanho_min in *.
        pose proof (Hantes a b ltac:(lia) Hbi Hb Hrun) as Ha1.
        eexists. split; [apply in_or_app; right; left; reflexivity|].
        simpl. lia.
  - split; [exact Hmax|]. split; [|exact Hcur'].
    intros a b Ha Hab Hb Hrun.
    destruct (Z_lt_le_dec b i) as [Hbi|Hbi].
    + exact (Hcomp a b Ha Hab Hbi Hrun).
    + unfold tamanho_min in *.
      pose proof (Hantes a b ltac:(lia) Hbi Hb Hrun) as Ha1. lia.
Qed.

(** The scan of a whole buffer, started on an empty list: the regions it
    finds, with what holds of them. *)
Lemma mapear_laco_forte :
  exists i rs,
    mapear_laco dados (List.length dados) [] = Ret (i, rs)
    /\ regioes_ate dados (len dados) rs
    /\ regioes_fortes dados (len dados) rs.
Proof.
  unfold mapear_laco.
  destruct (while_regra
    (fun s : Z * list regiao => Ret (fst s <? len dados))
    (mapear_passo dados (List.length dados))
    (fun s => regioes_ate dados (fst s) (snd s)
              /\ regioes_fortes dados (fst s) (snd s))
    (fun s => Z.to_nat (len dados - fst s)))
    with (fuel := List.length dados) (s := (0, @nil regiao))
    as ([i rs'] & Hw & (Hate & Hfor) & Hc).
  - intros s _. eauto.
  - intros [i r] (Hate & Hfor) Hc. simpl in *. injection Hc as Hc.
    apply Z.ltb_lt in Hc.
    destruct (mapear_passo_ok dados (List.length dados) i r)
      as (i2 & rs2 & E & Hp & Hate'); auto.
    destruct (mapear_passo_forte (List.length dados) i r)
      as (i3 & rs3 & E' & Hfor'); auto.
    { destruct Hate as ((? & ?) & _). lia. }
    rewrite E in E'. injection E' as <- <-.
    exists (i2, rs2). simpl. split; [exact E|]. split; [auto|].
    destruct Hate' as (? & _). lia.
  - simpl. split.
    + unfold regioes_ate. simpl. pose proof (len_nonneg dados).
      repeat split; try lia. constructor.
    + unfold regioes_fortes. split; [constructor|]. split; [|auto].
      intros a b Ha Hab Hb. unfold tamanho_min in Hab. lia.
  - simpl. unfold len. lia.
  - exists i, rs'. split; [assumption|]. simpl in *.
    injection Hc as Hc. apply Z.ltb_ge in Hc.
    destruct Hate as ((Hi1 & Hi2) & Hch & Hall).
    assert (i = len dados) by lia. subst i.
    split; [repeat split; auto; lia|exact Hfor].
Qed.
End MapearForte.

(** The regions of a successful run are those of the scan of the buffer
    on an empty list. *)
Lemma analisar_regioes (agora : nat -> Z) (dados : bytes) (nome : str) s a :
  analisar agora dados nome = Ret (s, Some a) ->
  exists i, mapear_laco dados (List.length dados) [] = Ret (i, regioes_nulas s).
Proof.
  unfold analisar, carregar_arquivo. intros H.
  destruct (assinatura_ok dados) eqn:Hsig; [|discriminate].
  pose proof (assinatura_ok_len dados Hsig) as Hlen.
  rewrite !percentual_ret in H by lia. simpl bind in H.
  unfold mapear_regioes_nulas in H. simpl regioes_nulas in H.
  destruct (mapear_laco dados (List.length dados) []) as [[i rs]|e];
    simpl in H; [|discriminate].
  unfold extrair_notas_fiscais in H. simpl in H.
  destruct (notas_dos_blocos agora dados 0
              (filter e_dados (blocos_de dados rs [])) [] 1)
    as [[notas n]|e] eqn:En; simpl in H; [|discriminate].
  injection H as <- <-. simpl. eauto.
Qed.

(** X4: Every null region recorded by a successful run lies inside the
    buffer, holds at least 20 bytes, all of them null, records its own
    length, and is a whole run: the byte before it and the byte after
    it, where the buffer has them, are not null. *)
Theorem regioes_nulas_sao_sequencias_maximais (agora : nat -> Z)
        (dados : bytes) (nome : str) s a :
  analisar agora dados nome = Ret (s, Some a) ->
  forall r, In r (regioes_nulas s) ->
    0 <= r_inicio r /\ r_fim r < len dados
    /\ 20 <= r_tamanho r
    /\ r_tamanho r = r_fim r - r_inicio r + 1
    /\ (forall x, r_inicio r <= x <= r_fim r -> getitem dados x = Ret 0)
    /\ (0 < r_inicio r ->
        exists v, getitem dados (r_inicio r - 1) = Ret v /\ v <> 0)
    /\ (r_fim r + 1 < len dados ->
        exists v, getitem dados (r_fim r + 1) = Ret v /\ v <> 0).
Proof.
  intros H r Hr. destruct (analisar_regioes _ _ _ _ _ H) as (i & E).
  destruct (mapear_laco_forte dados) as (i' & rs & E' & _ & (Hmax & _)).
  rewrite E in E'. injection E' as _ <-.
  rewrite Forall_forall in Hmax. exact (Hmax r Hr).
Qed.

Lemma regioes_nulas_sao_sequencias_maximais_witness :
  exists s a r,
    analisar relogio0 buffer_cenario [] = Ret (s, Some a)
    /\ nth_error (regioes_nulas s) 0 = Some r
    /\ 0 <= r_inicio r /\ r_fim r < len buffer_cenario
    /\ 20 <= r_tamanho r
    /\ r_tamanho r = r_fim r - r_inicio r + 1
    /\ (forall x, r_inicio r <= x <= r_fim r ->
                  getitem buffer_cenario x = Ret 0)
    /\ (0 < r_inicio r ->
        exists v, getitem buffer_cenario (r_inicio r - 1) = Ret v /\ v <> 0)
    /\ (r_fim r + 1 < len buffer_cenario ->
        exists v, getitem buffer_cenario (r_fim r + 1) = Ret v /\ v <> 0).
Proof.
  eexists. eexists. eexists. split; [vm_compute; reflexivity|].
  split; [reflexivity|].
  eapply (regioes_nulas_sao_sequencias_maximais relogio0 buffer_cenario []).
  - vm_compute. reflexivity.
  - left. reflexivity.
Defined.

(** X5: No long run of null bytes is missed: after a successful run, every
    stretch of at least 20 consecutive null bytes of the buffer lies
    inside one recorded region. *)
Theorem toda_sequencia_longa_e_registrada (agora : nat -> Z)
        (dados : bytes) (nome : str) s a :
  analisar agora dados nome = Ret (s, Some a) ->
  forall x y,
    0 <= x -> x + 19 <= y -> y < len dados ->
    (forall z, x <= z <= y -> getitem dados z = Ret 0) ->
    exists r, In r (regioes_nulas s) /\ r_inicio r <= x /\ y <= r_fim r.
Proof.
  intros H x y Hx Hxy Hy Hrun.
  destruct (analisar_regioes _ _ _ _ _ H) as (i & E).
  destruct (mapear_laco_forte dados) as (i' & rs & E' & _ & (_ & Hcomp & _)).
  rewrite E in E'. injection E' as _ <-.
  apply (Hcomp x y); auto. unfold tamanho_min. lia.
Qed.

Lemma toda_sequencia_longa_e_registrada_witness :
  exists s a,
    analisar relogio0 buffer_cenario [] = Ret (s, Some a)
    /\ exists r, In r (regioes_nulas s)
                 /\ r_inicio r <= 110 /\ 130 <= r_fim r.
Proof.
  eexists. eexists. split; [vm_compute; reflexivity|].
  refine (toda_sequencia_longa_e_registrada relogio0 buffer_cenario []
            _ _ _ 110 130 _ _ _ _).
  - vm_compute. reflexivity.
  - lia.
  - lia.
  - vm_compute. reflexivity.
  - intros z Hz.
    assert (Hc : z = 110 \/ z = 111 \/ z = 112 \/ z = 113 \/ z = 114
                 \/ z = 115 \/ z = 116 \/ z = 117 \/ z = 118 \/ z = 119
                 \/ z = 120 \/ z = 121 \/ z = 122 \/ z = 123 \/ z = 124
                 \/ z = 125 \/ z = 126 \/ z = 127 \/ z = 128 \/ z = 129
                 \/ z = 130) by lia.
    repeat (destruct Hc as [->|Hc]; [reflexivity|]). subst z. reflexivity.
Defined.

Lemma encadeadas_ordem (rs : list regiao) :
  forall c c' i j r r',
    encadeadas c c' rs ->
    nth_error rs i = Some r -> nth_error rs j = Some r' -> (i < j)%nat ->
    r_fim r + 1 <= r_inicio r'.
Proof.
  induction rs as [|x rs IH]; intros c c' i j r r' H Hi Hj Hlt.
  - destruct i; discriminate.
  - simpl in H. destruct H as (_ & _ & _ & Hd).
    destruct j as [|j]; [lia|]. simpl in Hj.
    destruct i as [|i].
    + simpl in Hi. injection Hi as <-.
      apply nth_error_In in Hj.
      destruct (encadeadas_inicio _ _ _ _ Hd Hj) as (? & _). lia.
    + simpl in Hi. apply (IH _ _ i j r r' Hd Hi Hj). lia.
Qed.

(** X6: The recorded regions are in ascending order and never touch: between
    a region and any later one there is at least one byte that belongs
    to neither. *)
Theorem regioes_nulas_em_ordem_e_separadas (agora : nat -> Z)
        (dados : bytes) (nome : str) s a :
  analisar agora dados nome = Ret (s, Some a) ->
  forall i j r r',
    nth_error (regioes_nulas s) i = Some r ->
    nth_error (regioes_nulas s) j = Some r' ->
    (i < j)%nat ->
    r_fim r + 1 < r_inicio r'.
Proof.
  intros H i j r r' Hi Hj Hlt.
  destruct (analisar_regioes _ _ _ _ _ H) as (k & E).
  destruct (mapear_laco_forte dados) as (k' & rs & E' & Hate & (Hmax & _)).
  rewrite E in E'. injection E' as _ <-.
  destruct Hate as (_ & Hch & _). rewrite Forall_forall in Hmax.
  pose proof (encadeadas_ordem _ _ _ i j r r' Hch Hi Hj Hlt) as Hle.
  destruct (Z.eq_dec (r_inicio r') (r_fim r + 1)) as [Heq|]; [|lia].
  exfalso.
  destruct (Hmax r (nth_error_In _ _ Hi)) as (_ & _ & _ & _ & _ & _ & Hdep).
  destruct (Hmax r' (nth_error_In _ _ Hj))
    as (_ & Hf' & Ht' & Htam' & Hz' & _).
  unfold tamanho_min in Ht'.
  destruct Hdep as (v & Hv & Hnz); [lia|].
  rewrite <- Heq, (Hz' (r_inicio r') ltac:(lia)) in Hv.
  injection Hv as <-. contradiction.
Qed.

Lemma regioes_nulas_em_ordem_e_separadas_witness :
  exists s a r r',
    analisar relogio0 buffer_cenario [] = Ret (s, Some a)
    /\ nth_error (regioes_nulas s) 0 = Some r
    /\ nth_error (regioes_nulas s) 1 = Some r'
    /\ r_fim r + 1 < r_inicio r'.
Proof.
  eexists. eexists. eexists. eexists. split; [vm_compute; reflexivity|].
  split; [reflexivity|]. split; [reflexivity|].
  refine (regioes_nulas_em_ordem_e_separadas relogio0 buffer_cenario []
            _ _ _ 0%nat 1%nat _ _ _ _ _).
  - vm_compute. reflexivity.
  - reflexivity.
  - reflexivity.
  - lia.
Defined.

(** ** Acceptance and rejection *)

(** X1: A run returns the file record exactly when the buffer starts with
    the three bytes "HE3": the lenient decoding of the signature test
    lets no other buffer through. *)
Theorem aceita_sse_comeca_com_HE3 (agora : nat -> Z) (dados : bytes)
        (nome : str) :
  (exists s a, analisar agora dados nome = Ret (s, Some a))
  <-> (exists r, dados = b_lit "HE3" ++ r).
Proof.
  rewrite <- assinatura_ok_iff. split.
  - intros (s & a & H). destruct (analisar_partes _ _ _ _ _ H) as (Hs & _).
    exact Hs.
  - intros Hs. destruct (analisar_total agora dados nome)
      as (s & r & H & Hsome & _).
    destruct (Hsome Hs) as (a & ->). eauto.
Qed.

(** X2: On a buffer that does not start with the bytes "HE3" a run returns
    [None], hands exactly one message to [st.error], reads the clock
    once, and leaves the analyzer without regions, blocks or records;
    the file record it stores is the one its constructor made (name and
    size set, empty signature, percentages and counts at zero). *)
Theorem rejeicao_sem_assinatura (agora : nat -> Z) (dados : bytes)
        (nome : str) :
  (forall r, dados <> b_lit "HE3" ++ r) ->
  exists s,
    analisar agora dados nome = Ret (s, None)
    /\ st_erros s = [msg_sem_assinatura]
    /\ regioes_nulas s = [] /\ blocos s = [] /\ notas_fiscais s = []
    /\ lidas s = 1%nat
    /\ arquivo s = Some (ArquivoBackup_init agora nome (len dados) 0).
Proof.
  intros Hno.
  assert (Hs : assinatura_ok dados = false).
  { destruct (assinatura_ok dados) eqn:E; [|reflexivity].
    apply assinatura_ok_iff in E. destruct E as (r & E).
    destruct (Hno r E). }
  unfold analisar, carregar_arquivo. rewrite Hs.
  eexists. split; [reflexivity|]. simpl. auto 10.
Qed.

Lemma rejeicao_sem_assinatura_witness :
  (forall r, b_lit "XYZ" <> b_lit "HE3" ++ r)
  /\ exists s,
       analisar relogio0 (b_lit "XYZ") [] = Ret (s, None)
       /\ st_erros s = [msg_sem_assinatura]
       /\ regioes_nulas s = [] /\ blocos s = [] /\ notas_fiscais s = []
       /\ lidas s = 1%nat
       /\ arquivo s
          = Some (ArquivoBackup_init relogio0 [] (len (b_lit "XYZ")) 0).
Proof.
  assert (H : forall r, b_lit "XYZ" <> b_lit "HE3" ++ r).
  { intros r E. vm_compute in E. discriminate E. }
  split; [exact H|].
  exact (rejeicao_sem_assinatura relogio0 (b_lit "XYZ") [] H).
Defined.

(** ** The file record *)

Lemma analisar_arquivo (agora : nat -> Z) (dados : bytes) (nome : str) s a :
  analisar agora dados nome = Ret (s, Some a) ->
  nome_arquivo a = nome
  /\ assinatura a = lit "HE3"
  /\ versao_formato a = strip (decode_ignore (bytes_versao dados))
  /\ data_criacao a = agora 0%nat
  /\ capacidade_estimada a = 0
  /\ st_erros s = [].
Proof.
  unfold analisar, carregar_arquivo. intros H.
  destruct (assinatura_ok dados) eqn:Hsig; [|discriminate].
  pose proof (assinatura_ok_len dados Hsig) as Hlen.
  rewrite !percentual_ret in H by lia. simpl bind in H.
  unfold mapear_regioes_nulas in H. simpl regioes_nulas in H.
  destruct (mapear_laco dados (List.length dados) []) as [[i rs]|e];
    simpl in H; [|discriminate].
  unfold extrair_notas_fiscais in H. simpl in H.
  destruct (notas_dos_blocos agora dados 0
              (filter e_dados (blocos_de dados rs [])) [] 1)
    as [[notas n]|e] eqn:En; simpl in H; [|discriminate].
  injection H as <- <-. simpl. auto 10.
Qed.

Lemma lstrip_len (s : str) : (List.length (lstrip s) <= List.length s)%nat.
Proof.
  induction s as [|c s IH]; [simpl; lia|]. simpl.
  destruct (isspace c); simpl; lia.
Qed.

Lemma strip_len (s : str) : (List.length (strip s) <= List.length s)%nat.
Proof.
  unfold strip. rewrite length_rev.
  pose proof (lstrip_len (rev (lstrip s))) as H1.
  rewrite length_rev in H1. pose proof (lstrip_len s). lia.
Qed.

Lemma decode_ignore_ascii (l : bytes) :
  forallb (fun b => valor b <? 128) l = true ->
  decode_ignore l = map valor l.
Proof.
  induction l as [|b l IH]; [reflexivity|]. intros H.
  cbn [forallb] in H. apply andb_true_iff in H. destruct H as [Hb Hl].
  cbn [decode_ignore map]. cbv zeta. rewrite Hb, (IH Hl). reflexivity.
Qed.

(** X3: The version tag of an accepted buffer has at most 4 characters;
    when the bytes 3 to 6 of the buffer are ASCII, it is exactly these
    bytes with the whitespace at both ends removed (a NUL byte is not
    whitespace and stays). *)
Theorem versao_formato_ate_quatro (agora : nat -> Z) (dados : bytes)
        (nome : str) s a :
  analisar agora dados nome = Ret (s, Some a) ->
  (List.length (versao_formato a) <= 4)%nat
  /\ (forallb (fun b => valor b <? 128) (bytes_versao dados) = true ->
      versao_formato a = strip (map valor (bytes_versao dados))).
Proof.
  intros H. destruct (analisar_arquivo _ _ _ _ _ H) as (_ & _ & Hv & _).
  rewrite Hv. split.
  - pose proof (strip_len (decode_ignore (bytes_versao dados))) as H1.
    pose proof (decode_ignore_len _ (bytes_versao dados) (Nat.le_refl _))
      as H2.
    assert (H3 : (List.length (bytes_versao dados) <= 4)%nat).
    { unfold bytes_versao, slice. rewrite length_firstn. lia. }
    lia.
  - intros Hasc. rewrite (decode_ignore_ascii _ Hasc). reflexivity.
Qed.

Lemma versao_formato_ate_quatro_witness :
  exists s a,
    analisar relogio0 buffer_cenario [] = Ret (s, Some a)
    /\ (List.length (versao_formato a) <= 4)%nat
    /\ (forallb (fun b => valor b <? 128) (bytes_versao buffer_cenario)
        = true ->
        versao_formato a = strip (map valor (bytes_versao buffer_cenario))).
Proof.
  eexists. eexists. split; [vm_compute; reflexivity|].
  refine (versao_formato_ate_quatro relogio0 buffer_cenario [] _ _ _).
  vm_compute. reflexivity.
Defined.

(** ** Blocks: their shape, order and content flags *)

Section Forma.
Variable dados : bytes.

Lemma blocos_laco_forma (rs : list regiao) :
  forall p bl,
    fold_left (blocos_passo dados) rs (p, bl)
    = (cursor_final p rs, bl ++ blocos_entre_regioes dados p rs).
Proof.
  induction rs as [|r rs IH]; intros p bl.
  - simpl. rewrite app_nil_r. reflexivity.
  - cbn [fold_left blocos_entre_regioes cursor_final].
    assert (Est : blocos_passo dados (p, bl) r
                  = (r_fim r + 1,
                     if r_inicio r >? p
                     then bl ++ [bloco_antes dados p r] else bl))
      by reflexivity.
    rewrite Est, IH. destruct (r_inicio r >? p).
    + rewrite <- app_assoc. reflexivity.
    + reflexivity.
Qed.

(** [identificar_blocos] only ever appends: the blocks it was given stay
    in front, followed by the blocks between the sorted regions and, if
    the cursor has not reached the end, the final block. *)
Lemma blocos_de_forma (rs : list regiao) (bl : list BlocoEstrutura) :
  blocos_de dados rs bl
  = bl ++ blocos_entre_regioes dados 0 (sorted_inicio rs)
       ++ (if cursor_final 0 (sorted_inicio rs) <? len dados
           then [bloco_final dados (cursor_final 0 (sorted_inicio rs))]
           else []).
Proof.
  unfold blocos_de. rewrite blocos_laco_forma.
  destruct (cursor_final 0 (sorted_inicio rs) <? len dados).
  - rewrite <- app_assoc. reflexivity.
  - rewrite app_nil_r. reflexivity.
Qed.

Lemma blocos_separados_menor (bl : list BlocoEstrutura) (c c' : Z) :
  blocos_separados c bl -> c' <= c -> blocos_separados c' bl.
Proof.
  destruct bl as [|b bl]; simpl; [auto|].
  intros (H1 & H2 & H3) Hle. repeat split; auto. lia.
Qed.

Lemma cursor_final_le (rs : list regiao) :
  forall p c', encadeadas p c' rs -> p <= cursor_final p rs <= c'.
Proof.
  induction rs as [|r rs IH]; simpl; intros p c' H; [lia|].
  destruct H as (H1 & H2 & H3 & H4). specialize (IH _ _ H4). lia.
Qed.

Lemma blocos_entre_regioes_separados (rs : list regiao) :
  forall p,
    encadeadas p (len dados) rs ->
    Forall (fun r => tamanho_min <= r_tamanho r) rs ->
    blocos_separados p
      (blocos_entre_regioes dados p rs
       ++ (if cursor_final p rs <? len dados
           then [bloco_final dados (cursor_final p rs)] else [])).
Proof.
  induction rs as [|r rs IH]; intros p H Hall.
  - simpl in *. destruct (Z.ltb_spec p (len dados)); simpl; auto.
    repeat split; lia.
  - simpl in H. destruct H as (H1 & H2 & H3 & H4).
    inversion Hall as [|? ? Hr Hall']; subst.
    specialize (IH _ H4 Hall').
    cbn [blocos_entre_regioes cursor_final].
    destruct (Z.gtb_spec (r_inicio r) p) as [Hgt|Hle].
    + rewrite <- app_assoc. cbn [app blocos_separados].
      destruct (bloco_antes_entre dados p r rs) as (_ & Hi & Hf); [lia..|].
      rewrite Hi, Hf. repeat split; try lia.
      eapply blocos_separados_menor; [exact IH|]. lia.
    + cbn [app]. eapply blocos_separados_menor; [exact IH|]. lia.
Qed.

Lemma blocos_separados_ordem (bl : list BlocoEstrutura) :
  forall c i j b b',
    blocos_separados c bl ->
    nth_error bl i = Some b -> nth_error bl j = Some b' -> (i < j)%nat ->
    posicao_fim b + tamanho_min < posicao_inicio b'.
Proof.
  assert (Hmin : forall bl c b, blocos_separados c bl -> In b bl ->
                                c <= posicao_inicio b).
  { induction bl0 as [|x bl0 IH]; simpl; intros c b H Hin; [tauto|].
    destruct H as (H1 & H2 & H3). destruct Hin as [->|Hin]; [lia|].
    specialize (IH _ _ H3 Hin). unfold tamanho_min in *. lia. }
  induction bl as [|x bl IH]; intros c i j b b' H Hi Hj Hlt.
  - destruct i; discriminate.
  - simpl in H. destruct H as (H1 & H2 & H3).
    destruct j as [|j]; [lia|]. simpl in Hj.
    destruct i as [|i].
    + simpl in Hi. injection Hi as <-.
      pose proof (Hmin _ _ _ H3 (nth_error_In _ _ Hj)). lia.
    + simpl in Hi. apply (IH _ i j b b' H3 Hi Hj). lia.
Qed.
End Forma.

(** X7: The blocks of a successful run are in ascending order, and between
    a block and any later one lie at least 20 bytes that belong to
    neither (a null region). *)
Theorem blocos_em_ordem_e_separados (agora : nat -> Z) (dados : bytes)
        (nome : str) s a :
  analisar agora dados nome = Ret (s, Some a) ->
  forall i j b b',
    nth_error (blocos s) i = Some b ->
    nth_error (blocos s) j = Some b' ->
    (i < j)%nat ->
    posicao_fim b + 20 < posicao_inicio b'.
Proof.
  intros H i j b b' Hi Hj Hlt.
  destruct (analisar_partes _ _ _ _ _ H)
    as (_ & _ & (_ & Hch & Hall) & Hbl & _).
  rewrite Hbl, blocos_de_forma,
    (sorted_inicio_encadeadas _ _ _ Hch) in Hi, Hj.
  cbn [app] in Hi, Hj.
  assert (Hsep := blocos_entre_regioes_separados dados (regioes_nulas s) 0 Hch).
  change 20 with tamanho_min.
  eapply blocos_separados_ordem; [apply Hsep| | |]; eauto.
  eapply Forall_impl; [|exact Hall]. intros r [Hr _]. exact Hr.
Qed.

Lemma blocos_em_ordem_e_separados_witness :
  exists s a b b',
    analisar relogio0 buffer_cenario [] = Ret (s, Some a)
    /\ nth_error (blocos s) 0 = Some b
    /\ nth_error (blocos s) 1 = Some b'
    /\ posicao_fim b + 20 < posicao_inicio b'.
Proof.
  eexists. eexists. eexists. eexists. split; [vm_compute; reflexivity|].
  split; [reflexivity|]. split; [reflexivity|].
  refine (blocos_em_ordem_e_separados relogio0 buffer_cenario []
            _ _ _ 0%nat 1%nat _ _ _ _ _).
  - vm_compute. reflexivity.
  - reflexivity.
  - reflexivity.
  - lia.
Defined.

Lemma valor_range (b : byte) : 0 <= valor b < 256.
Proof.
  unfold valor. pose proof (Byte.to_N_bounded b). lia.
Qed.

Lemma hex2_de_hex (vs : list Z) :
  Forall (fun v => 0 <= v < 256) vs ->
  de_hex (List.concat (map hex2 vs)) = vs.
Proof.
  induction 1 as [|v vs Hv _ IH]; [reflexivity|].
  cbn [map List.concat hex2 app de_hex]. rewrite IH. f_equal.
  assert (H1 : 0 <= v / 16 < 16)
    by (split; [apply Z.div_pos|apply Z.div_lt_upper_bound]; lia).
  assert (H2 : 0 <= v mod 16 < 16) by (apply Z.mod_pos_bound; lia).
  pose proof (Z.div_mod v 16 ltac:(lia)) as Hdm.
  unfold de_hexdig, hexdig.
  destruct (Z.ltb_spec (v / 16) 10), (Z.ltb_spec (v mod 16) 10);
    repeat match goal with
           | |- context [?x <? 58] => destruct (Z.ltb_spec x 58); try lia
           end.
Qed.

Lemma hex2_forma (vs : list Z) :
  Forall (fun v => 0 <= v < 256) vs ->
  List.length (List.concat (map hex2 vs)) = (2 * List.length vs)%nat
  /\ forallb e_hexdig (List.concat (map hex2 vs)) = true.
Proof.
  induction 1 as [|v vs Hv _ (IH1 & IH2)]; [split; reflexivity|].
  cbn [map List.concat hex2 app List.length forallb]. rewrite IH1, IH2.
  split; [lia|].
  assert (H1 : 0 <= v / 16 < 16)
    by (split; [apply Z.div_pos|apply Z.div_lt_upper_bound]; lia).
  assert (H2 : 0 <= v mod 16 < 16) by (apply Z.mod_pos_bound; lia).
  unfold e_hexdig, hexdig.
  destruct (Z.ltb_spec (v / 16) 10), (Z.ltb_spec (v mod 16) 10); lia.
Qed.

Lemma In_slice_iff {A} (l : list A) (a b : Z) (c : A) :
  0 <= a -> b <= len l ->
  (In c (slice l a b)
   <-> exists i, a <= i < b /\ nth_error l (Z.to_nat i) = Some c).
Proof.
  intros Ha Hb. split.
  - intros Hin. apply In_nth_error in Hin. destruct Hin as (n & Hn).
    assert (Hlt : Z.of_nat n < b - a).
    { assert (Hs : nth_error (slice l a b) n <> None) by congruence.
      apply nth_error_Some in Hs. unfold slice in Hs.
      rewrite length_firstn in Hs. lia. }
    rewrite nth_error_slice in Hn by lia.
    exists (a + Z.of_nat n). split; [lia|].
    replace (Z.to_nat (a + Z.of_nat n)) with (Z.to_nat a + n)%nat by lia.
    exact Hn.
  - intros (i & Hi & Hn). apply (nth_error_In _ (Z.to_nat (i - a))).
    rewrite nth_error_slice by lia.
    replace (Z.to_nat a + Z.to_nat (i - a))%nat with (Z.to_nat i) by lia.
    exact Hn.
Qed.

Section Conteudo.
Variable dados : bytes.

Lemma blocos_entre_regioes_In (rs : list regiao) :
  forall p b,
    In b (blocos_entre_regioes dados p rs) ->
    exists q r, In r rs /\ q < r_inicio r /\ b = bloco_antes dados q r.
Proof.
  induction rs as [|r rs IH]; intros p b Hin; [destruct Hin|].
  cbn [blocos_entre_regioes] in Hin. apply in_app_or in Hin.
  destruct Hin as [Hin|Hin].
  - destruct (Z.gtb_spec (r_inicio r) p); [|destruct Hin].
    destruct Hin as [<-|[]]. exists p, r.
    split; [left; reflexivity|]. split; [lia|reflexivity].
  - destruct (IH _ _ Hin) as (q & r' & Hr & Hq & ->).
    exists q, r'. split; [right; exact Hr|]. auto.
Qed.

(** Every block of a segmentation is either a block cut before a region
    or the final block. *)
Lemma blocos_de_In (rs : list regiao) (b : BlocoEstrutura) :
  In b (blocos_de dados rs []) ->
  (exists q r, In r (sorted_inicio rs) /\ q < r_inicio r
               /\ b = bloco_antes dados q r)
  \/ (exists q, q < len dados /\ b = bloco_final dados q).
Proof.
  rewrite blocos_de_forma. cbn [app]. intros Hin.
  apply in_app_or in Hin. destruct Hin as [Hin|Hin].
  - left. exact (blocos_entre_regioes_In _ _ _ Hin).
  - right. destruct (Z.ltb_spec (cursor_final 0 (sorted_inicio rs)) (len dados));
      [|destruct Hin].
    destruct Hin as [<-|[]]. eauto.
Qed.
End Conteudo.

(** X8: The header block and the final block of a successful run carry no
    content information, whatever their bytes: their text and binary
    flags are false and their hex signature is empty. *)
Theorem cabecalho_e_bloco_final_sem_conteudo (agora : nat -> Z)
        (dados : bytes) (nome : str) s a :
  analisar agora dados nome = Ret (s, Some a) ->
  forall b, In b (blocos s) ->
    tipo b = CABECALHO \/ posicao_fim b = len dados - 1 ->
    contem_texto b = false /\ contem_binario b = false
    /\ assinatura_hex b = [].
Proof.
  intros H b Hb Hk.
  destruct (analisar_partes _ _ _ _ _ H)
    as (_ & _ & (_ & Hch & _) & Hbl & _).
  rewrite Hbl in Hb. destruct (blocos_de_In dados _ b Hb)
    as [(q & r & Hr & Hq & ->)|(q & Hq & ->)].
  - rewrite (sorted_inicio_encadeadas _ _ _ Hch) in Hr.
    destruct (encadeadas_inicio _ _ _ _ Hch Hr) as (R1 & R2 & R3 & R4).
    unfold bloco_antes in *. destruct (Z.eqb_spec q 0) as [->|Hne].
    + simpl. auto.
    + simpl in Hk. destruct Hk as [Hk|Hk].
      * destruct (q <? 1024); discriminate.
      * lia.
  - simpl. auto.
Qed.

Lemma cabecalho_e_bloco_final_sem_conteudo_witness :
  exists s a b,
    analisar relogio0 buffer_nota [] = Ret (s, Some a)
    /\ nth_error (blocos s) 0 = Some b
    /\ contem_texto b = false /\ contem_binario b = false
    /\ assinatura_hex b = [].
Proof.
  eexists. eexists. eexists. split; [vm_compute; reflexivity|].
  split; [reflexivity|].
  refine (cabecalho_e_bloco_final_sem_conteudo relogio0 buffer_nota []
            _ _ _ _ _ _).
  - vm_compute. reflexivity.
  - left. reflexivity.
  - right. vm_compute. reflexivity.
Defined.

(** X9: For every other block of a successful run (one that is followed by
    a null region and is not the header): the binary flag holds exactly
    when some byte of the block is above 127, the text flag exactly when
    more than half of its bytes are printable ASCII, and the hex
    signature spells the first [min(16, tamanho)] bytes of the block,
    two lowercase hexadecimal digits a byte, so that the bytes can be
    read back from it. *)
Theorem conteudo_dos_blocos_internos (agora : nat -> Z)
        (dados : bytes) (nome : str) s a :
  analisar agora dados nome = Ret (s, Some a) ->
  forall b, In b (blocos s) ->
    tipo b <> CABECALHO -> posicao_fim b < len dados - 1 ->
    (contem_binario b = true
     <-> exists x v, posicao_inicio b <= x <= posicao_fim b
                     /\ getitem dados x = Ret v /\ 127 < v)
    /\ (contem_texto b = true
        <-> tamanho b < 2 * conta e_ascii (dados_do_bloco dados b))
    /\ de_hex (assinatura_hex b)
       = map valor (slice (dados_do_bloco dados b) 0 16)
    /\ len (assinatura_hex b) = 2 * Z.min 16 (tamanho b)
    /\ forallb e_hexdig (assinatura_hex b) = true.
Proof.
  intros H b Hb Hnc Hfim.
  destruct (analisar_partes _ _ _ _ _ H)
    as (_ & _ & (_ & Hch & _) & Hbl & _).
  rewrite Hbl in Hb. destruct (blocos_de_In dados _ b Hb)
    as [(q & r & Hr & Hq & E)|(q & Hq & ->)]; [|simpl in Hfim; lia].
  rewrite (sorted_inicio_encadeadas _ _ _ Hch) in Hr.
  destruct (encadeadas_inicio _ _ _ _ Hch Hr) as (R1 & R2 & R3 & R4).
  destruct (blocos_de_ok dados _ Hch) as (_ & Hval & _).
  rewrite Forall_forall in Hval.
  destruct (Hval b Hb) as (V1 & V2 & V3 & V4 & _).
  assert (Hq0 : q <> 0).
  { intros ->. subst b. unfold bloco_antes in Hnc. simpl in Hnc.
    contradiction. }
  assert (Hi : posicao_inicio b = q)
    by (subst b; unfold bloco_antes; destruct (q =? 0); reflexivity).
  assert (Hf : posicao_fim b = r_inicio r - 1)
    by (subst b; unfold bloco_antes; destruct (q =? 0); reflexivity).
  assert (Hdb : dados_do_bloco dados b = slice dados q (r_inicio r - 1 + 1)).
  { unfold dados_do_bloco. rewrite Hi, Hf. reflexivity. }
  assert (Hlen : len (dados_do_bloco dados b) = tamanho b).
  { rewrite len_dados_do_bloco; lia. }
  assert (Hflags :
            contem_binario b
            = existsb (fun c => valor c >? 127) (dados_do_bloco dados b)
            /\ contem_texto b
               = (2 * conta e_ascii (dados_do_bloco dados b)
                  >? len (dados_do_bloco dados b))
            /\ assinatura_hex b
               = List.concat (map (fun c => hex2 (valor c))
                                  (slice (dados_do_bloco dados b) 0 16))).
  { rewrite Hdb. subst b. unfold bloco_antes.
    destruct (Z.eqb_spec q 0); [contradiction|]. simpl. auto. }
  destruct Hflags as (Fb & Ft & Fh).
  assert (Hrange : Forall (fun v => 0 <= v < 256)
                          (map valor (slice (dados_do_bloco dados b) 0 16))).
  { apply Forall_forall. intros v Hv. apply in_map_iff in Hv.
    destruct Hv as (c & <- & _). apply valor_range. }
  assert (Hhex : assinatura_hex b
                 = List.concat
                     (map hex2 (map valor (slice (dados_do_bloco dados b) 0 16)))).
  { rewrite Fh, map_map. reflexivity. }
  split; [|split; [|split; [|split]]].
  - rewrite Fb, existsb_exists. unfold dados_do_bloco. split.
    + intros (c & Hin & Hc). apply In_slice_iff in Hin; [|lia|lia].
      destruct Hin as (x & Hx & Hn). exists x, (valor c).
      split; [lia|]. split; [|lia].
      destruct (getitem_dentro dados x) as (c' & Hc' & Hg); [lia|].
      rewrite Hn in Hc'. injection Hc' as <-. exact Hg.
    + intros (x & v & Hx & Hg & Hv).
      destruct (getitem_dentro dados x) as (c & Hc & Hg'); [lia|].
      rewrite Hg in Hg'. injection Hg' as ->.
      exists c. split; [|lia].
      apply In_slice_iff; [lia|lia|]. exists x. split; [lia|exact Hc].
  - rewrite Ft, Hlen. split; intros Ht; lia.
  - rewrite Hhex. apply hex2_de_hex. exact Hrange.
  - rewrite Hhex. destruct (hex2_forma _ Hrange) as (Hl & _).
    unfold len. rewrite Hl, length_map. unfold slice.
    rewrite length_firstn, length_skipn. unfold len in Hlen.
    change (Z.to_nat (16 - 0)) with 16%nat. change (Z.to_nat 0) with 0%nat.
    lia.
  - rewrite Hhex. apply hex2_forma. exact Hrange.
Qed.

Lemma conteudo_dos_blocos_internos_witness :
  exists s a b,
    analisar relogio0 buffer_cenario [] = Ret (s, Some a)
    /\ nth_error (blocos s) 1 = Some b
    /\ de_hex (assinatura_hex b)
       = map valor (slice (dados_do_bloco buffer_cenario b) 0 16)
    /\ len (assinatura_hex b) = 2 * Z.min 16 (tamanho b).
Proof.
  eexists. eexists. eexists. split; [vm_compute; reflexivity|].
  split; [reflexivity|].
  refine ((fun H => conj (proj1 (proj2 (proj2 H)))
                         (proj1 (proj2 (proj2 (proj2 H)))))
            (conteudo_dos_blocos_internos relogio0 buffer_cenario []
               _ _ _ _ _ _ _)).
  - vm_compute. reflexivity.
  - right. left. reflexivity.
  - vm_compute. discriminate.
  - vm_compute. reflexivity.
Defined.

Lemma filter_In_length {A} (f : A -> bool) (l : list A) (x : A) :
  In x l -> f x = true -> (1 <= List.length (filter f l))%nat.
Proof.
  intros Hin Hf.
  assert (H : In x (filter f l)) by (apply filter_In; auto).
  destruct (filter f l); [destruct H|simpl; lia].
Qed.

(** X10: Short null runs are absorbed, long ones never are: no block of a
    successful run holds 20 consecutive null bytes. *)
Theorem blocos_sem_sequencia_longa (agora : nat -> Z) (dados : bytes)
        (nome : str) s a :
  analisar agora dados nome = Ret (s, Some a) ->
  forall b x y,
    In b (blocos s) ->
    posicao_inicio b <= x -> x + 19 <= y -> y <= posicao_fim b ->
    ~ (forall z, x <= z <= y -> getitem dados z = Ret 0).
Proof.
  intros H b x y Hb Hx Hxy Hy Hrun.
  destruct (analisar_partes _ _ _ _ _ H)
    as (_ & _ & (_ & Hch & _) & Hbl & _).
  destruct (blocos_de_ok dados _ Hch) as (Hcob & Hval & _).
  rewrite <- Hbl in Hcob, Hval. rewrite Forall_forall in Hval.
  destruct (Hval b Hb) as (V1 & V2 & V3 & _).
  destruct (analisar_regioes _ _ _ _ _ H) as (i & E).
  destruct (mapear_laco_forte dados) as (i' & rs & E' & _ & (_ & Hcomp & _)).
  rewrite E in E'. injection E' as _ <-.
  destruct (Hcomp x y) as (r & Hr & Hr1 & Hr2); auto;
    try (unfold tamanho_min; lia).
  specialize (Hcob x). unfold cobertura in Hcob.
  pose proof (filter_In_length (cobre_bloco x) _ b Hb) as Hc1.
  pose proof (filter_In_length (cobre_regiao x) _ r Hr) as Hc2.
  unfold cobre_bloco in Hc1 at 1. unfold cobre_regiao in Hc2 at 1.
  specialize (Hc1 ltac:(lia)). specialize (Hc2 ltac:(lia)).
  destruct ((0 <=? x) && (x <? len dados)); lia.
Qed.

Lemma blocos_sem_sequencia_longa_witness :
  exists s a b,
    analisar relogio0 buffer_cenario [] = Ret (s, Some a)
    /\ nth_error (blocos s) 0 = Some b
    /\ ~ (forall z, 10 <= z <= 40 -> getitem buffer_cenario z = Ret 0).
Proof.
  eexists. eexists. eexists. split; [vm_compute; reflexivity|].
  split; [reflexivity|].
  refine (blocos_sem_sequencia_longa relogio0 buffer_cenario []
            _ _ _ _ 10 40 _ _ _ _).
  - vm_compute. reflexivity.
  - left. reflexivity.
  - vm_compute. discriminate.
  - lia.
  - vm_compute. discriminate.
Defined.

(** ** Invoice records: their fields *)

Lemma digitos_val_cota (s : str) :
  forall acc,
    0 <= acc ->
    forallb (fun c => (c =? 46) || ((48 <=? c) && (c <=? 57))) s = true ->
    0 <= digitos_val s acc < (acc + 1) * 10 ^ len s.
Proof.
  induction s as [|c s IH]; intros acc Hacc Hall.
  - simpl. unfold len. simpl. lia.
  - cbn [forallb] in Hall. apply andb_true_iff in Hall.
    destruct Hall as [Hc Hs]. cbn [digitos_val]. rewrite len_cons.
    pose proof (len_nonneg s) as Hl.
    replace (1 + len s) with (Z.succ (len s)) by lia.
    rewrite Z.pow_succ_r by assumption.
    assert (Hp : 0 < 10 ^ len s) by (apply Z.pow_pos_nonneg; lia).
    destruct (Z.eqb_spec c 46) as [->|Hn].
    + specialize (IH acc Hacc Hs). nia.
    + simpl in Hc. specialize (IH (10 * acc + (c - 48)) ltac:(lia) Hs). nia.
Qed.

(** What [float] answers on a literal of at most 8 characters is at
    least 0 and below 10^8. *)
Lemma float_decimal_cota (s : str) (v : Q) :
  float_decimal s = Ret v -> (List.length s <= 8)%nat ->
  (0 <= v)%Q /\ (v < 100000000)%Q.
Proof.
  unfold float_decimal. intros H Hl.
  destruct (isdigit (replace_dot_once s)); [|discriminate]. simpl in H.
  destruct (forallb (fun c => (c =? 46) || ((48 <=? c) && (c <=? 57))) s)
    eqn:Hall; [|discriminate].
  injection H as <-.
  pose proof (digitos_val_cota s 0 ltac:(lia) Hall) as Hd.
  assert (Hpow : 10 ^ len s <= 10 ^ 8).
  { apply Z.pow_le_mono_r; [lia|]. unfold len. lia. }
  change (10 ^ 8) with 100000000 in Hpow.
  assert (Hc : 0 < 10 ^ casas s).
  { apply Z.pow_pos_nonneg; [lia|].
    clear. induction s as [|c s IH]; simpl; [lia|].
    destruct (c =? 46); [apply len_nonneg|exact IH]. }
  destruct (10 ^ casas s) as [|p|p] eqn:Ep; try lia.
  unfold Qle, Qlt, Qdiv, Qmult, Qinv, inject_Z. simpl. split; nia.
Qed.

Lemma janela_valor_len (dados : bytes) (i : Z) :
  (List.length (janela_valor dados i) <= 8)%nat.
Proof.
  unfold janela_valor.
  pose proof (filter_length_le e_ascii
                (map valor (slice dados (i + 10) (i + 18)))) as H.
  rewrite length_map in H. unfold slice in H.
  rewrite length_firstn in H.
  etransitivity; [exact H|]. etransitivity; [apply Nat.le_min_l|]. lia.
Qed.

(** X12: Every record stored by a successful run is well formed: its number
    is the 6 ASCII digits found at its position, its series has at most
    3 characters, its total is positive and below 10^8, and it lies in
    the data block its block index names, with at least 20 bytes of
    that block from its position on. *)
Theorem notas_bem_formadas (agora : nat -> Z) (dados : bytes)
        (nome : str) s a :
  analisar agora dados nome = Ret (s, Some a) ->
  forall nota, In nota (notas_fiscais s) ->
    numero nota
    = map valor (slice dados (posicao_registro nota)
                             (posicao_registro nota + 6))
    /\ List.length (numero nota) = 6%nat
    /\ forallb e_digito (numero nota) = true
    /\ (List.length (serie nota) <= 3)%nat
    /\ (0 < valor_total nota)%Q /\ (valor_total nota < 100000000)%Q
    /\ exists k b,
         bloco_id nota = Z.of_nat k
         /\ nth_error (filter e_dados (blocos s)) k = Some b
         /\ In b (blocos s) /\ tipo b = DADOS
         /\ posicao_inicio b <= posicao_registro nota
         /\ posicao_registro nota + 20 <= posicao_fim b.
Proof.
  intros H nota Hin.
  destruct (notas_da_analise _ _ _ _ _ H) as (HA & _).
  destruct (HA nota Hin) as (k & b & mais & Hk & Hm & (Hsao & _)).
  destruct (Hsao nota Hm) as (i & Hi & Hac & Hreg).
  destruct Hreg as (Rid & Rpos & Rnum & Rser & Rval & _).
  destruct Hac as (Hseis & _ & v & Hv & Hvpos).
  destruct (analisar_partes _ _ _ _ _ H)
    as (_ & _ & (_ & Hch & _) & Hbl & _).
  destruct (blocos_de_ok dados _ Hch) as (_ & Hval & _).
  rewrite <- Hbl in Hval. rewrite Forall_forall in Hval.
  pose proof (nth_error_In _ _ Hk) as Hbin. apply filter_In in Hbin.
  destruct Hbin as [Hbin Hdados].
  destruct (Hval b Hbin) as (V1 & V2 & V3 & V4 & _).
  pose proof (len_dados_do_bloco dados b V1 V3 V2) as Hlen.
  rewrite Rval in Hv. injection Hv as Hv. subst v.
  destruct (float_decimal_cota _ _ Rval (janela_valor_len _ _)) as (_ & Hmax).
  assert (Hdig : forallb e_digito (numero nota) = true).
  { rewrite Rnum. apply seis_digitos_iff; [lia|lia|exact Hseis]. }
  split; [|split; [|split; [|split; [|split; [|split]]]]]; auto.
  - rewrite Rnum, Rpos. unfold dados_do_bloco.
    rewrite slice_slice by lia. f_equal. f_equal. lia.
  - rewrite Rnum, length_map.
    pose proof (len_slice (dados_do_bloco dados b) i (i + 6)) as L.
    unfold len in *. lia.
  - rewrite Rser.
    pose proof (strip_len (map valor (slice (dados_do_bloco dados b)
                                            (i + 6) (i + 9)))) as L.
    rewrite length_map in L. unfold slice in L.
    rewrite length_firstn in L. unfold slice. lia.
  - exists k, b. repeat split; auto; try lia.
    unfold e_dados in Hdados. destruct (tipo b); try discriminate.
    reflexivity.
Qed.

Lemma notas_bem_formadas_witness :
  exists s a nota,
    analisar relogio0 buffer_nota [] = Ret (s, Some a)
    /\ In nota (notas_fiscais s)
    /\ List.length (numero nota) = 6%nat
    /\ forallb e_digito (numero nota) = true
    /\ (List.length (serie nota) <= 3)%nat
    /\ (0 < valor_total nota)%Q /\ (valor_total nota < 100000000)%Q.
Proof.
  eexists. eexists. eexists. split; [vm_compute; reflexivity|].
  split; [left; reflexivity|].
  refine ((fun H => conj (proj1 (proj2 H))
                      (conj (proj1 (proj2 (proj2 H)))
                         (conj (proj1 (proj2 (proj2 (proj2 H))))
                            (conj (proj1 (proj2 (proj2 (proj2 (proj2 H)))))
                               (proj1 (proj2 (proj2 (proj2 (proj2 (proj2 H))))))))))
            (notas_bem_formadas relogio0 buffer_nota [] _ _ _ _ _)).
  - vm_compute. reflexivity.
  - left. reflexivity.
Defined.

(** ** Invoice records: their order *)

Lemma notas_crescentes_mono (ns : list NotaFiscal) (lo lo' hi hi' : Z) :
  notas_crescentes lo hi ns -> lo' <= lo -> hi <= hi' ->
  notas_crescentes lo' hi' ns.
Proof.
  revert lo lo'. induction ns as [|n ns IH]; simpl; intros lo lo' H H1 H2;
    [auto|].
  destruct H as (Hn & Hr). split; [lia|]. apply (IH _ _ Hr); lia.
Qed.

Lemma notas_crescentes_app (m1 m2 : list NotaFiscal) (lo mid hi : Z) :
  notas_crescentes lo mid m1 -> notas_crescentes mid hi m2 ->
  lo <= mid <= hi ->
  notas_crescentes lo hi (m1 ++ m2).
Proof.
  revert lo. induction m1 as [|n m1 IH]; simpl; intros lo H1 H2 Hle.
  - apply (notas_crescentes_mono _ _ _ _ _ H2); lia.
  - destruct H1 as (Hn & Hr). split; [lia|]. apply IH; auto. lia.
Qed.

Lemma notas_crescentes_ordem (ns : list NotaFiscal) :
  forall lo hi i j n n',
    notas_crescentes lo hi ns ->
    nth_error ns i = Some n -> nth_error ns j = Some n' -> (i < j)%nat ->
    posicao_registro n < posicao_registro n'.
Proof.
  assert (Hmin : forall ns lo hi n, notas_crescentes lo hi ns -> In n ns ->
                                    lo <= posicao_registro n).
  { induction ns0 as [|x ns0 IH]; simpl; intros lo hi n H Hin; [tauto|].
    destruct H as (H1 & H2). destruct Hin as [->|Hin]; [lia|].
    specialize (IH _ _ _ H2 Hin). lia. }
  induction ns as [|x ns IH]; intros lo hi i j n n' H Hi Hj Hlt.
  - destruct i; discriminate.
  - simpl in H. destruct H as (H1 & H2).
    destruct j as [|j]; [lia|]. simpl in Hj.
    destruct i as [|i].
    + simpl in Hi. injection Hi as <-.
      pose proof (Hmin _ _ _ _ H2 (nth_error_In _ _ Hj)). lia.
    + simpl in Hi. apply (IH _ _ i j n n' H2 Hi Hj). lia.
Qed.

Section Ordem.
Variable agora : nat -> Z.
Variable dados : bytes.

(** The records added by the scan of one block lie in the block and
    rise strictly in position. *)
Lemma notas_do_bloco_crescentes (k : Z) (b : BlocoEstrutura)
      (notas : list NotaFiscal) (n : nat) :
  0 <= posicao_inicio b -> posicao_inicio b <= posicao_fim b ->
  posicao_fim b < len dados ->
  exists novas n',
    notas_do_bloco agora dados k b notas n = Ret (notas ++ novas, n')
    /\ notas_crescentes (posicao_inicio b) (posicao_fim b + 1) novas.
Proof.
  intros Hini Hle Hfim. unfold notas_do_bloco.
  fold (dados_do_bloco dados b). set (db := dados_do_bloco dados b).
  assert (Hlen : len db = posicao_fim b - posicao_inicio b + 1)
    by (apply len_dados_do_bloco; assumption).
  destruct (while_regra
    (fun s : varredura => Ret (fst (fst s) <? len db - 20))
    (notas_passo agora db k (posicao_inicio b))
    (fun s : varredura =>
       0 <= fst (fst s) /\ (fst (fst s) = 0 \/ fst (fst s) <= len db - 20)
       /\ exists novas, snd (fst s) = notas ++ novas
                        /\ notas_crescentes (posicao_inicio b)
                             (posicao_inicio b + fst (fst s)) novas)
    (fun s : varredura => Z.to_nat (len db - 20 - fst (fst s))))
    with (fuel := List.length db) (s := (0, notas, n))
    as ([[i ns] n'] & Hw & (Hi & Hi' & novas & Hns & Hcres) & Hc).
  - intros s _. eauto.
  - intros [[i ns] m] (Hi & Hi' & novas & Hns & Hcres) Hc.
    cbn [fst snd] in *. injection Hc as Hc. apply Z.ltb_lt in Hc.
    destruct (notas_passo_ok agora db k (posicao_inicio b) i ns m Hi Hc)
      as (mais & m' & E & Hm' & Hcase).
    exists (i + 1, ns ++ mais, m'). cbn [fst snd].
    split; [exact E|]. split; [|lia].
    split; [lia|]. split; [lia|].
    exists (novas ++ mais). split; [rewrite Hns, app_assoc; reflexivity|].
    apply (notas_crescentes_app _ _ _ (posicao_inicio b + i)); [exact Hcres| |lia].
    destruct Hcase as [(_ & x & -> & Hreg)|(_ & ->)]; [|exact I].
    destruct Hreg as (_ & Hpos & _). simpl. split; [lia|exact I].
  - cbn [fst snd]. split; [lia|]. split; [auto|].
    exists []. split; [rewrite app_nil_r; reflexivity|exact I].
  - cbn [fst snd]. unfold len. lia.
  - rewrite Hw. cbn [bind fst snd] in *. subst ns.
    exists novas, n'. split; [reflexivity|].
    apply (notas_crescentes_mono _ _ _ _ _ Hcres); lia.
Qed.

(** The same over a list of blocks that follow one another. *)
Lemma notas_dos_blocos_crescentes (bs : list BlocoEstrutura) :
  forall c k notas n,
    0 <= c -> blocos_separados c bs ->
    Forall (fun b => posicao_fim b < len dados) bs ->
    exists novas n',
      notas_dos_blocos agora dados k bs notas n = Ret (notas ++ novas, n')
      /\ notas_crescentes c (len dados) novas.
Proof.
  induction bs as [|b bs IH]; intros c k notas n Hc Hsep Hall.
  - exists [], n. rewrite app_nil_r. simpl. auto.
  - simpl in Hsep. destruct Hsep as (H1 & H2 & H3).
    inversion Hall as [|? ? Hb Hall']; subst.
    cbn [notas_dos_blocos].
    destruct (notas_do_bloco_crescentes k b notas n)
      as (m1 & n1 & E1 & C1); [lia|lia|lia|].
    rewrite E1. cbn [bind fst snd].
    destruct (IH (posicao_fim b + 1 + tamanho_min) (k + 1) (notas ++ m1) n1)
      as (m2 & n2 & E2 & C2); auto.
    { unfold tamanho_min. lia. }
    rewrite E2. exists (m1 ++ m2), n2.
    split; [rewrite app_assoc; reflexivity|].
    apply (notas_crescentes_app _ _ _ (posicao_fim b + 1)).
    + apply (notas_crescentes_mono _ _ _ _ _ C1); lia.
    + apply (notas_crescentes_mono _ _ _ _ _ C2); unfold tamanho_min; lia.
    + lia.
Qed.
End Ordem.

Lemma blocos_separados_filter (f : BlocoEstrutura -> bool)
      (bl : list BlocoEstrutura) :
  forall c, blocos_separados c bl -> blocos_separados c (filter f bl).
Proof.
  induction bl as [|b bl IH]; intros c H; [exact I|].
  simpl in H. destruct H as (H1 & H2 & H3). simpl.
  destruct (f b).
  - simpl. repeat split; auto.
  - apply (blocos_separados_menor _ _ _ (IH _ H3)).
    unfold tamanho_min. lia.
Qed.

(** X13: The records of a successful run are stored in strictly ascending
    order of position; in particular no two records share a position. *)
Theorem notas_em_ordem_de_posicao (agora : nat -> Z) (dados : bytes)
        (nome : str) s a :
  analisar agora dados nome = Ret (s, Some a) ->
  forall i j n n',
    nth_error (notas_fiscais s) i = Some n ->
    nth_error (notas_fiscais s) j = Some n' ->
    (i < j)%nat ->
    posicao_registro n < posicao_registro n'.
Proof.
  intros H i j n n' Hi Hj Hlt.
  destruct (analisar_partes _ _ _ _ _ H)
    as (_ & _ & (_ & Hch & Hall) & Hbl & Hn & _).
  destruct (blocos_de_ok dados _ Hch) as (_ & Hval & _).
  assert (Hsep : blocos_separados 0 (blocos s)).
  { rewrite Hbl, blocos_de_forma, (sorted_inicio_encadeadas _ _ _ Hch).
    cbn [app]. apply blocos_entre_regioes_separados; [exact Hch|].
    eapply Forall_impl; [|exact Hall]. intros r [Hr _]. exact Hr. }
  rewrite <- Hbl in Hval.
  destruct (notas_dos_blocos_crescentes agora dados
              (filter e_dados (blocos s)) 0 0 [] 1)
    as (novas & n2 & E & Hcres); [lia| | |].
  - apply blocos_separados_filter. exact Hsep.
  - apply Forall_forall. intros b Hb. apply filter_In in Hb.
    rewrite Forall_forall in Hval.
    destruct (Hval b (proj1 Hb)) as (_ & _ & V3 & _). exact V3.
  - rewrite E in Hn. injection Hn as Hn _. simpl in Hn. subst novas.
    exact (notas_crescentes_ordem _ _ _ i j n n' Hcres Hi Hj Hlt).
Qed.

Lemma notas_em_ordem_de_posicao_witness :
  exists s a n n',
    analisar relogio0 buffer_duas_notas [] = Ret (s, Some a)
    /\ nth_error (notas_fiscais s) 0 = Some n
    /\ nth_error (notas_fiscais s) 1 = Some n'
    /\ posicao_registro n < posicao_registro n'.
Proof.
  eexists. eexists. eexists. eexists. split; [vm_compute; reflexivity|].
  split; [reflexivity|]. split; [reflexivity|].
  refine (notas_em_ordem_de_posicao relogio0 buffer_duas_notas []
            _ _ _ 0%nat 1%nat _ _ _ _ _).
  - vm_compute. reflexivity.
  - reflexivity.
  - reflexivity.
  - lia.
Defined.

(** ** Loading on an analyzer that was already used *)

Lemma mapear_laco_acumula (dados : bytes) (fuel : nat) (rs0 : list regiao) :
  rel_resultado (fun s1 s2 => fst s1 = fst s2 /\ snd s1 = rs0 ++ snd s2)
                (mapear_laco dados fuel rs0) (mapear_laco dados fuel []).
Proof.
  unfold mapear_laco.
  apply (while_rel (fun s1 s2 : Z * list regiao =>
                      fst s1 = fst s2 /\ snd s1 = rs0 ++ snd s2)).
  - intros s1 s2 [E _]. rewrite E. reflexivity.
  - intros [i r1] [i2 r2] [Ei Er]. cbn [fst snd] in *. subst i2 r1.
    unfold mapear_passo.
    destruct (avanca nao_nulo dados fuel i) as [i1|e]; cbn [bind];
      [|reflexivity].
    destruct (avanca nulo dados fuel i1) as [i3|e]; cbn [bind];
      [|reflexivity].
    cbn [rel_resultado fst snd]. split; [reflexivity|].
    destruct (i3 - 1 - i1 + 1 >=? tamanho_min); [|reflexivity].
    rewrite app_assoc. reflexivity.
  - cbn [fst snd]. rewrite app_nil_r. auto.
Qed.

Lemma carregar_arquivo_anexa (agora : nat -> Z)
      (self : PDVBackupAnalyzer) (dados : bytes) (nome : str) :
  assinatura_ok dados = true ->
  exists s a i rs,
    carregar_arquivo agora self dados nome = Ret (s, Some a)
    /\ mapear_laco dados (List.length dados) [] = Ret (i, rs)
    /\ regioes_nulas s = regioes_nulas self ++ rs
    /\ (exists bl, blocos s = blocos self ++ bl)
    /\ (exists ns, notas_fiscais s = notas_fiscais self ++ ns)
    /\ numero_regioes_nulas a = len (regioes_nulas self) + len rs
    /\ numero_blocos a = len (blocos s)
    /\ st_erros s = st_erros self.
Proof.
  intros Hsig. pose proof (assinatura_ok_len dados Hsig) as Hlen.
  unfold carregar_arquivo. rewrite Hsig.
  rewrite !percentual_ret by lia. simpl bind.
  unfold mapear_regioes_nulas. simpl regioes_nulas.
  pose proof (mapear_laco_acumula dados (List.length dados)
                                  (regioes_nulas self)) as Hrel.
  destruct (mapear_laco_forte dados) as (i & rs & E & _).
  rewrite E in Hrel.
  destruct (mapear_laco dados (List.length dados) (regioes_nulas self))
    as [[i' rs']|e]; simpl in Hrel; [|contradiction].
  destruct Hrel as [-> ->]. simpl. unfold extrair_notas_fiscais. simpl.
  set (bl := blocos_de dados (regioes_nulas self ++ rs) (blocos self)).
  destruct (notas_dos_blocos_ok agora dados (filter e_dados bl) 0
              (notas_fiscais self) (S (lidas self)))
    as (novas & n' & En & _).
  rewrite En. simpl.
  eexists. eexists. exists i, rs. split; [reflexivity|]. simpl.
  split; [exact E|]. split; [reflexivity|].
  split; [unfold bl; rewrite blocos_de_forma; eauto|].
  split; [eauto|]. split; [apply len_app|]. auto.
Qed.

(** X14: [carregar_arquivo] on any analyzer, fresh or not, with a buffer that
    has the signature: it raises nothing and only ever adds to what the
    analyzer holds.  The regions of the buffer are appended to the
    regions already there, blocks and records are appended to the blocks
    and records already there, and the region count of the file record
    counts the old regions too. *)
Theorem carregar_arquivo_acumula (agora : nat -> Z)
        (self : PDVBackupAnalyzer) (dados : bytes) (nome : str) :
  assinatura_ok dados = true ->
  exists s a i rs,
    carregar_arquivo agora self dados nome = Ret (s, Some a)
    /\ mapear_laco dados (List.length dados) [] = Ret (i, rs)
    /\ regioes_nulas s = regioes_nulas self ++ rs
    /\ (exists bl, blocos s = blocos self ++ bl)
    /\ (exists ns, notas_fiscais s = notas_fiscais self ++ ns)
    /\ numero_regioes_nulas a = len (regioes_nulas self) + len rs
    /\ numero_blocos a = len (blocos s)
    /\ st_erros s = st_erros self.
Proof.
  exact (carregar_arquivo_anexa agora self dados nome).
Qed.

Lemma carregar_arquivo_acumula_witness :
  assinatura_ok buffer_cenario = true
  /\ exists s a i rs,
       carregar_arquivo relogio0 analisador_novo buffer_cenario []
       = Ret (s, Some a)
       /\ mapear_laco buffer_cenario (List.length buffer_cenario) []
          = Ret (i, rs)
       /\ regioes_nulas s = regioes_nulas analisador_novo ++ rs
       /\ (exists bl, blocos s = blocos analisador_novo ++ bl)
       /\ (exists ns, notas_fiscais s = notas_fiscais analisador_novo ++ ns)
       /\ numero_regioes_nulas a
          = len (regioes_nulas analisador_novo) + len rs
       /\ numero_blocos a = len (blocos s)
       /\ st_erros s = st_erros analisador_novo.
Proof.
  split; [vm_compute; reflexivity|].
  apply (carregar_arquivo_acumula relogio0 analisador_novo buffer_cenario []).
  vm_compute. reflexivity.
Defined.

(** X15: An analyzer is good for one load only: a second load of the same
    buffer on the analyzer that a successful run left behind succeeds
    and records every null region a second time, so that the region
    list is the first list twice over and the region count doubles. *)
Theorem segunda_carga_duplica_regioes (agora : nat -> Z) (dados : bytes)
        (nome : str) s1 a1 :
  analisar agora dados nome = Ret (s1, Some a1) ->
  exists s2 a2,
    carregar_arquivo agora s1 dados nome = Ret (s2, Some a2)
    /\ regioes_nulas s2 = regioes_nulas s1 ++ regioes_nulas s1
    /\ numero_regioes_nulas a2 = 2 * numero_regioes_nulas a1
    /\ (exists bl, blocos s2 = blocos s1 ++ bl)
    /\ (exists ns, notas_fiscais s2 = notas_fiscais s1 ++ ns).
Proof.
  intros H.
  destruct (analisar_partes _ _ _ _ _ H)
    as (Hsig & _ & _ & _ & _ & _ & Hnr & _).
  destruct (analisar_regioes _ _ _ _ _ H) as (i & E).
  destruct (carregar_arquivo_anexa agora s1 dados nome Hsig)
    as (s2 & a2 & i' & rs & Hrun & E' & Hr & Hb & Hn & Hc & _).
  rewrite E in E'. injection E' as _ <-.
  exists s2, a2. split; [exact Hrun|]. split; [exact Hr|].
  split; [rewrite Hc, Hnr; lia|]. auto.
Qed.

Lemma segunda_carga_duplica_regioes_witness :
  exists s1 a1 s2 a2,
    analisar relogio0 buffer_cenario [] = Ret (s1, Some a1)
    /\ carregar_arquivo relogio0 s1 buffer_cenario [] = Ret (s2, Some a2)
    /\ regioes_nulas s2 = regioes_nulas s1 ++ regioes_nulas s1
    /\ numero_regioes_nulas a2 = 2 * numero_regioes_nulas a1.
Proof.
  eexists. eexists.
  destruct (segunda_carga_duplica_regioes relogio0 buffer_cenario [] _ _
              ltac:(vm_compute; reflexivity))
    as (s2 & a2 & H1 & H2 & H3 & _).
  exists s2, a2. split; [vm_compute; reflexivity|]. auto.
Defined.

(** ** The density map: shares and windows *)

Lemma mapa_densidade_e_spec (dados : bytes) (tamanho_bloco : Z) :
  0 < tamanho_bloco ->
  gerar_mapa_densidade dados tamanho_bloco
  = Ret (mapa_densidade_spec dados tamanho_bloco)
  /\ len (mapa_densidade_spec dados tamanho_bloco)
     = (len dados + tamanho_bloco - 1) / tamanho_bloco.
Proof.
  intros Hpos. unfold gerar_mapa_densidade, floordiv, mapa_densidade_spec.
  destruct (Z.eqb_spec tamanho_bloco 0); [lia|]. cbn [bind]. unfold range.
  pose proof (Z.div_mod (len dados + tamanho_bloco - 1) tamanho_bloco
                        ltac:(lia)) as Hdm.
  pose proof (Z.mod_pos_bound (len dados + tamanho_bloco - 1) tamanho_bloco
                              Hpos) as Hmod.
  pose proof (len_nonneg dados) as Hlen.
  set (t := (len dados + tamanho_bloco - 1) / tamanho_bloco) in *.
  assert (Ht : 0 <= t) by nia.
  assert (E : map_m (janela_de dados tamanho_bloco)
                    (map Z.of_nat (seq 0 (Z.to_nat t)))
              = Ret (janelas_spec (List.length dados) (Z.to_nat tamanho_bloco)
                                  0 dados)).
  { rewrite (janelas_de_seq dados tamanho_bloco Hpos (Z.to_nat t) 0
                            (List.length dados)).
    - reflexivity.
    - unfold len in *. nia.
    - intros Hm. unfold len in *. nia.
    - lia. }
  split; [exact E|].
  assert (Hmm : forall (f : Z -> resultado janela) js l,
             map_m f js = Ret l -> List.length l = List.length js).
  { induction js as [|x js IH]; simpl; intros l Hl.
    - injection Hl as <-. reflexivity.
    - destruct (f x); simpl in Hl; [|discriminate].
      destruct (map_m f js); simpl in Hl; [|discriminate].
      injection Hl as <-. simpl. rewrite (IH _ eq_refl). reflexivity. }
  apply Hmm in E. rewrite length_map, length_seq in E.
  unfold len at 1. lia.
Qed.





Lemma janelas_spec_contiguas (n : nat) :
  (0 < n)%nat ->
  forall fuel off dados,
    (List.length dados <= fuel)%nat ->
    janelas_contiguas (Z.of_nat n) off (off + len dados)
                      (janelas_spec fuel n off dados).
Proof.
  intros Hn. induction fuel as [|f IH]; intros off dados Hf.
  - destruct dados; [|simpl in Hf; lia]. unfold len. simpl. lia.
  - destruct dados as [|b r]; [unfold len; simpl; lia|].
    cbn [janelas_spec].
    assert (Hl : 0 < len (b :: r)) by (rewrite len_cons;
                                       pose proof (len_nonneg r); lia).
    set (dados := b :: r) in *.
    assert (Hfn : len (firstn n dados) = Z.min (Z.of_nat n) (len dados)).
    { unfold len. rewrite length_firstn. lia. }
    assert (Hsk : len (skipn n dados) = len dados - len (firstn n dados)).
    { unfold len. rewrite length_skipn, length_firstn. lia. }
    specialize (IH (off + Z.of_nat n) (skipn n dados)).
    cbn [janelas_contiguas linha_spec j_inicio j_fim].
    split; [reflexivity|]. split; [lia|]. split; [lia|]. split; [lia|].
    split; [lia|].
    destruct (Z.le_gt_cases (Z.of_nat n) (len dados)) as [Hle|Hgt].
    + replace (off + len (firstn n dados) - 1 + 1) with (off + Z.of_nat n)
        by lia.
      replace (off + len dados)
        with (off + Z.of_nat n + len (skipn n dados)) by lia.
      apply IH. unfold len in *. rewrite length_skipn. lia.
    + assert (Hnil : skipn n dados = []).
      { apply skipn_all2. unfold len in *. lia. }
      rewrite Hnil. destruct f; cbn [janelas_spec janelas_contiguas]; lia.
Qed.

(** X17: For every buffer and positive window size, the rows of the density
    map cut the buffer into consecutive windows: the first starts at
    offset 0, each starts right after the previous one ends, the last
    ends with the buffer, none is empty, all but the last hold exactly
    the window size, and there are ceil(length / size) of them (none for
    the empty buffer). *)
Theorem janelas_cobrem_o_buffer (dados : bytes) (tamanho_bloco : Z) :
  0 < tamanho_bloco ->
  exists rows,
    gerar_mapa_densidade dados tamanho_bloco = Ret rows
    /\ janelas_contiguas tamanho_bloco 0 (len dados) rows
    /\ len rows = (len dados + tamanho_bloco - 1) / tamanho_bloco.
Proof.
  intros Hpos. destruct (mapa_densidade_e_spec dados _ Hpos) as (E & Hn).
  eexists. split; [exact E|]. split; [|exact Hn].
  unfold mapa_densidade_spec.
  pose proof (janelas_spec_contiguas (Z.to_nat tamanho_bloco) ltac:(lia)
                (List.length dados) 0 dados (Nat.le_refl _)) as H.
  rewrite Z2Nat.id in H by lia. exact H.
Qed.

Lemma janelas_cobrem_o_buffer_witness :
  0 < 64
  /\ exists rows,
       gerar_mapa_densidade buffer_cenario 64 = Ret rows
       /\ janelas_contiguas 64 0 (len buffer_cenario) rows
       /\ len rows = (len buffer_cenario + 64 - 1) / 64.
Proof.
  split; [lia|]. apply (janelas_cobrem_o_buffer buffer_cenario 64). lia.
Defined.

(** ** The order of the kinds of blocks *)

Section TiposEmOrdem.
Variable dados : bytes.

Lemma blocos_entre_regioes_dados (rs : list regiao) :
  forall p c, 1024 <= p -> encadeadas p c rs ->
    forallb e_dados (blocos_entre_regioes dados p rs) = true.
Proof.
  induction rs as [|r rs IH]; intros p c Hp Hch; [reflexivity|].
  cbn [blocos_entre_regioes]. destruct Hch as (H1 & H2 & _ & Hch).
  rewrite forallb_app. rewrite (IH (r_fim r + 1) c) by (auto; lia).
  rewrite andb_true_r.
  destruct (r_inicio r >? p); [|reflexivity].
  cbn [forallb]. rewrite andb_true_r. unfold bloco_antes.
  destruct (p =? 0) eqn:E0; [lia|].
  destruct (p <? 1024) eqn:E1; [lia|]. reflexivity.
Qed.

Lemma filter_todos {A} (f : A -> bool) (l : list A) :
  forallb f l = true -> filter f l = l.
Proof.
  induction l as [|x l IH]; [reflexivity|]. cbn [forallb filter].
  intros H. apply andb_true_iff in H. destruct H as [Hx Hl].
  rewrite Hx, (IH Hl). reflexivity.
Qed.

Lemma filter_nenhum {A} (f : A -> bool) (l : list A) :
  forallb f l = true -> filter (fun x => negb (f x)) l = [].
Proof.
  induction l as [|x l IH]; [reflexivity|]. cbn [forallb filter].
  intros H. apply andb_true_iff in H. destruct H as [Hx Hl].
  rewrite Hx, (IH Hl). reflexivity.
Qed.

Lemma blocos_entre_regioes_tipos (rs : list regiao) :
  forall p c, 0 <= p -> encadeadas p c rs ->
    blocos_entre_regioes dados p rs
    = filter nao_dados (blocos_entre_regioes dados p rs)
      ++ filter e_dados (blocos_entre_regioes dados p rs).
Proof.
  induction rs as [|r rs IH]; intros p c Hp Hch; [reflexivity|].
  destruct (Z_lt_ge_dec p 1024) as [Hlt|Hge].
  - cbn [blocos_entre_regioes]. destruct Hch as (H1 & H2 & _ & Hch).
    destruct (r_inicio r >? p).
    + cbn [app].
      assert (Hd : e_dados (bloco_antes dados p r) = false).
      { unfold bloco_antes. destruct (p =? 0); [reflexivity|].
        destruct (p <? 1024) eqn:E1; [reflexivity|lia]. }
      cbn [filter]. unfold nao_dados at 1. rewrite Hd. cbn [negb app].
      f_equal. apply (IH _ c); [lia|exact Hch].
    + cbn [app]. apply (IH _ c); [lia|exact Hch].
  - pose proof (blocos_entre_regioes_dados (r :: rs) p c ltac:(lia) Hch)
      as Hall.
    unfold nao_dados. rewrite (filter_nenhum _ _ Hall).
    rewrite (filter_todos _ _ Hall). reflexivity.
Qed.

Lemma blocos_de_tipos (rs : list regiao) (c : Z) :
  encadeadas 0 c rs ->
  blocos_de dados rs []
  = filter nao_dados (blocos_de dados rs [])
    ++ filter e_dados (blocos_de dados rs []).
Proof.
  intros Hch. rewrite blocos_de_forma, (sorted_inicio_encadeadas _ _ _ Hch).
  cbn [app]. rewrite !filter_app.
  destruct (cursor_final 0 rs <? len dados).
  - cbn [filter]. unfold nao_dados at 2.
    change (e_dados (bloco_final dados (cursor_final 0 rs))) with true.
    cbn [negb]. rewrite app_nil_r, app_assoc. f_equal.
    apply (blocos_entre_regioes_tipos rs 0 c); [lia|exact Hch].
  - cbn [filter]. rewrite !app_nil_r.
    apply (blocos_entre_regioes_tipos rs 0 c); [lia|exact Hch].
Qed.

End TiposEmOrdem.

Lemma analisar_tipos (agora : nat -> Z) (dados : bytes) (nome : str) s a :
  analisar agora dados nome = Ret (s, Some a) ->
  blocos s = filter nao_dados (blocos s) ++ filter e_dados (blocos s).
Proof.
  intros H. destruct (analisar_partes _ _ _ _ _ H)
    as (_ & _ & (_ & Hch & _) & Hbl & _).
  rewrite Hbl. apply (blocos_de_tipos dados _ _ Hch).
Qed.

Lemma filter_In_tipo (b : BlocoEstrutura) (l : list BlocoEstrutura) :
  In b (filter nao_dados l) -> tipo b <> DADOS.
Proof.
  intros Hin E. apply filter_In in Hin. destruct Hin as [_ Hn].
  unfold nao_dados, e_dados in Hn. rewrite E in Hn. discriminate Hn.
Qed.

(** X11: the blocks of a run are stored with those of kind DADOS last:
    a block of another kind never comes after a data block, and the
    data blocks are the blocks from the index on that is the number of
    the others. *)
Theorem blocos_de_dados_por_ultimo (agora : nat -> Z) (dados : bytes)
        (nome : str) s a :
  analisar agora dados nome = Ret (s, Some a) ->
  (forall i j b b',
     nth_error (blocos s) i = Some b ->
     nth_error (blocos s) j = Some b' ->
     tipo b = DADOS -> tipo b' <> DADOS -> (j < i)%nat)
  /\ (forall k,
        nth_error (filter e_dados (blocos s)) k
        = nth_error (blocos s)
                    (List.length (filter nao_dados (blocos s)) + k)).
Proof.
  intros H. pose proof (analisar_tipos _ _ _ _ _ H) as Hf.
  set (nd := filter nao_dados (blocos s)) in *.
  set (d := filter e_dados (blocos s)) in *.
  split.
  - intros i j b b' Hi Hj Hb Hb'. rewrite Hf in Hi, Hj.
    destruct (Nat.lt_ge_cases i (List.length nd)) as [Hin|Hin].
    + rewrite nth_error_app1 in Hi by exact Hin.
      apply nth_error_In in Hi. destruct (filter_In_tipo _ _ Hi Hb).
    + destruct (Nat.lt_ge_cases j (List.length nd)) as [Hjn|Hjn]; [lia|].
      rewrite nth_error_app2 in Hj by exact Hjn.
      apply nth_error_In in Hj. unfold d in Hj. apply filter_In in Hj.
      destruct Hj as [_ Hd]. unfold e_dados in Hd.
      destruct (tipo b'); try discriminate Hd. destruct (Hb' eq_refl).
  - intros k. rewrite Hf. rewrite nth_error_app2 by lia.
    f_equal. lia.
Qed.

Lemma blocos_de_dados_por_ultimo_witness :
  exists s a b b',
    analisar relogio0 buffer_cabecalho_nota [] = Ret (s, Some a)
    /\ nth_error (blocos s) 1 = Some b
    /\ nth_error (blocos s) 0 = Some b'
    /\ tipo b = DADOS /\ tipo b' <> DADOS /\ (0 < 1)%nat.
Proof.
  eexists. eexists. eexists. eexists. split; [vm_compute; reflexivity|].
  split; [reflexivity|]. split; [reflexivity|].
  split; [reflexivity|]. split; [discriminate|].
  refine (proj1 (blocos_de_dados_por_ultimo relogio0 buffer_cabecalho_nota []
                   _ _ _) 1%nat 0%nat _ _ _ _ _ _).
  - vm_compute. reflexivity.
  - reflexivity.
  - reflexivity.
  - reflexivity.
  - discriminate.
Defined.

(** ** The exported tables *)

Lemma enumerate_length {A} (l : list A) :
  forall k, List.length (enumerate k l) = List.length l.
Proof.
  induction l as [|x l IH]; intros k; [reflexivity|].
  cbn [enumerate List.length]. rewrite IH. reflexivity.
Qed.

Lemma enumerate_nth {A} (l : list A) :
  forall k i,
    nth_error (enumerate k l) i
    = option_map (fun x => (k + Z.of_nat i, x)) (nth_error l i).
Proof.
  induction l as [|x l IH]; intros k i.
  - destruct i; reflexivity.
  - destruct i as [|i]; cbn [enumerate nth_error option_map].
    + f_equal. f_equal. lia.
    + rewrite IH. destruct (nth_error l i); cbn [option_map]; [|reflexivity].
      f_equal. f_equal. lia.
Qed.

Lemma nota_no_bloco (agora : nat -> Z) (dados : bytes) (nome : str) s a :
  analisar agora dados nome = Ret (s, Some a) ->
  forall nota, In nota (notas_fiscais s) ->
    exists k b,
      bloco_id nota = Z.of_nat k
      /\ nth_error (filter e_dados (blocos s)) k = Some b
      /\ posicao_inicio b <= posicao_registro nota
      /\ posicao_registro nota + 20 <= posicao_fim b.
Proof.
  intros H nota Hin.
  destruct (notas_da_analise _ _ _ _ _ H) as (HA & _).
  destruct (HA nota Hin) as (k & b & mais & Hk & Hm & (Hsao & _)).
  destruct (Hsao nota Hm) as (i & Hi & _ & Hreg).
  destruct Hreg as (Rid & Rpos & _).
  destruct (analisar_partes _ _ _ _ _ H)
    as (_ & _ & (_ & Hch & _) & Hbl & _).
  destruct (blocos_de_ok dados _ Hch) as (_ & Hval & _).
  rewrite <- Hbl in Hval. rewrite Forall_forall in Hval.
  pose proof (nth_error_In _ _ Hk) as Hbin. apply filter_In in Hbin.
  destruct Hbin as [Hbin _].
  destruct (Hval b Hbin) as (V1 & V2 & V3 & V4 & _).
  pose proof (len_dados_do_bloco dados b V1 V3 V2) as Hlen.
  exists k, b. repeat split; auto; lia.
Qed.

Lemma linhas_nao_dados (bl : list BlocoEstrutura) :
  forall k,
    List.length (filter (fun r => negb (linha_de_dados r))
                        (map linha_do_bloco (enumerate k bl)))
    = List.length (filter nao_dados bl).
Proof.
  induction bl as [|b bl IH]; intros k; [reflexivity|].
  cbn [enumerate map filter]. unfold nao_dados at 1, e_dados.
  unfold linha_de_dados at 1. cbn [linha_do_bloco lb_tipo].
  destruct (tipo b); cbn [negb List.length]; rewrite ?IH; reflexivity.
Qed.

(** X18: after a run that accepted the buffer the export raises nothing
    and its four tables agree with one another: the file table has one
    row, whose size is the buffer's and whose counts of blocks and of
    null regions are the numbers of rows of the block and region tables;
    the rows of the block and record tables are numbered by position;
    and the [bloco_id] of a record row counts data blocks only, so that
    the block row that holds the record is the one whose id is that
    number plus the number of rows of another kind. *)
Theorem exportacao_coerente (agora : nat -> Z) (dados : bytes)
        (nome : str) s a :
  analisar agora dados nome = Ret (s, Some a) ->
  exists e la,
    exportar_para_csv s = Ret e
    /\ df_arquivo e = [la]
    /\ la_tamanho_bytes la = len dados
    /\ la_numero_blocos la = len (df_blocos e)
    /\ la_numero_regioes_nulas la = len (df_regioes e)
    /\ df_regioes e = regioes_nulas s
    /\ len (df_notas e) = len (notas_fiscais s)
    /\ (forall i l, nth_error (df_blocos e) i = Some l ->
          lb_id l = Z.of_nat i)
    /\ (forall i l, nth_error (df_notas e) i = Some l ->
          ln_id l = Z.of_nat i
          /\ exists j lb,
               nth_error (df_blocos e) j = Some lb
               /\ lb_tipo lb = DADOS
               /\ lb_id lb
                  = ln_bloco_id l
                    + len (filter (fun r => negb (linha_de_dados r))
                                  (df_blocos e))
               /\ lb_posicao_inicio lb <= ln_posicao l
               /\ ln_posicao l + 20 <= lb_posicao_fim lb).
Proof.
  intros H.
  destruct (analisar_partes _ _ _ _ _ H)
    as (_ & Ha & _ & _ & _ & Nb & Nr & Nt & _).
  unfold exportar_para_csv. rewrite Ha.
  eexists. eexists. split; [reflexivity|]. split; [reflexivity|].
  cbn [df_arquivo df_blocos df_regioes df_notas la_tamanho_bytes
       la_numero_blocos la_numero_regioes_nulas].
  split; [exact Nt|].
  split; [unfold len in *; rewrite length_map, enumerate_length; exact Nb|].
  split; [exact Nr|]. split; [reflexivity|].
  split; [unfold len; rewrite length_map, enumerate_length; reflexivity|].
  split.
  - intros i l Hl. rewrite nth_error_map, enumerate_nth in Hl.
    destruct (nth_error (blocos s) i); [|discriminate Hl].
    cbn [option_map] in Hl. injection Hl as Hl. subst l. reflexivity.
  - intros i l Hl. rewrite nth_error_map, enumerate_nth in Hl.
    destruct (nth_error (notas_fiscais s) i) as [nota|] eqn:En;
      [|discriminate Hl].
    cbn [option_map] in Hl. injection Hl as Hl. subst l.
    split; [reflexivity|].
    destruct (nota_no_bloco _ _ _ _ _ H nota (nth_error_In _ _ En))
      as (k & b & Hk & Hb & P1 & P2).
    pose proof (analisar_tipos _ _ _ _ _ H) as Hf.
    assert (Hd : tipo b = DADOS).
    { apply nth_error_In in Hb. apply filter_In in Hb. destruct Hb as [_ Hd].
      unfold e_dados in Hd. destruct (tipo b); try discriminate Hd.
      reflexivity. }
    set (m := List.length (filter nao_dados (blocos s))).
    assert (Hm : nth_error (blocos s) (m + k) = Some b).
    { rewrite Hf. rewrite nth_error_app2 by (unfold m; lia).
      replace (m + k - List.length (filter nao_dados (blocos s)))%nat
        with k by (unfold m; lia).
      exact Hb. }
    exists (m + k)%nat, (linha_do_bloco (Z.of_nat (m + k), b)).
    split.
    { rewrite nth_error_map, enumerate_nth, Hm. reflexivity. }
    cbn [linha_do_bloco linha_da_nota lb_tipo lb_id ln_bloco_id
         lb_posicao_inicio lb_posicao_fim ln_posicao].
    split; [exact Hd|]. split; [|split; assumption].
    unfold len. rewrite linhas_nao_dados. fold m. lia.
Qed.

Lemma exportacao_coerente_witness :
  exists s a,
    analisar relogio0 buffer_cabecalho_nota [] = Ret (s, Some a)
    /\ exists e la,
         exportar_para_csv s = Ret e
         /\ df_arquivo e = [la]
         /\ la_tamanho_bytes la = len buffer_cabecalho_nota.
Proof.
  eexists. eexists. split; [vm_compute; reflexivity|].
  destruct (exportacao_coerente relogio0 buffer_cabecalho_nota [] _ _
              ltac:(vm_compute; reflexivity))
    as (e & la & H1 & H2 & H3 & _).
  exists e, la. split; [exact H1|]. split; [exact H2|exact H3].
Defined.

(** X19: an analyzer that has loaded nothing cannot export: the export
    raises AttributeError exactly when no file record is held.  After a
    load that rejected the buffer for its signature a record is held, so
    the export returns: a file row with the buffer's name and size, an
    empty signature and version, zero shares and zero counts, and three
    empty tables. *)
Theorem exportacao_apos_rejeicao (agora : nat -> Z) (dados : bytes)
        (nome : str) :
  (forall r, dados <> b_lit "HE3" ++ r) ->
  (forall self, exportar_para_csv self = Raise AttributeError
                <-> arquivo self = None)
  /\ exists s e la,
       analisar agora dados nome = Ret (s, None)
       /\ exportar_para_csv s = Ret e
       /\ df_arquivo e = [la]
       /\ la_nome_arquivo la = nome
       /\ la_tamanho_bytes la = len dados
       /\ la_assinatura la = [] /\ la_versao la = []
       /\ la_percentual_bytes_nulos la = 0%Q
       /\ la_percentual_controle la = 0%Q
       /\ la_percentual_ascii la = 0%Q
       /\ la_percentual_unicode la = 0%Q
       /\ la_numero_blocos la = 0 /\ la_numero_regioes_nulas la = 0
       /\ df_blocos e = [] /\ df_regioes e = [] /\ df_notas e = [].
Proof.
  intros Hno. split.
  - intros self. unfold exportar_para_csv.
    destruct (arquivo self); split; intros E; try discriminate E; reflexivity.
  - assert (Hs : assinatura_ok dados = false).
    { destruct (assinatura_ok dados) eqn:E; [|reflexivity].
      apply assinatura_ok_iff in E. destruct E as (r & E).
      destruct (Hno r E). }
    unfold analisar, carregar_arquivo. rewrite Hs.
    eexists. eexists. eexists. split; [reflexivity|].
    split; [reflexivity|]. cbn. auto 20.
Qed.

Lemma exportacao_apos_rejeicao_witness :
  (forall r, b_lit "XYZ" <> b_lit "HE3" ++ r)
  /\ exists s e,
       analisar relogio0 (b_lit "XYZ") [] = Ret (s, None)
       /\ exportar_para_csv s = Ret e
       /\ df_blocos e = [] /\ df_regioes e = [] /\ df_notas e = [].
Proof.
  assert (H : forall r, b_lit "XYZ" <> b_lit "HE3" ++ r).
  { intros r E. vm_compute in E. discriminate E. }
  split; [exact H|].
  destruct (proj2 (exportacao_apos_rejeicao relogio0 (b_lit "XYZ") [] H))
    as (s & e & la & H1 & H2 & _ & _ & _ & _ & _ & _ & _ & _ & _ & _ & _
        & H3 & H4 & H5).
  exists s, e. auto.
Defined.

(** ** The byte distribution chart *)









